(** * AI-PLAN backend (backend/main.py): a shallow embedding and its properties

    The FastAPI handlers of [backend/main.py] are embedded as functions in a
    state-and-exception monad.  Everything outside the repository (environment
    variables, the generative provider, the HTTP providers, the float routines
    of the Python runtime) is gathered in a record [Env]; the storage engine and
    the log of network calls form the state [World].

    Conventions.
    - A Python [str] is a [string]; a non-ASCII character is the run of bytes of
      its UTF-8 encoding, so searching, slicing at ASCII positions, joining and
      splitting act on it as Python does on the text.
    - A Python [int] is a [Z].
    - A Python [float] is a [pyfloat]: the exact rational it was written as, or
      one of the three special values.  Rounding to binary64 and overflow are not
      modelled; the figures of [estimate_budget] are integers far below 2^53 for
      any realistic trip, where binary64 arithmetic is exact. *)

From Stdlib Require Import ZArith QArith Qreduction String Ascii List Bool Lia.
From Stdlib Require Import DecimalString.
From Stdlib Require Import Sorted Permutation.
Import ListNotations.

Local Open Scope string_scope.
Local Open Scope Z_scope.

(** ** Python exceptions and results *)

Inductive exn : Type :=
| JSONDecodeError
| ValueError
| TypeError
| AttributeError
| KeyError
| IndexError
| NameError
| ZeroDivisionError
| ValidationError
| HTTPException (status_code : Z)
| ProviderError
| OperationalError.

Inductive pyres (A : Type) : Type :=
| Ok (a : A)
| Raise (e : exn).
Arguments Ok {A} a.
Arguments Raise {A} e.

Definition is_ok {A} (r : pyres A) : bool :=
  match r with Ok _ => true | Raise _ => false end.

(** [except json.JSONDecodeError] catches that class only; [except Exception]
    catches every constructor of [exn]. *)
Definition is_JSONDecodeError (e : exn) : bool :=
  match e with JSONDecodeError => true | _ => false end.

(** ** Floats *)

Inductive pyfloat : Type :=
| Finite (q : Q)
| NaN
| Inf (negative : bool).

Definition float_of_int (n : Z) : pyfloat := Finite (inject_Z n).

(** [f * n] for a float [f] and an int [n]. *)
Definition float_mul_int (f : pyfloat) (n : Z) : pyfloat :=
  match f with
  | Finite q => Finite (Qred (q * inject_Z n))
  | NaN => NaN
  | Inf neg => if n =? 0 then NaN else Inf (xorb neg (n <? 0))
  end.

(** [f / n] for a float [f] and an int [n]: true division. *)
Definition float_div_int (f : pyfloat) (n : Z) : pyres pyfloat :=
  if n =? 0 then Raise ZeroDivisionError
  else Ok match f with
          | Finite q => Finite (Qred (q / inject_Z n))
          | NaN => NaN
          | Inf neg => Inf (xorb neg (n <? 0))
          end.

(** ** Budget Estimator *)

(** The literal dict [{"low": 40.0, "medium": 80.0, "high": 150.0}]. *)
Definition base_per_day_table : list (string * pyfloat) :=
  [("low", Finite 40); ("medium", Finite 80); ("high", Finite 150)].

Fixpoint dict_get {V} (d : list (string * V)) (k : string) : option V :=
  match d with
  | [] => None
  | (k', v) :: d' => if String.eqb k' k then Some v else dict_get d' k
  end.

(** [d.get(key, default)] where the key may be [None], which is no key of a
    dict of strings. *)
Definition dict_get_default {V} (d : list (string * V)) (k : option string) (default : V) : V :=
  match k with
  | Some k => match dict_get d k with Some v => v | None => default end
  | None => default
  end.

(** [estimate_budget(days, travelers, level)].  [level] is annotated [str]; the
    chat path can pass [None], which [dict.get] accepts. *)
Definition estimate_budget (days travelers : Z) (level : option string)
  : pyres (pyfloat * pyfloat) :=
  let base_per_day := dict_get_default base_per_day_table level (Finite 80) in
  let total := float_mul_int (float_mul_int base_per_day days) travelers in
  match float_div_int total (Z.max travelers 1) with
  | Ok per_person => Ok (total, per_person)
  | Raise e => Raise e
  end.


(** ** Text *)

Definition chars (s : string) : list ascii := list_ascii_of_string s.
Definition text (l : list ascii) : string := string_of_list_ascii l.

Definition LF : ascii := ascii_of_nat 10.
Definition DQUOTE : ascii := ascii_of_nat 34.
Definition newline : string := String LF "".
Definition dquote : string := String DQUOTE "".

(** [str(n)] for an int. *)
Definition str_of_int (n : Z) : string := NilZero.string_of_int (Z.to_int n).

(** [s.find(c)] for a one-character needle: the first index, or -1. *)
Fixpoint find_from (c : ascii) (l : list ascii) (i : Z) : Z :=
  match l with
  | [] => -1
  | a :: l' => if Ascii.eqb a c then i else find_from c l' (i + 1)
  end.

Definition str_find (s : string) (c : ascii) : Z := find_from c (chars s) 0.

(** [s.rfind(c)]: the last index, or -1. *)
Fixpoint rfind_from (c : ascii) (l : list ascii) (i : Z) (last : Z) : Z :=
  match l with
  | [] => last
  | a :: l' => rfind_from c l' (i + 1) (if Ascii.eqb a c then i else last)
  end.

Definition str_rfind (s : string) (c : ascii) : Z := rfind_from c (chars s) 0 (-1).

(** [s[start:stop]] for indices that are not negative. *)
Definition str_slice (s : string) (start stop : Z) : string :=
  text (firstn (Z.to_nat (stop - start)) (skipn (Z.to_nat start) (chars s))).

(** [s[n:]] for [n >= 0]. *)
Definition str_drop (n : nat) (s : string) : string := text (skipn n (chars s)).

Fixpoint starts_with (p l : list ascii) : bool :=
  match p, l with
  | [], _ => true
  | a :: p', b :: l' => Ascii.eqb a b && starts_with p' l'
  | _ :: _, [] => false
  end.

Definition str_startswith (s p : string) : bool := starts_with (chars p) (chars s).
Definition str_endswith (s p : string) : bool :=
  starts_with (rev (chars p)) (rev (chars s)).

(** A byte [10xxxxxx] continues a UTF-8 character. *)
Definition is_continuation (a : ascii) : bool :=
  let n := nat_of_ascii a in (128 <=? n)%nat && (n <? 192)%nat.

Fixpoint drop_continuations (l : list ascii) : list ascii :=
  match l with
  | a :: l' => if is_continuation a then drop_continuations l' else l
  | [] => []
  end.

(** Removes the last character of a text given in reverse. *)
Definition drop_char_rev (l : list ascii) : list ascii :=
  match drop_continuations l with
  | _ :: l' => l'
  | [] => []
  end.

(** [s[:-n]] for [n > 0]: all but the last [n] characters. *)
Definition str_drop_last (n : nat) (s : string) : string :=
  text (rev (Nat.iter n drop_char_rev (rev (chars s)))).

Definition byte (n : nat) : ascii := ascii_of_nat n.

(** The characters [str.isspace] accepts, as UTF-8: U+0009..U+000D,
    U+001C..U+0020, U+0085, U+00A0, U+1680, U+2000..U+200A, U+2028, U+2029,
    U+202F, U+205F, U+3000. *)
Definition py_space_1 (a : ascii) : bool :=
  let n := nat_of_ascii a in
  ((9 <=? n) && (n <=? 13) || (28 <=? n) && (n <=? 32))%nat.

Definition py_spaces_multi : list (list ascii) :=
  [ [byte 194; byte 133]; [byte 194; byte 160]; [byte 225; byte 154; byte 128];
    [byte 226; byte 128; byte 128]; [byte 226; byte 128; byte 129];
    [byte 226; byte 128; byte 130]; [byte 226; byte 128; byte 131];
    [byte 226; byte 128; byte 132]; [byte 226; byte 128; byte 133];
    [byte 226; byte 128; byte 134]; [byte 226; byte 128; byte 135];
    [byte 226; byte 128; byte 136]; [byte 226; byte 128; byte 137];
    [byte 226; byte 128; byte 138]; [byte 226; byte 128; byte 168];
    [byte 226; byte 128; byte 169]; [byte 226; byte 128; byte 175];
    [byte 226; byte 129; byte 159]; [byte 227; byte 128; byte 128] ].

(** The text after one leading space character, if there is one; [pats] are
    the multi-byte spaces, in the direction of reading. *)
Definition drop_space (pats : list (list ascii)) (l : list ascii) : option (list ascii) :=
  match l with
  | [] => None
  | a :: l' =>
      if py_space_1 a then Some l'
      else match find (fun p => starts_with p l) pats with
           | Some p => Some (skipn (length p) l)
           | None => None
           end
  end.

Fixpoint lstrip_with (pats : list (list ascii)) (fuel : nat) (l : list ascii) : list ascii :=
  match fuel with
  | O => l
  | S fuel => match drop_space pats l with
              | Some l' => lstrip_with pats fuel l'
              | None => l
              end
  end.

Definition lstrip (l : list ascii) : list ascii :=
  lstrip_with py_spaces_multi (length l) l.
Definition rstrip (l : list ascii) : list ascii :=
  rev (lstrip_with (map (@rev ascii) py_spaces_multi) (length l) (rev l)).

(** [s.strip()]. *)
Definition str_strip (s : string) : string := text (rstrip (lstrip (chars s))).

(** [sep.join(items)]. *)
Definition str_join (sep : string) (items : list string) : string :=
  String.concat sep items.

(** [s.split(c)] for a one-character separator: never an empty list. *)
Fixpoint split_chars (c : ascii) (l : list ascii) (cur : list ascii) : list string :=
  match l with
  | [] => [text (rev cur)]
  | a :: l' => if Ascii.eqb a c then text (rev cur) :: split_chars c l' []
               else split_chars c l' (a :: cur)
  end.

Definition str_split (s : string) (c : ascii) : list string := split_chars c (chars s) [].

(** Truthiness of a [str]. *)
Definition str_truthy (s : string) : bool :=
  match s with EmptyString => false | _ => true end.

(** ** Python values

    The values [json.loads] produces and the handlers pass around: [None],
    [bool], [int], [float], [str], [list] and [dict] with string keys.  A dict
    keeps its keys in insertion order. *)

#[warnings="-register-all"]
Inductive value : Type :=
| VNone
| VBool (b : bool)
| VInt (n : Z)
| VFloat (f : pyfloat)
| VStr (s : string)
| VList (items : list value)
| VDict (entries : list (string * value)).

Definition dict : Type := list (string * value).

(** [d[k] = v]: an existing key keeps its place. *)
Fixpoint dict_set {V} (d : list (string * V)) (k : string) (v : V) : list (string * V) :=
  match d with
  | [] => [(k, v)]
  | (k', v') :: d' => if String.eqb k' k then (k', v) :: d' else (k', v') :: dict_set d' k v
  end.

(** [d.setdefault(k, v)]. *)
Definition dict_setdefault {V} (d : list (string * V)) (k : string) (v : V) : list (string * V) :=
  match dict_get d k with
  | Some _ => d
  | None => dict_set d k v
  end.

(** Truthiness, as [bool(x)], [if x] and [x or y] use it. *)
Definition truthy (v : value) : bool :=
  match v with
  | VNone => false
  | VBool b => b
  | VInt n => negb (n =? 0)
  | VFloat (Finite q) => negb (Qnum q =? 0)
  | VFloat _ => true
  | VStr s => str_truthy s
  | VList l => match l with [] => false | _ => true end
  | VDict d => match d with [] => false | _ => true end
  end.

(** ** json.loads

    The decoder of the standard library ([json.decoder], [json.scanner]) with
    its default options.  Its resource limits (recursion depth, the digit limit
    of [int]) are not modelled. *)

Definition is_ws (a : ascii) : bool :=
  match nat_of_ascii a with
  | 32%nat | 9%nat | 10%nat | 13%nat => true
  | _ => false
  end.

Fixpoint skip_ws (l : list ascii) : list ascii :=
  match l with
  | a :: l' => if is_ws a then skip_ws l' else l
  | [] => []
  end.

Definition digit_val (a : ascii) : option Z :=
  let n := nat_of_ascii a in
  if ((48 <=? n) && (n <=? 57))%nat then Some (Z.of_nat n - 48) else None.

Definition hex_val (a : ascii) : option Z :=
  let n := nat_of_ascii a in
  if ((48 <=? n) && (n <=? 57))%nat then Some (Z.of_nat n - 48)
  else if ((65 <=? n) && (n <=? 70))%nat then Some (Z.of_nat n - 55)
  else if ((97 <=? n) && (n <=? 102))%nat then Some (Z.of_nat n - 87)
  else None.

(** The longest run of decimal digits, as their values. *)
Fixpoint take_digits (l : list ascii) : list Z * list ascii :=
  match l with
  | a :: l' =>
      match digit_val a with
      | Some d => let (ds, r) := take_digits l' in (d :: ds, r)
      | None => ([], l)
      end
  | [] => ([], [])
  end.

Definition digits_value (ds : list Z) : Z := fold_left (fun acc d => 10 * acc + d) ds 0.

(** The float written as [mantissa * 10^exponent]. *)
Definition decimal_float (mantissa exponent : Z) : pyfloat :=
  if 0 <=? exponent then Finite (inject_Z (mantissa * 10 ^ exponent))
  else Finite (Qred (Qmake mantissa (Z.to_pos (10 ^ (- exponent))))).

(** The parts of [NUMBER_RE]: an optional minus sign, then a zero or a run of
    digits that does not start with zero; then, optionally, a dot and at least
    one digit; then, optionally, e or E, an optional sign and at least one
    digit. *)
Definition scan_sign (l : list ascii) : bool * list ascii :=
  match l with
  | a :: r => if Ascii.eqb a "-" then (true, r) else (false, l)
  | [] => (false, l)
  end.

Definition scan_int_part (l : list ascii) : option (list Z * list ascii) :=
  match l with
  | a :: r =>
      match digit_val a with
      | Some d => if d =? 0 then Some ([0], r)
                  else let (ds, r') := take_digits r in Some (d :: ds, r')
      | None => None
      end
  | [] => None
  end.

Definition scan_frac (l : list ascii) : option (list Z) * list ascii :=
  match l with
  | a :: r =>
      if Ascii.eqb a "." then
        match take_digits r with
        | ([], _) => (None, l)
        | (fds, r') => (Some fds, r')
        end
      else (None, l)
  | [] => (None, l)
  end.

Definition scan_exp_sign (l : list ascii) : bool * list ascii :=
  match l with
  | a :: r => if Ascii.eqb a "-" then (true, r)
              else if Ascii.eqb a "+" then (false, r)
              else (false, l)
  | [] => (false, l)
  end.

Definition scan_exp (l : list ascii) : option Z * list ascii :=
  match l with
  | a :: r =>
      if (Ascii.eqb a "e" || Ascii.eqb a "E")%bool then
        let (negative, r1) := scan_exp_sign r in
        match take_digits r1 with
        | ([], _) => (None, l)
        | (eds, r') => (Some (if negative : bool then - digits_value eds
                              else digits_value eds), r')
        end
      else (None, l)
  | [] => (None, l)
  end.

(** An int when there is neither fraction nor exponent, else a float. *)
Definition number_value (negative : bool) (ids : list Z) (frac : option (list Z))
    (exp : option Z) : value :=
  let sign := if negative then -1 else 1 in
  match frac, exp with
  | None, None => VInt (sign * digits_value ids)
  | _, _ =>
      let fds := match frac with Some f => f | None => [] end in
      let e := match exp with Some e => e | None => 0 end in
      VFloat (decimal_float (sign * digits_value (ids ++ fds)) (e - Z.of_nat (length fds)))
  end.

Definition scan_number (l : list ascii) : option (value * list ascii) :=
  let (negative, l1) := scan_sign l in
  match scan_int_part l1 with
  | None => None
  | Some (ids, l2) =>
      let (frac, l3) := scan_frac l2 in
      let (exp, l4) := scan_exp l3 in
      Some (number_value negative ids frac exp, l4)
  end.

(** The rest of [l] after the literal [p], when [l] starts with it. *)
Fixpoint after_prefix (p l : list ascii) : option (list ascii) :=
  match p, l with
  | [], _ => Some l
  | a :: p', b :: l' => if Ascii.eqb a b then after_prefix p' l' else None
  | _ :: _, [] => None
  end.

(** The part of [scan_once] for values that are neither strings nor
    containers. *)
Definition scan_atom (l : list ascii) : option (value * list ascii) :=
  match after_prefix (chars "null") l with
  | Some r => Some (VNone, r)
  | None =>
  match after_prefix (chars "true") l with
  | Some r => Some (VBool true, r)
  | None =>
  match after_prefix (chars "false") l with
  | Some r => Some (VBool false, r)
  | None =>
  match scan_number l with
  | Some x => Some x
  | None =>
  match after_prefix (chars "NaN") l with
  | Some r => Some (VFloat NaN, r)
  | None =>
  match after_prefix (chars "Infinity") l with
  | Some r => Some (VFloat (Inf false), r)
  | None =>
  match after_prefix (chars "-Infinity") l with
  | Some r => Some (VFloat (Inf true), r)
  | None => None
  end end end end end end end.

(** The UTF-8 bytes of a code point (a lone surrogate takes three bytes). *)
Definition utf8 (c : Z) : list ascii :=
  let b (n : Z) := ascii_of_nat (Z.to_nat n) in
  if c <? 128 then [b c]
  else if c <? 2048 then [b (192 + c / 64); b (128 + c mod 64)]
  else if c <? 65536 then
    [b (224 + c / 4096); b (128 + (c / 64) mod 64); b (128 + c mod 64)]
  else [b (240 + c / 262144); b (128 + (c / 4096) mod 64);
        b (128 + (c / 64) mod 64); b (128 + c mod 64)].

(** The value of four hexadecimal digits. *)
Definition hex4 (a b c d : ascii) : option Z :=
  match hex_val a, hex_val b, hex_val c, hex_val d with
  | Some x, Some y, Some z, Some w => Some (4096 * x + 256 * y + 16 * z + w)
  | _, _, _, _ => None
  end.

(** The character of a one-letter escape. *)
Definition simple_escape (a : ascii) : option ascii :=
  match nat_of_ascii a with
  | 34%nat => Some DQUOTE
  | 92%nat => Some "\"%char
  | 47%nat => Some "/"%char
  | 98%nat => Some (ascii_of_nat 8)
  | 102%nat => Some (ascii_of_nat 12)
  | 110%nat => Some (ascii_of_nat 10)
  | 114%nat => Some (ascii_of_nat 13)
  | 116%nat => Some (ascii_of_nat 9)
  | _ => None
  end.

Definition is_high_surrogate (u : Z) : bool := (55296 <=? u) && (u <=? 56319).
Definition is_low_surrogate (u : Z) : bool := (56320 <=? u) && (u <=? 57343).

(** The decoded text so far, in reverse, with a high surrogate that was read
    and whose low half did not follow. *)
Definition flush_surrogate (high : option Z) (acc : list ascii) : list ascii :=
  match high with
  | Some u => (rev (utf8 u) ++ acc)%list
  | None => acc
  end.

(** [scanstring], from just after the opening quote: the decoded text and
    what follows the closing quote.  [high] is a high surrogate read by the
    last escape: a low surrogate escaped right after it makes one character
    with it, anything else leaves it alone. *)
Fixpoint scanstring_from (l : list ascii) (high : option Z) (acc : list ascii)
  : option (string * list ascii) :=
  match l with
  | [] => None
  | a :: r =>
      if Ascii.eqb a DQUOTE then Some (text (rev (flush_surrogate high acc)), r)
      else if Ascii.eqb a "\" then
        match r with
        | [] => None
        | e :: r1 =>
            if Ascii.eqb e "u" then
              match r1 with
              | h1 :: h2 :: h3 :: h4 :: r2 =>
                  match hex4 h1 h2 h3 h4 with
                  | Some u =>
                      match high with
                      | Some hi =>
                          if is_low_surrogate u then
                            scanstring_from r2 None
                              (rev (utf8 (65536 + (hi - 55296) * 1024 + (u - 56320))) ++ acc)
                          else if is_high_surrogate u then
                            scanstring_from r2 (Some u) (flush_surrogate high acc)
                          else
                            scanstring_from r2 None
                              (rev (utf8 u) ++ flush_surrogate high acc)
                      | None =>
                          if is_high_surrogate u then scanstring_from r2 (Some u) acc
                          else scanstring_from r2 None (rev (utf8 u) ++ acc)
                      end
                  | None => None
                  end
              | _ => None
              end
            else
              match simple_escape e with
              | Some c => scanstring_from r1 None (c :: flush_surrogate high acc)
              | None => None
              end
        end
      else if (nat_of_ascii a <? 32)%nat then None
      else scanstring_from r None (a :: flush_surrogate high acc)
  end.

Definition scanstring (l : list ascii) : option (string * list ascii) :=
  scanstring_from l None [].

Inductive parse_result : Type :=
| Parsed (v : value) (rest : list ascii)
| SyntaxError
| OutOfFuel.

(** What the scanner is reading: a value, the elements of an array after its
    bracket, or the members of an object from the quote of a key. *)
Inductive mode : Type :=
| Value
| Elements (acc : list value)
| Members (acc : dict).

Fixpoint parse (fuel : nat) (m : mode) (l : list ascii) : parse_result :=
  match fuel with
  | O => OutOfFuel
  | S fuel =>
      match m with
      | Value =>
          match l with
          | a :: r =>
              if Ascii.eqb a DQUOTE then
                match scanstring r with
                | Some (s, r') => Parsed (VStr s) r'
                | None => SyntaxError
                end
              else if Ascii.eqb a "{" then
                match skip_ws r with
                | b :: r' =>
                    if Ascii.eqb b "}" then Parsed (VDict []) r'
                    else if Ascii.eqb b DQUOTE then parse fuel (Members []) (b :: r')
                    else SyntaxError
                | [] => SyntaxError
                end
              else if Ascii.eqb a "[" then
                match skip_ws r with
                | b :: r' =>
                    if Ascii.eqb b "]" then Parsed (VList []) r'
                    else parse fuel (Elements []) (b :: r')
                | [] => SyntaxError
                end
              else
                match scan_atom l with
                | Some (v, r') => Parsed v r'
                | None => SyntaxError
                end
          | [] => SyntaxError
          end
      | Elements acc =>
          match parse fuel Value l with
          | Parsed v r =>
              match skip_ws r with
              | b :: r' =>
                  if Ascii.eqb b "]" then Parsed (VList (acc ++ [v])) r'
                  else if Ascii.eqb b "," then parse fuel (Elements (acc ++ [v])) (skip_ws r')
                  else SyntaxError
              | [] => SyntaxError
              end
          | e => e
          end
      | Members acc =>
          match l with
          | a :: r =>
              if Ascii.eqb a DQUOTE then
                match scanstring r with
                | Some (key, r1) =>
                    match skip_ws r1 with
                    | c :: r2 =>
                        if Ascii.eqb c ":" then
                          match parse fuel Value (skip_ws r2) with
                          | Parsed v r3 =>
                              match skip_ws r3 with
                              | b :: r4 =>
                                  if Ascii.eqb b "}" then Parsed (VDict (dict_set acc key v)) r4
                                  else if Ascii.eqb b ","
                                       then parse fuel (Members (dict_set acc key v)) (skip_ws r4)
                                       else SyntaxError
                              | [] => SyntaxError
                              end
                          | e => e
                          end
                        else SyntaxError
                    | [] => SyntaxError
                    end
                | None => SyntaxError
                end
              else SyntaxError
          | [] => SyntaxError
          end
      end
  end.

(** Fuel that [parse] never exhausts on [l] (lemma [parse_fuel_enough]). *)
Definition parse_fuel (l : list ascii) : nat := S (2 * length l).

(** [json.loads(s)]: one value between optional whitespace. *)
Definition json_loads (s : string) : pyres value :=
  let l := skip_ws (chars s) in
  match parse (parse_fuel l) Value l with
  | Parsed v r => match skip_ws r with
                  | [] => Ok v
                  | _ :: _ => Raise JSONDecodeError
                  end
  | SyntaxError => Raise JSONDecodeError
  | OutOfFuel => Raise JSONDecodeError
  end.

(** ** Database models and API models *)

Module Trip.
Record t : Type := mk {
  id : option Z;
  user_id : option string;
  origin : option string;
  destination : string;
  days : Z;
  budget_level : string;
  travelers : Z;
  travel_month : option string;
  overview : string;
  tips : string;
  estimated_total_budget : option pyfloat;
  estimated_per_person : option pyfloat;
  lat : option pyfloat;
  lng : option pyfloat;
  weather_summary : option string;
  budget_breakdown : option string
}.
Definition with_id (i : Z) (r : t) : t :=
  mk (Some i) (user_id r) (origin r) (destination r) (days r) (budget_level r)
     (travelers r) (travel_month r) (overview r) (tips r) (estimated_total_budget r)
     (estimated_per_person r) (lat r) (lng r) (weather_summary r) (budget_breakdown r).
End Trip.

Module Day.
Record t : Type := mk {
  id : option Z;
  trip_id : Z;
  day_number : Z;
  title : string;
  summary : string;
  places : string
}.
Definition with_id (i : Z) (r : t) : t :=
  mk (Some i) (trip_id r) (day_number r) (title r) (summary r) (places r).
End Day.

Module TripRequest.
Record t : Type := mk {
  origin : option string;
  destination : string;
  days : Z;
  budget_level : option string;
  travelers : option Z;
  travel_month : option string;
  preferences : option (list string);
  notes : option string;
  user_id : option string
}.
Definition with_user_id (u : option string) (r : t) : t :=
  mk (origin r) (destination r) (days r) (budget_level r) (travelers r)
     (travel_month r) (preferences r) (notes r) u.
End TripRequest.

Module DayPlan.
Record t : Type := mk {
  day : Z;
  title : string;
  summary : string;
  places : list string
}.
End DayPlan.

Module TripPlan.
Record t : Type := mk {
  id : option Z;
  destination : string;
  days : Z;
  budget_level : string;
  overview : string;
  daily_plan : list DayPlan.t;
  tips : list string;
  estimated_total_budget : option pyfloat;
  estimated_per_person : option pyfloat;
  budget_breakdown : option dict;
  lat : option pyfloat;
  lng : option pyfloat;
  weather_summary : option string;
  events : option (list dict);
  hotels : option (list dict);
  restaurants : option (list dict)
}.
Definition with_id (i : option Z) (p : t) : t :=
  mk i (destination p) (days p) (budget_level p) (overview p) (daily_plan p) (tips p)
     (estimated_total_budget p) (estimated_per_person p) (budget_breakdown p)
     (lat p) (lng p) (weather_summary p) (events p) (hotels p) (restaurants p).
End TripPlan.

Module ChatRequest.
Record t : Type := mk {
  message : string;
  history : list dict;
  user_id : option string
}.
End ChatRequest.

(** ** The world outside the handlers *)

(** The answer of [model.generate_content]: its [text] property returns the
    text or raises [ValueError] when the answer carries none. *)
Inductive Response : Type :=
| ResponseText (text : string)
| ResponseWithoutText.

Definition response_text (r : Response) : pyres string :=
  match r with
  | ResponseText t => Ok t
  | ResponseWithoutText => Raise ValueError
  end.

(** A call that leaves the process. *)
Inductive NetCall : Type :=
| GeminiCall (model prompt : string)
| SerpApiCall (params : list (string * string))
| MapboxCall (url : string)
| OpenWeatherCall (lat lng : pyfloat).

Record Env : Type := {
  GEMINI_API_KEY : option string;
  MAPBOX_ACCESS_TOKEN : option string;
  WEATHER_API_KEY : option string;
  SERPAPI_API_KEY : option string;
  GEMINI_MODEL : option string;
  (** [genai.GenerativeModel(model).generate_content(prompt)]. *)
  generate_content : string -> string -> pyres Response;
  (** [GoogleSearch(params).get_dict()], the import of [serpapi] included. *)
  serpapi_get_dict : list (string * string) -> pyres value;
  (** [requests.get], [raise_for_status] and [resp.json()] on the Mapbox and
      OpenWeather endpoints. *)
  mapbox_get_json : string -> pyres value;
  openweather_get_json : pyfloat -> pyfloat -> pyres value;
  (** Whether the [n]-th commit of the request is refused by the storage engine. *)
  commit_fails : nat -> bool;
  (** Routines of the Python runtime that are taken as given: [format(f, ".1f")],
      [float(s)] for a string, [repr(x)] and [json.dumps(x)]. *)
  float_format_1f : pyfloat -> string;
  float_of_str : string -> pyres pyfloat;
  py_repr : value -> string;
  json_dumps : dict -> string
}.

(** [if not KEY]: a variable that is unset or empty. *)
Definition configured (key : option string) : bool :=
  match key with
  | Some k => str_truthy k
  | None => false
  end.

Record Db : Type := {
  trip_rows : list Trip.t;
  day_rows : list Day.t
}.

(** An object added to the session and not yet flushed. *)
Inductive Pending : Type :=
| NewTrip (r : Trip.t)
| NewDay (r : Day.t).

Record World : Type := {
  db : Db;                  (* what is committed: what any reader sees *)
  pending : list Pending;   (* the session of the running request *)
  commits : nat;            (* commits attempted by the running request *)
  snapshots : list Db;      (* the committed states the request went through *)
  net_log : list NetCall    (* the calls made, oldest first *)
}.

(** ** Handlers as computations: state and exceptions *)

Definition M (A : Type) : Type := World -> pyres A * World.

Definition ret {A} (a : A) : M A := fun w => (Ok a, w).
Definition raise {A} (e : exn) : M A := fun w => (Raise e, w).
Definition bind {A B} (m : M A) (k : A -> M B) : M B :=
  fun w => match m w with
           | (Ok a, w') => k a w'
           | (Raise e, w') => (Raise e, w')
           end.
Definition lift {A} (r : pyres A) : M A := fun w => (r, w).

(** [try: body except Exception: handler]. *)
Definition try_except {A} (body : M A) (handler : exn -> M A) : M A :=
  fun w => match body w with
           | (Ok a, w') => (Ok a, w')
           | (Raise e, w') => handler e w'
           end.

(** [try: body except json.JSONDecodeError: handler]. *)
Definition try_except_JSONDecodeError {A} (body : M A) (handler : M A) : M A :=
  fun w => match body w with
           | (Ok a, w') => (Ok a, w')
           | (Raise e, w') => if is_JSONDecodeError e then handler w' else (Raise e, w')
           end.

Declare Scope py_scope.
Delimit Scope py_scope with py.
Notation "x <- m ;; k" := (bind m (fun x => k))
  (at level 61, m at next level, right associativity) : py_scope.
Notation "m ;; k" := (bind m (fun _ => k))
  (at level 61, right associativity) : py_scope.
Notation "' pat <- m ;; k" := (bind m (fun x => match x with pat => k end))
  (at level 61, pat pattern, m at next level, right associativity) : py_scope.

(** The same for code that touches no state. *)
Definition pbind {A B} (r : pyres A) (k : A -> pyres B) : pyres B :=
  match r with
  | Ok a => k a
  | Raise e => Raise e
  end.

Declare Scope pyres_scope.
Delimit Scope pyres_scope with pyres.
Notation "x <- m ;; k" := (pbind m (fun x => k))
  (at level 61, m at next level, right associativity) : pyres_scope.

Fixpoint pmap {A B} (f : A -> pyres B) (l : list A) : pyres (list B) :=
  match l with
  | [] => Ok []
  | a :: l' => (b <- f a ;; bs <- pmap f l' ;; Ok (b :: bs))%pyres
  end.

Definition log_call (c : NetCall) : M unit :=
  fun w => (Ok tt, {| db := db w; pending := pending w; commits := commits w;
                      snapshots := snapshots w; net_log := net_log w ++ [c] |}).

(** ** The session *)

(** The key the engine gives a new row: one more than the largest in use. *)
Definition next_id (ids : list (option Z)) : Z :=
  1 + fold_right (fun i m => match i with Some i => Z.max i m | None => m end) 0 ids.

Definition insert_row (d : Db) (o : Pending) : Db * Z :=
  match o with
  | NewTrip r =>
      let i := next_id (map Trip.id (trip_rows d)) in
      ({| trip_rows := trip_rows d ++ [Trip.with_id i r]; day_rows := day_rows d |}, i)
  | NewDay r =>
      let i := next_id (map Day.id (day_rows d)) in
      ({| trip_rows := trip_rows d; day_rows := day_rows d ++ [Day.with_id i r] |}, i)
  end.

Fixpoint flush (d : Db) (os : list Pending) : Db * list Z :=
  match os with
  | [] => (d, [])
  | o :: os' =>
      let (d1, i) := insert_row d o in
      let (d2, ids) := flush d1 os' in
      (d2, i :: ids)
  end.

(** [session.add(obj)]. *)
Definition session_add (o : Pending) : M unit :=
  fun w => (Ok tt, {| db := db w; pending := pending w ++ [o]; commits := commits w;
                      snapshots := snapshots w; net_log := net_log w |}).

(** [session.commit()]: the pending rows are written in one transaction, or
    none is.  The keys given to the rows are returned, in the order the rows
    were added. *)
Definition session_commit (env : Env) : M (list Z) :=
  fun w =>
    if commit_fails env (commits w) then
      (Raise OperationalError,
       {| db := db w; pending := []; commits := S (commits w);
          snapshots := snapshots w; net_log := net_log w |})
    else
      let (d, ids) := flush (db w) (pending w) in
      (Ok ids,
       {| db := d; pending := []; commits := S (commits w);
          snapshots := snapshots w ++ [d]; net_log := net_log w |}).

(** [session.get(Trip, trip_id)]. *)
Definition session_get_trip (trip_id : Z) : M (option Trip.t) :=
  fun w => (Ok (find (fun r => match Trip.id r with
                               | Some i => i =? trip_id
                               | None => false
                               end) (trip_rows (db w))), w).

(** [session.refresh(db_trip)] after the commit that wrote it: the object
    carries the key of its row. *)
Definition session_refresh (ids : list Z) : M Z :=
  match ids with
  | [i] => ret i
  | _ => raise OperationalError
  end.

Fixpoint insert_by_day_number (d : Day.t) (l : list Day.t) : list Day.t :=
  match l with
  | [] => [d]
  | d' :: l' => if Day.day_number d <=? Day.day_number d' then d :: l
                else d' :: insert_by_day_number d l'
  end.

(** [ORDER BY day_number]; rows with the same number keep the order of their
    insertion. *)
Definition order_by_day_number (l : list Day.t) : list Day.t :=
  fold_right insert_by_day_number [] l.

(** [select(Day).where(Day.trip_id == trip_id)]. *)
Definition select_days (trip_id : Z) : M (list Day.t) :=
  fun w => (Ok (filter (fun r => Day.trip_id r =? trip_id) (day_rows (db w))), w).

(** [get_session]: a request works in a session of its own, closed when the
    request ends. *)
Definition with_session {A} (handler : M A) : M A :=
  fun w =>
    let (r, w') := handler {| db := db w; pending := []; commits := 0;
                              snapshots := []; net_log := net_log w |} in
    (r, {| db := db w'; pending := []; commits := commits w';
           snapshots := snapshots w'; net_log := net_log w' |}).

(** ** Operations on values, with the exceptions Python raises *)

Local Open Scope pyres_scope.

(** The characters of a text: each byte that starts a character, with the
    continuation bytes that follow it. *)
Fixpoint utf8_chars (l : list ascii) : list (list ascii) :=
  match l with
  | [] => []
  | a :: l' =>
      let rest := utf8_chars l' in
      match hd_error l', rest with
      | Some b, c :: cs => if is_continuation b then (a :: c) :: cs else [a] :: rest
      | _, _ => [a] :: rest
      end
  end.

(** [x.get(k, default)]: only a dict has the method. *)
Definition py_get (x : value) (k : string) (default : value) : pyres value :=
  match x with
  | VDict d => Ok (match dict_get d k with Some v => v | None => default end)
  | _ => Raise AttributeError
  end.

(** [x[i]] for a literal index [i >= 0]. *)
Definition py_index (x : value) (i : nat) : pyres value :=
  match x with
  | VList l => match nth_error l i with Some v => Ok v | None => Raise IndexError end
  | VStr s => match nth_error (utf8_chars (chars s)) i with
              | Some c => Ok (VStr (text c))
              | None => Raise IndexError
              end
  | VDict _ => Raise KeyError
  | _ => Raise TypeError
  end.

(** [x[:n]]. *)
Definition py_slice_to (x : value) (n : nat) : pyres value :=
  match x with
  | VList l => Ok (VList (firstn n l))
  | VStr s => Ok (VStr (text (concat (firstn n (utf8_chars (chars s))))))
  | _ => Raise TypeError
  end.

(** The items a [for] loop goes through. *)
Definition py_iter (x : value) : pyres (list value) :=
  match x with
  | VList l => Ok l
  | VStr s => Ok (map (fun c => VStr (text c)) (utf8_chars (chars s)))
  | VDict d => Ok (map (fun kv => VStr (fst kv)) d)
  | _ => Raise TypeError
  end.

(** [len(x)]. *)
Definition py_len (x : value) : pyres Z :=
  match x with
  | VList l => Ok (Z.of_nat (length l))
  | VStr s => Ok (Z.of_nat (length (utf8_chars (chars s))))
  | VDict d => Ok (Z.of_nat (length d))
  | _ => Raise TypeError
  end.

(** [x or y]. *)
Definition py_or (x y : value) : value := if truthy x then x else y.

Definition float_of_bool (b : bool) : pyfloat := float_of_int (if b then 1 else 0).

(** [float(x)]. *)
Definition py_float (env : Env) (x : value) : pyres pyfloat :=
  match x with
  | VInt n => Ok (float_of_int n)
  | VFloat f => Ok f
  | VBool b => Ok (float_of_bool b)
  | VStr s => float_of_str env s
  | _ => Raise TypeError
  end.

(** [str(x)], as an f-string field without a format uses it. *)
Definition py_str (env : Env) (x : value) : string :=
  match x with
  | VStr s => s
  | _ => py_repr env x
  end.

(** The f-string field [{x:.1f}]. *)
Definition format_1f (env : Env) (x : value) : pyres string :=
  match x with
  | VInt n => Ok (float_format_1f env (float_of_int n))
  | VFloat f => Ok (float_format_1f env f)
  | VBool b => Ok (float_format_1f env (float_of_bool b))
  | VStr _ => Raise ValueError
  | _ => Raise TypeError
  end.

Definition is_none (x : value) : bool :=
  match x with VNone => true | _ => false end.

Definition value_of_opt_str (s : option string) : value :=
  match s with Some s => VStr s | None => VNone end.
Definition value_of_opt_float (f : option pyfloat) : value :=
  match f with Some f => VFloat f | None => VNone end.

(** [x == s] for a string literal [s]. *)
Definition eq_str (x : value) (s : string) : bool :=
  match x with VStr s' => String.eqb s' s | _ => false end.

(** ** Validation of the API models

    A pydantic model built from values checks each field against its
    annotation.  The model here accepts a value of the annotated type (and an
    int where a float is asked) and answers [ValidationError] otherwise;
    unknown keys are ignored and an absent optional field takes its default.
    pydantic's conversions between types are not modelled. *)

Definition field_str (d : dict) (k : string) : pyres string :=
  match dict_get d k with
  | Some (VStr s) => Ok s
  | _ => Raise ValidationError
  end.

Definition field_int (d : dict) (k : string) : pyres Z :=
  match dict_get d k with
  | Some (VInt n) => Ok n
  | _ => Raise ValidationError
  end.

Definition field_opt_str (d : dict) (k : string) (default : option string)
  : pyres (option string) :=
  match dict_get d k with
  | None => Ok default
  | Some VNone => Ok None
  | Some (VStr s) => Ok (Some s)
  | Some _ => Raise ValidationError
  end.

Definition field_opt_int (d : dict) (k : string) (default : option Z) : pyres (option Z) :=
  match dict_get d k with
  | None => Ok default
  | Some VNone => Ok None
  | Some (VInt n) => Ok (Some n)
  | Some _ => Raise ValidationError
  end.

Definition field_opt_float (d : dict) (k : string) : pyres (option pyfloat) :=
  match dict_get d k with
  | None | Some VNone => Ok None
  | Some (VFloat f) => Ok (Some f)
  | Some (VInt n) => Ok (Some (float_of_int n))
  | Some _ => Raise ValidationError
  end.

Definition as_str (x : value) : pyres string :=
  match x with VStr s => Ok s | _ => Raise ValidationError end.
Definition as_dict (x : value) : pyres dict :=
  match x with VDict d => Ok d | _ => Raise ValidationError end.

Definition field_list_str (d : dict) (k : string) : pyres (list string) :=
  match dict_get d k with
  | Some (VList l) => pmap as_str l
  | _ => Raise ValidationError
  end.

Definition field_opt_dict (d : dict) (k : string) : pyres (option dict) :=
  match dict_get d k with
  | None | Some VNone => Ok None
  | Some (VDict x) => Ok (Some x)
  | Some _ => Raise ValidationError
  end.

Definition field_opt_list_dict (d : dict) (k : string) : pyres (option (list dict)) :=
  match dict_get d k with
  | None | Some VNone => Ok None
  | Some (VList l) => ds <- pmap as_dict l ;; Ok (Some ds)
  | Some _ => Raise ValidationError
  end.

(** A [DayPlan] built from the entries of a dict. *)
Definition validate_DayPlan (x : value) : pyres DayPlan.t :=
  d <- as_dict x ;;
  day <- field_int d "day" ;;
  title <- field_str d "title" ;;
  summary <- field_str d "summary" ;;
  places <- field_list_str d "places" ;;
  Ok (DayPlan.mk day title summary places).

Definition field_list_DayPlan (d : dict) (k : string) : pyres (list DayPlan.t) :=
  match dict_get d k with
  | Some (VList l) => pmap validate_DayPlan l
  | _ => Raise ValidationError
  end.

(** A [TripPlan] built from the entries of [data], as the handlers do after
    decoding the generative text. *)
Definition validate_TripPlan (data : dict) : pyres TripPlan.t :=
  id <- field_opt_int data "id" None ;;
  destination <- field_str data "destination" ;;
  days <- field_int data "days" ;;
  budget_level <- field_str data "budget_level" ;;
  overview <- field_str data "overview" ;;
  daily_plan <- field_list_DayPlan data "daily_plan" ;;
  tips <- field_list_str data "tips" ;;
  estimated_total_budget <- field_opt_float data "estimated_total_budget" ;;
  estimated_per_person <- field_opt_float data "estimated_per_person" ;;
  budget_breakdown <- field_opt_dict data "budget_breakdown" ;;
  lat <- field_opt_float data "lat" ;;
  lng <- field_opt_float data "lng" ;;
  weather_summary <- field_opt_str data "weather_summary" None ;;
  events <- field_opt_list_dict data "events" ;;
  hotels <- field_opt_list_dict data "hotels" ;;
  restaurants <- field_opt_list_dict data "restaurants" ;;
  Ok (TripPlan.mk id destination days budget_level overview daily_plan tips
        estimated_total_budget estimated_per_person budget_breakdown lat lng
        weather_summary events hotels restaurants).

Local Close Scope pyres_scope.

(** ** Provider adapters *)

Local Open Scope py_scope.

Definition key_text (key : option string) : string :=
  match key with Some k => k | None => "" end.

(** One entry of the list [fetch_google_events] returns. *)
Definition event_entry (event : value) : pyres value :=
  (title <- py_get event "title" (VStr "") ;;
   date <- py_get event "date" (VDict []) ;;
   when <- py_get date "when" (VStr "") ;;
   has_address <- py_get event "address" VNone ;;
   address <- (if truthy has_address
               then (a <- py_get event "address" (VList [VStr ""]) ;; py_index a 0)
               else Ok (VStr "")) ;;
   link <- py_get event "link" (VStr "") ;;
   thumbnail <- py_get event "thumbnail" (VStr "") ;;
   Ok (VDict [("title", title); ("date", when); ("address", address);
              ("link", link); ("thumbnail", thumbnail)]))%pyres.

(** What [fetch_google_events] makes of the answer: the top five. *)
Definition google_events_result (results : value) : pyres (list value) :=
  (events_results <- py_get results "events_results" (VList []) ;;
   top <- py_slice_to events_results 5 ;;
   items <- py_iter top ;;
   pmap event_entry items)%pyres.

Definition events_params (env : Env) (destination : string) : list (string * string) :=
  [("engine", "google_events"); ("q", "Events in " ++ destination);
   ("api_key", key_text (SERPAPI_API_KEY env)); ("hl", "en")].

Definition fetch_google_events (env : Env) (destination : string)
    (lat lng : option pyfloat) : M (list value) :=
  if negb (configured (SERPAPI_API_KEY env)) then ret []
  else
    try_except
      (let params := events_params env destination in
       log_call (SerpApiCall params) ;;
       results <- lift (serpapi_get_dict env params) ;;
       lift (google_events_result results))
      (fun _ => ret []).

(** One entry of the list [fetch_hotels] returns. *)
Definition hotel_entry (prop : value) : pyres value :=
  (name <- py_get prop "name" (VStr "") ;;
   rating <- py_get prop "overall_rating" (VInt 0) ;;
   rate <- py_get prop "rate_per_night" (VDict []) ;;
   price <- py_get rate "extracted_lowest" (VStr "N/A") ;;
   has_images <- py_get prop "images" VNone ;;
   image <- (if truthy has_images
             then (imgs <- py_get prop "images" (VList [VDict []]) ;;
                   first <- py_index imgs 0 ;;
                   py_get first "thumbnail" (VStr ""))
             else Ok (VStr "")) ;;
   link <- py_get prop "link" (VStr "") ;;
   description <- py_get prop "description" (VStr "") ;;
   Ok (VDict [("name", name); ("rating", rating); ("price", price); ("image", image);
              ("link", link); ("description", description)]))%pyres.

(** What [fetch_hotels] makes of the answer: the top six. *)
Definition hotels_result (results : value) : pyres (list value) :=
  (properties <- py_get results "properties" (VList []) ;;
   top <- py_slice_to properties 6 ;;
   items <- py_iter top ;;
   pmap hotel_entry items)%pyres.

Definition hotels_params (env : Env) (destination : string)
    (check_in check_out : option string) : list (string * string) :=
  let params :=
    [("engine", "google_hotels"); ("q", "Hotels in " ++ destination);
     ("api_key", key_text (SERPAPI_API_KEY env)); ("hl", "en"); ("currency", "INR")] in
  let params := if configured check_in
                then dict_set params "check_in_date" (key_text check_in) else params in
  if configured check_out
  then dict_set params "check_out_date" (key_text check_out) else params.

Definition fetch_hotels (env : Env) (destination : string)
    (check_in check_out : option string) : M (list value) :=
  if negb (configured (SERPAPI_API_KEY env)) then ret []
  else
    try_except
      (let params := hotels_params env destination check_in check_out in
       log_call (SerpApiCall params) ;;
       results <- lift (serpapi_get_dict env params) ;;
       lift (hotels_result results))
      (fun _ => ret []).

(** One entry of the list [fetch_restaurants] returns. *)
Definition restaurant_entry (place : value) : pyres value :=
  (name <- py_get place "title" (VStr "") ;;
   rating <- py_get place "rating" (VInt 0) ;;
   reviews <- py_get place "reviews" (VInt 0) ;;
   price <- py_get place "price" (VStr "") ;;
   type <- py_get place "type" (VStr "Restaurant") ;;
   address <- py_get place "address" (VStr "") ;;
   thumbnail <- py_get place "thumbnail" (VStr "") ;;
   link <- py_get place "link" (VStr "") ;;
   Ok (VDict [("name", name); ("rating", rating); ("reviews", reviews); ("price", price);
              ("type", type); ("address", address); ("thumbnail", thumbnail);
              ("link", link)]))%pyres.

(** What [fetch_restaurants] makes of the answer: the top eight. *)
Definition restaurants_result (results : value) : pyres (list value) :=
  (local_results <- py_get results "local_results" (VList []) ;;
   top <- py_slice_to local_results 8 ;;
   items <- py_iter top ;;
   pmap restaurant_entry items)%pyres.

Definition restaurants_params (env : Env) (destination : string) : list (string * string) :=
  [("engine", "google_maps");
   ("q", "restaurants and street food in " ++ destination);
   ("type", "search"); ("api_key", key_text (SERPAPI_API_KEY env)); ("hl", "en")].

Definition fetch_restaurants (env : Env) (destination : string) : M (list value) :=
  if negb (configured (SERPAPI_API_KEY env)) then ret []
  else
    try_except
      (let params := restaurants_params env destination in
       log_call (SerpApiCall params) ;;
       results <- lift (serpapi_get_dict env params) ;;
       lift (restaurants_result results))
      (fun _ => ret []).

(** What [geocode_destination] makes of the decoded answer; Mapbox gives
    [lng, lat]. *)
Definition geocode_result (env : Env) (data : value)
  : pyres (option pyfloat * option pyfloat) :=
  (features <- py_get data "features" VNone ;;
   let features := py_or features (VList []) in
   if truthy features then
     first <- py_index features 0 ;;
     center <- py_get first "center" VNone ;;
     let coords := py_or center (VList []) in
     n <- py_len coords ;;
     if n =? 2 then
       c1 <- py_index coords 1 ;;
       lat <- py_float env c1 ;;
       c0 <- py_index coords 0 ;;
       lng <- py_float env c0 ;;
       Ok (Some lat, Some lng)
     else Ok (None, None)
   else Ok (None, None))%pyres.

Definition mapbox_url (destination : string) : string :=
  "https://api.mapbox.com/geocoding/v5/mapbox.places/" ++ destination ++ ".json".

Definition geocode_destination (env : Env) (destination : string)
  : M (option pyfloat * option pyfloat) :=
  if negb (configured (MAPBOX_ACCESS_TOKEN env)) then ret (None, None)
  else
    try_except
      (let url := mapbox_url destination in
       log_call (MapboxCall url) ;;
       data <- lift (mapbox_get_json env url) ;;
       lift (geocode_result env data))
      (fun _ => ret (None, None)).

(** What [fetch_weather] makes of the decoded answer. *)
Definition weather_result (env : Env) (data : value) : pyres (option string) :=
  (weather <- py_get data "weather" (VList [VDict []]) ;;
   first <- py_index weather 0 ;;
   main <- py_get first "description" (VStr "") ;;
   m <- py_get data "main" (VDict []) ;;
   temp <- py_get m "temp" VNone ;;
   m' <- py_get data "main" (VDict []) ;;
   feels <- py_get m' "feels_like" VNone ;;
   if negb (is_none temp) && negb (is_none feels) then
     t <- format_1f env temp ;;
     f <- format_1f env feels ;;
     Ok (Some ("Current weather: " ++ py_str env main ++ ", " ++ t
               ++ "°C (feels like " ++ f ++ "°C)"))
   else if truthy main then Ok (Some ("Current weather: " ++ py_str env main))
   else Ok None)%pyres.

Definition fetch_weather (env : Env) (lat lng : option pyfloat) : M (option string) :=
  match configured (WEATHER_API_KEY env), lat, lng with
  | true, Some lat, Some lng =>
      try_except
        (log_call (OpenWeatherCall lat lng) ;;
         data <- lift (openweather_get_json env lat lng) ;;
         lift (weather_result env data))
        (fun _ => ret None)
  | _, _, _ => ret None
  end.

(** ** Prompts *)

(** A Rocq string cannot hold a double quote without doubling it: [lit s] is
    [s] with every backquote read as a double quote.  The prompts contain no
    backquote of their own. *)
Definition lit (s : string) : string :=
  text (map (fun a => if Ascii.eqb a "`" then DQUOTE else a) (chars s)).

(** [x or default] for an optional text. *)
Definition str_or (x : option string) (default : string) : string :=
  match x with
  | Some s => if str_truthy s then s else default
  | None => default
  end.

(** [x or default] for an optional int. *)
Definition int_or (x : option Z) (default : Z) : Z :=
  match x with
  | Some n => if n =? 0 then default else n
  | None => default
  end.

(** An f-string field holding an optional text or int. *)
Definition fmt_opt_str (x : option string) : string :=
  match x with Some s => s | None => "None" end.
Definition fmt_opt_int (x : option Z) : string :=
  match x with Some n => str_of_int n | None => "None" end.

Definition build_prompt (payload : TripRequest.t) : string :=
  let prefs := match TripRequest.preferences payload with
               | Some (p :: ps) => str_join ", " (p :: ps)
               | _ => "general sightseeing"
               end in
  let days := str_of_int (TripRequest.days payload) in
  lit "
You are an expert travel planner.
Create a highly personalized, day-wise trip itinerary in JSON only (no extra text).

User details:
- Origin: " ++ str_or (TripRequest.origin payload) "Not specified" ++ lit "
- Destination: " ++ TripRequest.destination payload ++ lit "
- Days: " ++ days ++ lit "
- Budget level: " ++ fmt_opt_str (TripRequest.budget_level payload) ++ lit "
- Number of travelers: " ++ fmt_opt_int (TripRequest.travelers payload) ++ lit "
- Travel month/season: " ++ str_or (TripRequest.travel_month payload) "Not specified" ++ lit "
- Preferences: " ++ prefs ++ lit "
- Extra notes: " ++ str_or (TripRequest.notes payload) "None" ++ lit "

Return JSON with this exact structure:
{
  `destination`: `...`,
  `days`: " ++ days ++ lit ",
  `budget_level`: `" ++ fmt_opt_str (TripRequest.budget_level payload) ++ lit "`,
  `overview`: `High-level summary of the trip tailored to the user.`,
  `daily_plan`: [
    {
      `day`: 1,
      `title`: `Short title`,
      `summary`: `1-2 sentence summary of the day.`,
      `places`: [`Place 1`, `Place 2`, `Place 3`]
    }
  ],
  `budget_breakdown`: {
      `accommodation`: `Numerical value (INR)`,
      `transport`: `Numerical value (INR) (Include travel from "
  ++ str_or (TripRequest.origin payload) "Origin" ++ " to "
  ++ TripRequest.destination payload ++ lit ")`,
      `food`: `Numerical value (INR)`,
      `activities`: `Numerical value (INR)`,
      `total`: `Sum of above`
  },
  `tips`: [
    `Travel / packing / safety / budget optimization tips tailored to this trip`
  ]
}
Ensure there are exactly " ++ days ++ lit " entries in `daily_plan`.
".

(** [os.getenv("GEMINI_MODEL", "gemini-3-flash-preview")]. *)
Definition model_name (env : Env) : string :=
  match GEMINI_MODEL env with
  | Some m => m
  | None => "gemini-3-flash-preview"
  end.

(** [l[-n:]]. *)
Definition last_n {A} (n : nat) (l : list A) : list A := skipn (length l - n) l.

(** The lines [analyze_chat_intent] makes of the last five turns and the new
    message. *)
Definition conversation_text (env : Env) (message : string) (history : list dict) : string :=
  fold_left
    (fun acc msg =>
       let role := match dict_get msg "role" with
                   | Some r => if eq_str r "user" then "User" else "Assistant"
                   | None => "Assistant"
                   end in
       let content := match dict_get msg "content" with
                      | Some c => py_str env c
                      | None => "None"
                      end in
       acc ++ role ++ ": " ++ content ++ newline)
    (last_n 5 history) ""
  ++ "User: " ++ message ++ newline.

Definition chat_prompt (conversation : string) : string :=
  lit "
    You are a helpful AI travel assistant. Analyze the conversation below.
    Your goal is to gather these 5 pieces of information to plan a perfect trip:
    1. Origin (Where are they traveling from?)
    2. Destination (Where do they want to go?)
    3. Number of Days
    4. Number of Travelers
    5. Budget Level (low, medium, high)

    Conversation:
    " ++ conversation ++ lit "

    Instructions:
    - You must gather ALL 5 pieces of information.
    - Do NOT assume defaults for Origin, Travelers, or Budget. You must ask the user for these.
    - Defaults: You MAY assume `3 days` if the user doesn't specify duration but gives everything else.
    - If any information is missing, ask a natural, friendly follow-up question to get it. Group questions if multiple things are missing.
    - JSON Output Format:
      - If you need more info: { `action`: `continue`, `response`: `Your natural language response asking for the missing details.` }
      - If you have enough info to plan: { `action`: `plan_ready`, `params`: { `origin`: `...`, `destination`: `...`, `days`: N, `travelers`: N, `budget_level`: `...` } }
" ++ "    " ++ newline ++ "    Return ONLY VALID JSON." ++ newline ++ "    ".

(** ** Trip Plan Orchestrator: [plan_trip] *)

(** [range(n)]. *)
Definition py_range (n : Z) : list Z := map Z.of_nat (seq 0 (Z.to_nat n)).

(** [for x in l: body(x)]. *)
Fixpoint for_each {A} (l : list A) (body : A -> M unit) : M unit :=
  match l with
  | [] => ret tt
  | x :: l' => body x ;; for_each l' body
  end.

Definition dummy_overview : string :=
  "Demo itinerary because the AI trip planner is not fully configured. "
  ++ "Set GEMINI_API_KEY / GEMINI_MODEL for real AI planning.".

Definition dummy_tips : list string :=
  [ "Set GEMINI_API_KEY in your backend environment.";
    "Optionally set GEMINI_MODEL (e.g. gemini-3-flash-preview).";
    "Restart the FastAPI server after setting the vars." ].

Definition dummy_daily_plan (request : TripRequest.t) : list DayPlan.t :=
  map (fun i =>
         DayPlan.mk (i + 1)
           ("Day " ++ str_of_int (i + 1) ++ " in " ++ TripRequest.destination request)
           "Sample summary. Configure GEMINI_API_KEY for real AI planning."
           (map (fun j => "Sample place " ++ str_of_int (j + 1)) (py_range 3)))
      (py_range (TripRequest.days request)).

(** The row of a [DayPlan]. *)
Definition day_row (trip_id : Z) (d : DayPlan.t) : Day.t :=
  Day.mk None trip_id (DayPlan.day d) (DayPlan.title d) (DayPlan.summary d)
         (str_join newline (DayPlan.places d)).

(** The fallback itinerary, built and persisted. *)
Definition create_and_save_dummy_trip (env : Env) (request : TripRequest.t) : M TripPlan.t :=
  '(total, per_person) <-
     lift (estimate_budget (TripRequest.days request)
             (int_or (TripRequest.travelers request) 1)
             (Some (str_or (TripRequest.budget_level request) "medium"))) ;;
  '(lat, lng) <- geocode_destination env (TripRequest.destination request) ;;
  weather <- fetch_weather env lat lng ;;
  let dummy :=
    TripPlan.mk None (TripRequest.destination request) (TripRequest.days request)
      (str_or (TripRequest.budget_level request) "medium")
      dummy_overview (dummy_daily_plan request) dummy_tips
      (Some total) (Some per_person) None lat lng weather None None None in
  let db_trip :=
    Trip.mk None (TripRequest.user_id request) (TripRequest.origin request)
      (TripPlan.destination dummy) (TripPlan.days dummy) (TripPlan.budget_level dummy)
      (int_or (TripRequest.travelers request) 1) (TripRequest.travel_month request)
      (TripPlan.overview dummy) (str_join newline (TripPlan.tips dummy))
      (Some total) (Some per_person) lat lng weather None in
  session_add (NewTrip db_trip) ;;
  ids <- session_commit env ;;
  trip_id <- session_refresh ids ;;
  for_each (TripPlan.daily_plan dummy)
    (fun d => session_add (NewDay (day_row trip_id d))) ;;
  session_commit env ;;
  ret (TripPlan.with_id (Some trip_id) dummy).

(** The extraction of the itinerary from the generative text: a direct decode,
    then the text from the first opening brace to the last closing one. *)
Definition decode_generated (txt : string) : pyres value :=
  match json_loads txt with
  | Ok data => Ok data
  | Raise e =>
      if is_JSONDecodeError e then
        let start := str_find txt "{" in
        let end_ := str_rfind txt "}" in
        if negb (start =? -1) && negb (end_ =? -1) && (end_ >? start)
        then json_loads (str_slice txt start (end_ + 1))
        else Raise e
      else Raise e
  end.

(** [data.setdefault], [data[...] = ...]: only a dict has them. *)
Definition as_mutable_dict (data : value) : pyres dict :=
  match data with
  | VDict d => Ok d
  | _ => Raise AttributeError
  end.

Definition dict_truthy (d : option dict) : bool :=
  match d with
  | Some (_ :: _) => true
  | _ => false
  end.

Definition plan_trip (env : Env) (request : TripRequest.t) (current_user : string)
  : M TripPlan.t :=
  with_session
    (let request := TripRequest.with_user_id (Some current_user) request in
     if negb (configured (GEMINI_API_KEY env)) then create_and_save_dummy_trip env request
     else
       generated <- try_except
                      (let prompt := build_prompt request in
                       log_call (GeminiCall (model_name env) prompt) ;;
                       response <- lift (generate_content env (model_name env) prompt) ;;
                       ret (Some response))
                      (fun _ => ret None) ;;
       match generated with
       | None => create_and_save_dummy_trip env request
       | Some response =>
           txt <- lift (response_text response) ;;
           let txt := if str_truthy txt then txt else "{}" in
           data <- lift (decode_generated txt) ;;
           '(total, per_person) <-
              lift (estimate_budget (TripRequest.days request)
                      (int_or (TripRequest.travelers request) 1)
                      (Some (str_or (TripRequest.budget_level request) "medium"))) ;;
           '(lat, lng) <- geocode_destination env (TripRequest.destination request) ;;
           weather <- fetch_weather env lat lng ;;
           events <- fetch_google_events env (TripRequest.destination request) lat lng ;;
           hotels <- fetch_hotels env (TripRequest.destination request) None None ;;
           restaurants <- fetch_restaurants env (TripRequest.destination request) ;;
           data <- lift (as_mutable_dict data) ;;
           let data := dict_setdefault data "budget_level"
                         (VStr (str_or (TripRequest.budget_level request) "medium")) in
           let data := dict_set data "estimated_total_budget" (VFloat total) in
           let data := dict_set data "estimated_per_person" (VFloat per_person) in
           let data := dict_set data "lat" (value_of_opt_float lat) in
           let data := dict_set data "lng" (value_of_opt_float lng) in
           let data := dict_set data "weather_summary" (value_of_opt_str weather) in
           let data := dict_set data "events" (VList events) in
           let data := dict_set data "hotels" (VList hotels) in
           let data := dict_set data "restaurants" (VList restaurants) in
           trip_plan <- lift (validate_TripPlan data) ;;
           let db_trip :=
             Trip.mk None (TripRequest.user_id request) (TripRequest.origin request)
               (TripPlan.destination trip_plan) (TripPlan.days trip_plan)
               (TripPlan.budget_level trip_plan)
               (int_or (TripRequest.travelers request) 1)
               (TripRequest.travel_month request)
               (TripPlan.overview trip_plan) (str_join newline (TripPlan.tips trip_plan))
               (TripPlan.estimated_total_budget trip_plan)
               (TripPlan.estimated_per_person trip_plan)
               (TripPlan.lat trip_plan) (TripPlan.lng trip_plan)
               (TripPlan.weather_summary trip_plan)
               (if dict_truthy (TripPlan.budget_breakdown trip_plan)
                then option_map (json_dumps env) (TripPlan.budget_breakdown trip_plan)
                else None) in
           session_add (NewTrip db_trip) ;;
           ids <- session_commit env ;;
           trip_id <- session_refresh ids ;;
           for_each (TripPlan.daily_plan trip_plan)
             (fun d => session_add (NewDay (day_row trip_id d))) ;;
           session_commit env ;;
           ret (TripPlan.with_id (Some trip_id) trip_plan)
       end).

(** ** Persistence Mapper: [get_trip] and [delete_trip] *)

Definition opt_str_eqb (a : option string) (b : string) : bool :=
  match a with Some a => String.eqb a b | None => false end.

Definition opt_str_truthy (a : option string) : bool := configured a.

(** The module never imports [json]: the three handlers that use it import it
    locally.  In [get_trip] the name is unbound, and evaluating
    [json.loads(trip.budget_breakdown)] raises [NameError]. *)
Definition get_trip (env : Env) (trip_id : Z) (current_user : string) : M TripPlan.t :=
  with_session
    (trip <- session_get_trip trip_id ;;
     match trip with
     | None => raise (HTTPException 404)
     | Some trip =>
         if negb (opt_str_eqb (Trip.user_id trip) current_user)
         then raise (HTTPException 404)
         else
           days <- select_days trip_id ;;
           let days := order_by_day_number days in
           let daily_plan :=
             map (fun d => DayPlan.mk (Day.day_number d) (Day.title d) (Day.summary d)
                             (if str_truthy (Day.places d)
                              then str_split (Day.places d) LF else []))
                 days in
           let tips := if str_truthy (Trip.tips trip)
                       then str_split (Trip.tips trip) LF else [] in
           budget_breakdown <- (if opt_str_truthy (Trip.budget_breakdown trip)
                                then raise NameError else ret None) ;;
           ret (TripPlan.mk (Trip.id trip) (Trip.destination trip) (Trip.days trip)
                  (Trip.budget_level trip) (Trip.overview trip) daily_plan tips
                  (Trip.estimated_total_budget trip) (Trip.estimated_per_person trip)
                  budget_breakdown (Trip.lat trip) (Trip.lng trip)
                  (Trip.weather_summary trip) None None None)
     end).

(** [session.delete] of the day rows and of the trip row, then one commit. *)
Definition delete_rows (env : Env) (trip_id : Z) : M unit :=
  fun w =>
    if commit_fails env (commits w) then
      (Raise OperationalError,
       {| db := db w; pending := []; commits := S (commits w);
          snapshots := snapshots w; net_log := net_log w |})
    else
      let d := {| trip_rows := filter (fun r => negb (match Trip.id r with
                                                      | Some i => i =? trip_id
                                                      | None => false
                                                      end)) (trip_rows (db w));
                  day_rows := filter (fun r => negb (Day.trip_id r =? trip_id))
                                     (day_rows (db w)) |} in
      (Ok tt, {| db := d; pending := []; commits := S (commits w);
                 snapshots := snapshots w ++ [d]; net_log := net_log w |}).

Definition delete_trip (env : Env) (trip_id : Z) (current_user : string) : M Z :=
  with_session
    (trip <- session_get_trip trip_id ;;
     match trip with
     | None => raise (HTTPException 404)
     | Some trip =>
         if negb (opt_str_eqb (Trip.user_id trip) current_user)
         then raise (HTTPException 404)
         else delete_rows env trip_id ;; ret trip_id
     end).

(** ** Conversational Intent Resolver: [analyze_chat_intent] *)

Definition chat_fallback : value :=
  VDict [("action", VStr "continue");
         ("response", VStr "I'm having trouble understanding. Could you please clarify where you want to go?")].

Definition analyze_chat_intent (env : Env) (message : string) (history : list dict)
  : M value :=
  if negb (configured (GEMINI_API_KEY env))
  then ret (VDict [("action", VStr "error"); ("response", VStr "AI not configured.")])
  else
    let prompt := chat_prompt (conversation_text env message history) in
    try_except
      (log_call (GeminiCall (model_name env) prompt) ;;
       response <- lift (generate_content env (model_name env) prompt) ;;
       txt <- lift (response_text response) ;;
       let txt := if str_startswith txt "```json" then str_drop 7 txt else txt in
       let txt := if str_endswith txt "```" then str_drop_last 3 txt else txt in
       lift (json_loads (str_strip txt)))
      (fun _ => ret chat_fallback).

(** ** The conversational endpoint: [chat_interaction] *)

Inductive ChatResponse : Type :=
| ChatContinue (response : value)
| ChatPlanReady (response : string) (plan : TripPlan.t).

(** [TripRequest(origin=params.get("origin"), ..., user_id=username)]. *)
Definition chat_trip_request (params : dict) (username : string) : pyres TripRequest.t :=
  (origin <- field_opt_str params "origin" None ;;
   destination <- field_str params "destination" ;;
   days <- field_int (dict_setdefault params "days" (VInt 3)) "days" ;;
   travelers <- field_opt_int params "travelers" (Some 1) ;;
   budget_level <- field_opt_str params "budget_level" (Some "medium") ;;
   Ok (TripRequest.mk origin destination days budget_level travelers None None None
         (Some username)))%pyres.

(** The generation of the plan once the resolver has declared readiness, from
    the check of the destination to the answer. *)
Definition chat_generate_plan (env : Env) (trip_req : TripRequest.t) (username : string)
  : M ChatResponse :=
  if negb (str_truthy (TripRequest.destination trip_req))
  then ret (ChatContinue (VStr "I couldn't detect a destination. Where would you like to go?"))
  else
    (* estimate_budget multiplies by [travelers]: a TypeError when it is None *)
    travelers <- match TripRequest.travelers trip_req with
                 | Some travelers => ret travelers
                 | None => raise TypeError
                 end ;;
    '(total, per_person) <-
       lift (estimate_budget (TripRequest.days trip_req) travelers
               (TripRequest.budget_level trip_req)) ;;
    '(lat, lng) <- geocode_destination env (TripRequest.destination trip_req) ;;
    weather <- fetch_weather env lat lng ;;
    generated <- try_except
                   (let prompt := build_prompt trip_req in
                    log_call (GeminiCall (model_name env) prompt) ;;
                    response <- lift (generate_content env (model_name env) prompt) ;;
                    txt <- lift (response_text response) ;;
                    let clean_text := str_strip txt in
                    let clean_text := if str_startswith clean_text "```json"
                                      then str_drop_last 3 (str_drop 7 clean_text)
                                      else clean_text in
                    data <- lift (json_loads clean_text) ;;
                    ret (Some data))
                   (fun _ => ret None) ;;
    match generated with
    | None =>
        ret (ChatContinue (VStr ("I'm having trouble generating the plan right now. "
               ++ "Please try again or provide more specific details.")))
    | Some data =>
        data <- lift (as_mutable_dict data) ;;
        let data := dict_setdefault data "budget_level"
                      (value_of_opt_str (TripRequest.budget_level trip_req)) in
        let data := dict_set data "estimated_total_budget" (VFloat total) in
        let data := dict_set data "estimated_per_person" (VFloat per_person) in
        let data := dict_set data "lat" (value_of_opt_float lat) in
        let data := dict_set data "lng" (value_of_opt_float lng) in
        let data := dict_set data "weather_summary" (value_of_opt_str weather) in
        trip_plan <- lift (validate_TripPlan data) ;;
        let db_trip :=
          Trip.mk None (Some username) (TripRequest.origin trip_req)
            (TripPlan.destination trip_plan) (TripPlan.days trip_plan)
            (TripPlan.budget_level trip_plan) travelers
            (TripRequest.travel_month trip_req)
            (TripPlan.overview trip_plan) (str_join newline (TripPlan.tips trip_plan))
            (TripPlan.estimated_total_budget trip_plan)
            (TripPlan.estimated_per_person trip_plan)
            (TripPlan.lat trip_plan) (TripPlan.lng trip_plan)
            (TripPlan.weather_summary trip_plan) None in
        session_add (NewTrip db_trip) ;;
        ids <- session_commit env ;;
        trip_id <- session_refresh ids ;;
        for_each (TripPlan.daily_plan trip_plan)
          (fun d => session_add (NewDay (day_row trip_id d))) ;;
        session_commit env ;;
        let trip_plan := TripPlan.with_id (Some trip_id) trip_plan in
        ret (ChatPlanReady
               ("I've planned a " ++ str_of_int (TripPlan.days trip_plan)
                ++ "-day trip to " ++ TripPlan.destination trip_plan ++ " for you!")
               trip_plan)
    end.

Definition chat_interaction (env : Env) (request : ChatRequest.t) (username : string)
  : M ChatResponse :=
  with_session
    (analysis <- analyze_chat_intent env (ChatRequest.message request)
                   (ChatRequest.history request) ;;
     action <- lift (py_get analysis "action" VNone) ;;
     if eq_str action "plan_ready" then
       params <- lift (py_get analysis "params" (VDict [])) ;;
       params <- lift (match params with
                       | VDict d => Ok d
                       | _ => Raise AttributeError
                       end) ;;
       trip_req <- lift (chat_trip_request params username) ;;
       chat_generate_plan env trip_req username
     else
       response <- lift (py_get analysis "response" (VStr "Can you tell me more?")) ;;
       ret (ChatContinue response)).

Local Close Scope py_scope.

(** ** Vocabulary of the statements *)

(** The world after the calls [calls] were made and nothing else changed. *)
Definition logged (w : World) (calls : list NetCall) : World :=
  {| db := db w; pending := pending w; commits := commits w;
     snapshots := snapshots w; net_log := net_log w ++ calls |}.

(** A computation that changes nothing but the log of calls. *)
Definition only_logs {A} (m : M A) : Prop :=
  forall w, exists r calls, m w = (r, logged w calls).


(** The decoded answer with the fields both paths compute written over it. *)
Definition with_computed_fields (d : dict) (budget_level : value) (total per_person : pyfloat)
    (lat lng : option pyfloat) (weather : option string) : dict :=
  let data := dict_setdefault d "budget_level" budget_level in
  let data := dict_set data "estimated_total_budget" (VFloat total) in
  let data := dict_set data "estimated_per_person" (VFloat per_person) in
  let data := dict_set data "lat" (value_of_opt_float lat) in
  let data := dict_set data "lng" (value_of_opt_float lng) in
  dict_set data "weather_summary" (value_of_opt_str weather).

(** The same with the answers of the three search adapters, as [plan_trip]
    writes them. *)
Definition with_enrichment (d : dict) (events hotels restaurants : list value) : dict :=
  let data := dict_set d "events" (VList events) in
  let data := dict_set data "hotels" (VList hotels) in
  dict_set data "restaurants" (VList restaurants).



(** *** Vocabulary for the decoder *)

(** The characters that may follow a value inside an array or an object. *)
Definition is_stop (a : ascii) : bool :=
  is_ws a || Ascii.eqb a "," || Ascii.eqb a "]" || Ascii.eqb a "}".

(** The first character, if there is one, satisfies [p]. *)
Definition head_is (p : ascii -> bool) (l : list ascii) : bool :=
  match l with
  | [] => true
  | a :: _ => p a
  end.

Definition is_digit (a : ascii) : bool :=
  match digit_val a with Some _ => true | None => false end.

Definition is_exp_mark (a : ascii) : bool := Ascii.eqb a "e" || Ascii.eqb a "E".
Definition is_dot (a : ascii) : bool := Ascii.eqb a ".".

(** What may follow the fraction of a number: a character that is neither a
    digit nor a dot. *)
Definition frac_follow (a : ascii) : bool := negb (is_digit a) && negb (is_dot a).

(** The first character of a number. *)
Definition is_number_start (a : ascii) : bool := is_digit a || Ascii.eqb a "-".

Definition is_dict (v : value) : bool :=
  match v with VDict _ => true | _ => false end.

Definition is_printable (a : ascii) : bool := (32 <=? nat_of_ascii a)%nat.

Definition no_backtick (l : list ascii) : bool :=
  forallb (fun a => negb (Ascii.eqb a "`")) l.

(** A double quote comes before any control character. *)
Fixpoint closes (l : list ascii) : bool :=
  match l with
  | [] => false
  | a :: l' => if Ascii.eqb a DQUOTE then true
               else if (nat_of_ascii a <? 32)%nat then false
               else closes l'
  end.

(** Every backquote is followed by a double quote before any control
    character: what holds of the backquotes of a JSON text, which can only
    stand inside strings. *)
Fixpoint backticks_closed (l : list ascii) : bool :=
  match l with
  | [] => true
  | a :: l' => (if Ascii.eqb a "`" then closes l' else true) && backticks_closed l'
  end.

(** A token that ends with a delimiter of its own: a string, an array, an
    object. *)
Definition self_delimited (m : mode) (l : list ascii) : bool :=
  match m with
  | Value => match l with
             | a :: _ => Ascii.eqb a DQUOTE || Ascii.eqb a "{" || Ascii.eqb a "["
             | [] => false
             end
  | _ => true
  end.

(** A token that is an object, or the rest of one. *)
Definition is_object (m : mode) (l : list ascii) : bool :=
  match m with
  | Value => match l with
             | a :: _ => Ascii.eqb a "{"
             | [] => false
             end
  | Members _ => true
  | Elements _ => false
  end.

Definition brace_free (s : string) : bool :=
  forallb (fun a => negb (Ascii.eqb a "{") && negb (Ascii.eqb a "}")) (chars s).


(** A text inside a fenced code block, with prose around the block.  [info] is
    what follows the opening fence on its line, such as [json]. *)
Definition fenced (before info s after : string) : string :=
  before ++ "```" ++ info ++ newline ++ s ++ newline ++ "```" ++ after.

(** What a successful run of [parse] tells: the token read starts [l], starts
    with a character that is no whitespace, has its backquotes closed, ends with
    a closing brace when it is an object, and is read again, with the same
    result, whatever follows it (for a number or a literal: provided a delimiter
    follows in both cases). *)
Definition reads (f : nat) (m : mode) (l : list ascii) (v : value) (r : list ascii) : Prop :=
  exists a pre,
    l = (a :: pre ++ r)%list
    /\ is_ws a = false
    /\ backticks_closed (a :: pre) = true
    /\ (is_object m l = true -> exists pre', (a :: pre) = (pre' ++ ["}"%char])%list)
    /\ forall r',
         self_delimited m l = true
         \/ (head_is is_stop r = true /\ head_is is_stop r' = true) ->
         parse f m (a :: pre ++ r') = Parsed v r'.

(** The session a request starts with. *)
Definition fresh_session (w : World) : World :=
  {| db := db w; pending := []; commits := 0; snapshots := []; net_log := net_log w |}.

(** The key the next Trip row gets. *)
Definition new_trip_id (d : Db) : Z := next_id (map Trip.id (trip_rows d)).

(** The database after the header row alone, and after the day rows. *)
Definition header_saved (d : Db) (row : Trip.t) : Db := fst (insert_row d (NewTrip row)).
Definition days_saved (d : Db) (rows : list Day.t) : Db := fst (flush d (map NewDay rows)).

(** Every Day row belongs to a Trip row. *)
Definition db_wf (d : Db) : Prop :=
  Forall (fun r => exists t, In t (trip_rows d) /\ Trip.id t = Some (Day.trip_id r))
         (day_rows d).

(** The Day rows of a trip, as any reader selects them. *)
Definition days_of (d : Db) (trip_id : Z) : list Day.t :=
  filter (fun r => Day.trip_id r =? trip_id) (day_rows d).

(** The Trip rows with a given key. *)
Definition has_trip (d : Db) (trip_id : Z) : Prop :=
  exists t, In t (trip_rows d) /\ Trip.id t = Some trip_id.

(** The header row [plan_trip] writes for a plan. *)
Definition header_row (env : Env) (request : TripRequest.t) (plan : TripPlan.t) : Trip.t :=
  Trip.mk None (TripRequest.user_id request) (TripRequest.origin request)
    (TripPlan.destination plan) (TripPlan.days plan) (TripPlan.budget_level plan)
    (int_or (TripRequest.travelers request) 1) (TripRequest.travel_month request)
    (TripPlan.overview plan) (str_join newline (TripPlan.tips plan))
    (TripPlan.estimated_total_budget plan) (TripPlan.estimated_per_person plan)
    (TripPlan.lat plan) (TripPlan.lng plan) (TripPlan.weather_summary plan)
    (if dict_truthy (TripPlan.budget_breakdown plan)
     then option_map (json_dumps env) (TripPlan.budget_breakdown plan)
     else None).

(** A plan without what the enrichment adapters add. *)
Definition without_enrichment (p : TripPlan.t) : TripPlan.t :=
  TripPlan.mk (TripPlan.id p) (TripPlan.destination p) (TripPlan.days p)
    (TripPlan.budget_level p) (TripPlan.overview p) (TripPlan.daily_plan p)
    (TripPlan.tips p) (TripPlan.estimated_total_budget p)
    (TripPlan.estimated_per_person p) (TripPlan.budget_breakdown p)
    (TripPlan.lat p) (TripPlan.lng p) (TripPlan.weather_summary p) None None None.

(** The same with the budget breakdown absent. *)
Definition without_breakdown (p : TripPlan.t) : TripPlan.t :=
  TripPlan.mk (TripPlan.id p) (TripPlan.destination p) (TripPlan.days p)
    (TripPlan.budget_level p) (TripPlan.overview p) (TripPlan.daily_plan p)
    (TripPlan.tips p) (TripPlan.estimated_total_budget p)
    (TripPlan.estimated_per_person p) None
    (TripPlan.lat p) (TripPlan.lng p) (TripPlan.weather_summary p)
    (TripPlan.events p) (TripPlan.hotels p) (TripPlan.restaurants p).

(** What is asked of an adapter [run] whose credential is usable when
    [ready], whose one call is [call] with the answer [answer], handled by
    [handle]: without the credential it returns [empty] and leaves the world as
    it is (no call is logged); with it, it makes that one call and returns, and
    what it returns is [empty] whenever the call or the handling raises. *)
Definition isolates_failures {A B} (run : M A) (ready : bool) (call : NetCall)
    (answer : pyres B) (handle : B -> pyres A) (empty : A) : Prop :=
  forall w : World,
    (ready = false -> run w = (Ok empty, w))
    /\ (ready = true ->
        exists r, run w = (Ok r, logged w [call])
                  /\ (forall e, answer = Raise e -> r = empty)
                  /\ (forall x e, answer = Ok x -> handle x = Raise e -> r = empty)
                  /\ (forall x y, answer = Ok x -> handle x = Ok y -> r = y)).

(** *** [plan_trip] in two steps

    [plan_trip] first assembles a plan, then persists it; both of its branches
    persist with the same statements.  The two steps are named here, and
    [plan_trip_assemble_then_save] proves that [plan_trip] is their sequence. *)

Local Open Scope py_scope.

(** The statements from [session.add(db_trip)] to the [return]. *)
Definition save_plan (env : Env) (request : TripRequest.t) (plan : TripPlan.t)
  : M TripPlan.t :=
  session_add (NewTrip (header_row env request plan)) ;;
  ids <- session_commit env ;;
  trip_id <- session_refresh ids ;;
  for_each (TripPlan.daily_plan plan)
    (fun d => session_add (NewDay (day_row trip_id d))) ;;
  session_commit env ;;
  ret (TripPlan.with_id (Some trip_id) plan).

(** The plan [create_and_save_dummy_trip] builds. *)
Definition dummy_plan (env : Env) (request : TripRequest.t) : M TripPlan.t :=
  '(total, per_person) <-
     lift (estimate_budget (TripRequest.days request)
             (int_or (TripRequest.travelers request) 1)
             (Some (str_or (TripRequest.budget_level request) "medium"))) ;;
  '(lat, lng) <- geocode_destination env (TripRequest.destination request) ;;
  weather <- fetch_weather env lat lng ;;
  ret (TripPlan.mk None (TripRequest.destination request) (TripRequest.days request)
         (str_or (TripRequest.budget_level request) "medium")
         dummy_overview (dummy_daily_plan request) dummy_tips
         (Some total) (Some per_person) None lat lng weather None None None).

(** The plan made of the answer of the generative provider. *)
Definition generated_plan (env : Env) (request : TripRequest.t) (response : Response)
  : M TripPlan.t :=
  txt <- lift (response_text response) ;;
  let txt := if str_truthy txt then txt else "{}" in
  data <- lift (decode_generated txt) ;;
  '(total, per_person) <-
     lift (estimate_budget (TripRequest.days request)
             (int_or (TripRequest.travelers request) 1)
             (Some (str_or (TripRequest.budget_level request) "medium"))) ;;
  '(lat, lng) <- geocode_destination env (TripRequest.destination request) ;;
  weather <- fetch_weather env lat lng ;;
  events <- fetch_google_events env (TripRequest.destination request) lat lng ;;
  hotels <- fetch_hotels env (TripRequest.destination request) None None ;;
  restaurants <- fetch_restaurants env (TripRequest.destination request) ;;
  data <- lift (as_mutable_dict data) ;;
  let data := dict_setdefault data "budget_level"
                (VStr (str_or (TripRequest.budget_level request) "medium")) in
  let data := dict_set data "estimated_total_budget" (VFloat total) in
  let data := dict_set data "estimated_per_person" (VFloat per_person) in
  let data := dict_set data "lat" (value_of_opt_float lat) in
  let data := dict_set data "lng" (value_of_opt_float lng) in
  let data := dict_set data "weather_summary" (value_of_opt_str weather) in
  let data := dict_set data "events" (VList events) in
  let data := dict_set data "hotels" (VList hotels) in
  let data := dict_set data "restaurants" (VList restaurants) in
  lift (validate_TripPlan data).

(** The call of the generative provider under [try]. *)
Definition try_generate (env : Env) (request : TripRequest.t) : M (option Response) :=
  try_except
    (let prompt := build_prompt request in
     log_call (GeminiCall (model_name env) prompt) ;;
     response <- lift (generate_content env (model_name env) prompt) ;;
     ret (Some response))
    (fun _ => ret None).

Definition assemble_plan (env : Env) (request : TripRequest.t) : M TripPlan.t :=
  if negb (configured (GEMINI_API_KEY env)) then dummy_plan env request
  else
    generated <- try_generate env request ;;
    match generated with
    | None => dummy_plan env request
    | Some response => generated_plan env request response
    end.

Local Close Scope py_scope.

(** The session closed at the end of a request. *)
Definition closed_session (w : World) : World :=
  {| db := db w; pending := []; commits := commits w;
     snapshots := snapshots w; net_log := net_log w |}.

(** What [save_plan] does in a session with nothing pending, by the fate of its
    two commits. *)
Definition save_outcome (env : Env) (request : TripRequest.t) (plan : TripPlan.t)
    (w : World) : pyres TripPlan.t * World :=
  let row := header_row env request plan in
  let trip_id := new_trip_id (db w) in
  let d1 := header_saved (db w) row in
  let d2 := days_saved d1 (map (day_row trip_id) (TripPlan.daily_plan plan)) in
  if commit_fails env (commits w) then
    (Raise OperationalError,
     {| db := db w; pending := []; commits := S (commits w);
        snapshots := snapshots w; net_log := net_log w |})
  else if commit_fails env (S (commits w)) then
    (Raise OperationalError,
     {| db := d1; pending := []; commits := S (S (commits w));
        snapshots := snapshots w ++ [d1]; net_log := net_log w |})
  else
    (Ok (TripPlan.with_id (Some trip_id) plan),
     {| db := d2; pending := []; commits := S (S (commits w));
        snapshots := (snapshots w ++ [d1]) ++ [d2]; net_log := net_log w |}).

(** ** Sample worlds for the examples *)

(** An environment where nothing is configured and every provider fails.  The
    float routines are fixed arbitrarily: no example depends on them. *)
Definition bare_env : Env :=
  {| GEMINI_API_KEY := None;
     MAPBOX_ACCESS_TOKEN := None;
     WEATHER_API_KEY := None;
     SERPAPI_API_KEY := None;
     GEMINI_MODEL := None;
     generate_content := fun _ _ => Raise ProviderError;
     serpapi_get_dict := fun _ => Raise ProviderError;
     mapbox_get_json := fun _ => Raise ProviderError;
     openweather_get_json := fun _ _ => Raise ProviderError;
     commit_fails := fun _ => false;
     float_format_1f := fun _ => "0.0";
     float_of_str := fun _ => Raise ValueError;
     py_repr := fun _ => "None";
     json_dumps := fun _ => "{}" |}.

(** The same with a credential for the generative provider, which answers
    [answer] to every prompt, and a storage engine that refuses the commits
    [refused] says. *)
Definition env_answering (answer : string -> pyres Response) (refused : nat -> bool) : Env :=
  {| GEMINI_API_KEY := Some "key";
     MAPBOX_ACCESS_TOKEN := None;
     WEATHER_API_KEY := None;
     SERPAPI_API_KEY := None;
     GEMINI_MODEL := None;
     generate_content := fun _ prompt => answer prompt;
     serpapi_get_dict := fun _ => Raise ProviderError;
     mapbox_get_json := fun _ => Raise ProviderError;
     openweather_get_json := fun _ _ => Raise ProviderError;
     commit_fails := refused;
     float_format_1f := fun _ => "0.0";
     float_of_str := fun _ => Raise ValueError;
     py_repr := fun _ => "None";
     json_dumps := fun _ => "{}" |}.

(** The unconfigured environment with a storage engine that refuses the commits
    [refused] says. *)
Definition env_refusing (refused : nat -> bool) : Env :=
  {| GEMINI_API_KEY := None;
     MAPBOX_ACCESS_TOKEN := None;
     WEATHER_API_KEY := None;
     SERPAPI_API_KEY := None;
     GEMINI_MODEL := None;
     generate_content := fun _ _ => Raise ProviderError;
     serpapi_get_dict := fun _ => Raise ProviderError;
     mapbox_get_json := fun _ => Raise ProviderError;
     openweather_get_json := fun _ _ => Raise ProviderError;
     commit_fails := refused;
     float_format_1f := fun _ => "0.0";
     float_of_str := fun _ => Raise ValueError;
     py_repr := fun _ => "None";
     json_dumps := fun _ => "{}" |}.

Definition empty_db : Db := {| trip_rows := []; day_rows := [] |}.

Definition empty_world : World :=
  {| db := empty_db; pending := []; commits := 0; snapshots := []; net_log := [] |}.

(** The request [{destination: "Kyoto", days: 3, budget_level: "medium",
    travelers: 2}]. *)
Definition kyoto_request : TripRequest.t :=
  TripRequest.mk None "Kyoto" 3 (Some "medium") (Some 2) None None None None.

(** A generative answer that is no JSON, with or without its braces. *)
Definition malformed_answer : string := "I could not plan this trip {sorry}.".

Definition env_malformed : Env :=
  env_answering (fun _ => Ok (ResponseText malformed_answer)) (fun _ => false).

(** A storage engine that refuses the second commit of a request. *)
Definition env_second_commit_refused : Env := env_refusing (fun n => Nat.eqb n 1).

(** A generative answer whose only tip holds a newline (written as the JSON
    escape), and one that carries a budget breakdown. *)
Definition answer_with_newline_tip : string :=
  lit "{`destination`: `Kyoto`, `days`: 1, `budget_level`: `medium`, `overview`: `One day.`, `daily_plan`: [{`day`: 1, `title`: `Temples`, `summary`: `East side.`, `places`: [`Kiyomizu-dera`]}], `tips`: [`Pack light\nCarry water`]}".

Definition answer_with_breakdown : string :=
  lit "{`destination`: `Kyoto`, `days`: 1, `budget_level`: `medium`, `overview`: `One day.`, `daily_plan`: [{`day`: 1, `title`: `Temples`, `summary`: `East side.`, `places`: [`Kiyomizu-dera`]}], `budget_breakdown`: {`food`: 1500, `total`: 1500}, `tips`: [`Pack light`]}".

Definition env_newline_tip : Env :=
  env_answering (fun _ => Ok (ResponseText answer_with_newline_tip)) (fun _ => false).

Definition env_breakdown : Env :=
  env_answering (fun _ => Ok (ResponseText answer_with_breakdown)) (fun _ => false).

(** The placeholder plan for [kyoto_request] once saved under key 1. *)
Definition kyoto_placeholder : TripPlan.t :=
  TripPlan.mk (Some 1) "Kyoto" 3 "medium" dummy_overview (dummy_daily_plan kyoto_request)
    dummy_tips (Some (Finite 480)) (Some (Finite 240)) None None None None None None None.

(** A conversation in which the user gives origin, destination and duration,
    and neither the number of travelers nor a budget level. *)
Definition chat_without_travelers_or_budget : ChatRequest.t :=
  ChatRequest.mk "I want to go from Tokyo to Kyoto for 3 days." [] None.

(** The understanding provider declares readiness with the three slots it
    found; the generative provider then drafts an itinerary that names no budget
    level. *)
Definition ready_without_travelers_or_budget : string :=
  lit "{`action`: `plan_ready`, `params`: {`origin`: `Tokyo`, `destination`: `Kyoto`, `days`: 3}}".

Definition itinerary_without_budget_level : string :=
  lit "{`destination`: `Kyoto`, `days`: 3, `overview`: `Three days.`, `daily_plan`: [{`day`: 1, `title`: `East`, `summary`: `Temples.`, `places`: [`Kiyomizu-dera`]}, {`day`: 2, `title`: `North`, `summary`: `Gardens.`, `places`: [`Kinkaku-ji`]}, {`day`: 3, `title`: `South`, `summary`: `Shrines.`, `places`: [`Fushimi Inari`]}], `tips`: [`Carry cash`]}".

Definition is_chat_prompt (prompt : string) : bool :=
  str_startswith prompt (newline ++ "    You are a helpful AI travel assistant.").

Definition env_ready_without_travelers_or_budget : Env :=
  env_answering
    (fun prompt => if is_chat_prompt prompt
                   then Ok (ResponseText ready_without_travelers_or_budget)
                   else Ok (ResponseText itinerary_without_budget_level))
    (fun _ => false).

(** The understanding provider declares readiness with all five slots, and the
    generative provider then fails. *)
Definition ready_with_five_slots : string :=
  lit "{`action`: `plan_ready`, `params`: {`origin`: `Tokyo`, `destination`: `Kyoto`, `days`: 3, `travelers`: 2, `budget_level`: `medium`}}".

Definition env_generation_fails : Env :=
  env_answering
    (fun prompt => if is_chat_prompt prompt
                   then Ok (ResponseText ready_with_five_slots)
                   else Raise ProviderError)
    (fun _ => false).


(** A conversation that gives all five slots. *)
Definition chat_with_five_slots : ChatRequest.t :=
  ChatRequest.mk "From Tokyo to Kyoto, 3 days, 2 travelers, medium budget." [] None.





(** JSON texts are written with backquotes for their double quotes, see [lit]. *)

(** The Day rows as the engine numbers them, given the keys in use. *)
Fixpoint stamp_days (used : list (option Z)) (rows : list Day.t) : list Day.t :=
  match rows with
  | [] => []
  | r :: rows' =>
      let i := next_id used in
      Day.with_id i r :: stamp_days (used ++ [Some i]) rows'
  end.

(** Strictly increasing. *)
Fixpoint ascending (l : list Z) : bool :=
  match l with
  | a :: l' => match l' with
               | b :: _ => (a <? b) && ascending l'
               | [] => true
               end
  | [] => true
  end.

(** The [DayPlan] [get_trip] makes of a Day row. *)
Definition reload_day (d : Day.t) : DayPlan.t :=
  DayPlan.mk (Day.day_number d) (Day.title d) (Day.summary d)
    (if str_truthy (Day.places d) then str_split (Day.places d) LF else []).

(** Storing a list as newline-joined text and splitting it back. *)
Definition reload_list (l : list string) : list string :=
  let stored := str_join newline l in
  if str_truthy stored then str_split stored LF else [].

Definition newline_free (s : string) : bool :=
  forallb (fun a => negb (Ascii.eqb a LF)) (chars s).

(** The lists the newline-joined storage gives back: no item holds a newline,
    and the list is not the single empty text. *)
Definition joinable (l : list string) : bool :=
  forallb newline_free l
  && match l with
     | [s] => str_truthy s
     | _ => true
     end.

(** A clean JSON object, the value it decodes to, and prose that holds braces
    of its own. *)
Definition clean_object : string :=
  lit "{`destination`: `Kyoto`, `days`: 2, `tips`: [`Pack light`]}".

Definition clean_object_dict : dict :=
  Eval vm_compute in
    match json_loads clean_object with
    | Ok (VDict d) => d
    | _ => []
    end.


(** ** The remaining handlers: [list_trips] and [get_trip_pdf] *)

Module TripSummary.
Record t : Type := mk {
  id : Z;
  destination : string;
  days : Z;
  budget_level : string;
  travelers : Z;
  overview : string
}.
End TripSummary.

Local Open Scope py_scope.

(** [select(Trip).where(Trip.user_id == username)]: a row without a user
    matches no name. *)
Definition select_trips (username : string) : M (list Trip.t) :=
  fun w => (Ok (filter (fun r => opt_str_eqb (Trip.user_id r) username)
                       (trip_rows (db w))), w).

(** [TripSummary(id=t.id, ...)]: [id] is annotated [int], which [None] is not. *)
Definition trip_summary (t : Trip.t) : pyres TripSummary.t :=
  match Trip.id t with
  | Some i => Ok (TripSummary.mk i (Trip.destination t) (Trip.days t)
                    (Trip.budget_level t) (Trip.travelers t) (Trip.overview t))
  | None => Raise ValidationError
  end.

Definition list_trips (current_user : string) : M (list TripSummary.t) :=
  with_session
    (trips <- select_trips current_user ;;
     lift (pmap trip_summary trips)).

(** What [get_trip_pdf] hands to the PDF generator: the attributes of the class
    [PdfTripData].  The body of a class reads a name it has bound from its own
    namespace: [daily_plan = days] comes after [days = db_trip.days] and takes
    the number of days, not the Day rows the handler selected under the same
    name. *)
Module PdfTripData.
Record t : Type := mk {
  destination : string;
  days : Z;
  budget_level : string;
  travelers : Z;
  overview : string;
  estimated_total_budget : option pyfloat;
  tips : list string;
  daily_plan : Z
}.
End PdfTripData.





Local Close Scope py_scope.

(** *** Vocabulary for the stored rows *)

(** The row [session.get(Trip, trip_id)] finds. *)
Definition lookup_trip (d : Db) (trip_id : Z) : option Trip.t :=
  find (fun r => match Trip.id r with
                 | Some i => i =? trip_id
                 | None => false
                 end) (trip_rows d).

(** The plan [get_trip] makes of a Trip row without budget breakdown and of
    its Day rows. *)
Definition loaded_plan (trip : Trip.t) (days : list Day.t) : TripPlan.t :=
  TripPlan.mk (Trip.id trip) (Trip.destination trip) (Trip.days trip)
    (Trip.budget_level trip) (Trip.overview trip)
    (map reload_day (order_by_day_number days))
    (if str_truthy (Trip.tips trip) then str_split (Trip.tips trip) LF else [])
    (Trip.estimated_total_budget trip) (Trip.estimated_per_person trip)
    None (Trip.lat trip) (Trip.lng trip) (Trip.weather_summary trip) None None None.

(** What [get_trip] answers on a database. *)
Definition get_trip_outcome (d : Db) (trip_id : Z) (user : string) : pyres TripPlan.t :=
  match lookup_trip d trip_id with
  | None => Raise (HTTPException 404)
  | Some trip =>
      if negb (opt_str_eqb (Trip.user_id trip) user) then Raise (HTTPException 404)
      else if opt_str_truthy (Trip.budget_breakdown trip) then Raise NameError
      else Ok (loaded_plan trip (days_of d trip_id))
  end.

(** The database without a trip and its days. *)
Definition without_trip (d : Db) (trip_id : Z) : Db :=
  {| trip_rows := filter (fun r => negb (match Trip.id r with
                                         | Some i => i =? trip_id
                                         | None => false
                                         end)) (trip_rows d);
     day_rows := filter (fun r => negb (Day.trip_id r =? trip_id)) (day_rows d) |}.

(** The keys of a dict, in order. *)
Definition dict_keys (v : value) : option (list string) :=
  match v with
  | VDict d => Some (map fst d)
  | _ => None
  end.

(** A database whose day rows were written out of order. *)
Definition shuffled_db : Db :=
  {| trip_rows := [Trip.mk (Some 1) (Some "alice") None "Kyoto" 3 "medium" 2 None
                     "Three days." "Pack light" None None None None None None];
     day_rows := [Day.mk (Some 1) 1 3 "South" "Shrines." "Fushimi Inari";
                  Day.mk (Some 2) 1 1 "East" "Temples." "Kiyomizu-dera";
                  Day.mk (Some 3) 1 2 "North" "Gardens." "Kinkaku-ji"] |}.

Definition shuffled_world : World :=
  {| db := shuffled_db; pending := []; commits := 0; snapshots := []; net_log := [] |}.

(** The summary [list_trips] gives of the trip [plan_trip] saved for a plan. *)
Definition summary_of_plan (request : TripRequest.t) (plan : TripPlan.t) (trip_id : Z)
  : TripSummary.t :=
  TripSummary.mk trip_id (TripPlan.destination plan) (TripPlan.days plan)
    (TripPlan.budget_level plan) (int_or (TripRequest.travelers request) 1)
    (TripPlan.overview plan).

(** The calls to the search provider, which the three search adapters make. *)
Definition is_search_call (c : NetCall) : bool :=
  match c with
  | SerpApiCall _ => true
  | _ => false
  end.

(** The text [plan_trip] decodes: [response.text or "{}"]. *)
Definition text_or_empty_object (txt : string) : string :=
  if str_truthy txt then txt else "{}".

(** The text [analyze_chat_intent] decodes: the answer without its fence
    markers, stripped. *)
Definition chat_clean (txt : string) : string :=
  let txt := if str_startswith txt "```json" then str_drop 7 txt else txt in
  let txt := if str_endswith txt "```" then str_drop_last 3 txt else txt in
  str_strip txt.

(** The resolver declares readiness and names no destination. *)
Definition ready_without_destination : string :=
  lit "{`action`: `plan_ready`, `params`: {`origin`: `Tokyo`, `days`: 3}}".

Definition env_ready_without_destination : Env :=
  env_answering (fun _ => Ok (ResponseText ready_without_destination)) (fun _ => false).

(** The keys of the entries the three search adapters return. *)
Definition event_keys : list string := ["title"; "date"; "address"; "link"; "thumbnail"].
Definition hotel_keys : list string :=
  ["name"; "rating"; "price"; "image"; "link"; "description"].
Definition restaurant_keys : list string :=
  ["name"; "rating"; "reviews"; "price"; "type"; "address"; "thumbnail"; "link"].

(** A list of at most [n] dicts with the keys [keys]. *)
Definition bounded_entries (n : nat) (keys : list string) (l : list value) : Prop :=
  (length l <= n)%nat /\ Forall (fun e => dict_keys e = Some keys) l.

(** Coordinates come in pairs, and there is no weather without them. *)
Definition well_located (p : TripPlan.t) : Prop :=
  (TripPlan.lat p = None <-> TripPlan.lng p = None)
  /\ (TripPlan.lat p = None -> TripPlan.weather_summary p = None).



(** The resolver answers a JSON list. *)
Definition env_analysis_is_a_list : Env :=
  env_answering (fun _ => Ok (ResponseText "[1, 2]")) (fun _ => false).

(** The resolver declares readiness with an empty destination. *)
Definition ready_with_empty_destination : string :=
  lit "{`action`: `plan_ready`, `params`: {`destination`: ``, `days`: 3}}".

Definition env_ready_with_empty_destination : Env :=
  env_answering (fun _ => Ok (ResponseText ready_with_empty_destination)) (fun _ => false).

(** * Properties *)






(** ** Provider adapters never raise *)

Lemma logged_nil (w : World) : logged w [] = w.
Proof. destruct w; unfold logged; simpl. rewrite app_nil_r. reflexivity. Qed.

Lemma logged_logged (w : World) (a b : list NetCall) :
  logged (logged w a) b = logged w (a ++ b).
Proof. unfold logged; simpl. rewrite app_assoc. reflexivity. Qed.

Lemma log_call_logged (c : NetCall) (w : World) : log_call c w = (Ok tt, logged w [c]).
Proof. reflexivity. Qed.

(** The shape the five adapters share: a guard, then a logged call and the
    handling of its answer under [try]. *)
Lemma guarded_call_returns {A B} (call : NetCall) (answer : pyres B)
    (handle : B -> pyres A) (empty : A) (w : World) :
  exists r,
    try_except (bind (log_call call)
                  (fun _ => bind (lift answer) (fun x => lift (handle x))))
               (fun _ => ret empty) w
    = (Ok r, logged w [call])
    /\ (forall e, answer = Raise e -> r = empty)
    /\ (forall x e, answer = Ok x -> handle x = Raise e -> r = empty)
    /\ (forall x y, answer = Ok x -> handle x = Ok y -> r = y).
Proof.
  unfold try_except, bind, lift, ret. rewrite log_call_logged.
  destruct answer as [x|e]; [destruct (handle x) as [y|e] eqn:H|];
    eexists; (split; [reflexivity|]); repeat split; intros; congruence.
Qed.

Lemma fetch_google_events_isolates env destination lat lng :
  isolates_failures (fetch_google_events env destination lat lng)
    (configured (SERPAPI_API_KEY env))
    (SerpApiCall (events_params env destination))
    (serpapi_get_dict env (events_params env destination))
    google_events_result [].
Proof.
  intros w. unfold fetch_google_events.
  destruct (configured (SERPAPI_API_KEY env)); simpl; split; intros H; try discriminate.
  - apply guarded_call_returns.
  - reflexivity.
Qed.

Lemma fetch_hotels_isolates env destination check_in check_out :
  isolates_failures (fetch_hotels env destination check_in check_out)
    (configured (SERPAPI_API_KEY env))
    (SerpApiCall (hotels_params env destination check_in check_out))
    (serpapi_get_dict env (hotels_params env destination check_in check_out))
    hotels_result [].
Proof.
  intros w. unfold fetch_hotels.
  destruct (configured (SERPAPI_API_KEY env)); simpl; split; intros H; try discriminate.
  - apply guarded_call_returns.
  - reflexivity.
Qed.

Lemma fetch_restaurants_isolates env destination :
  isolates_failures (fetch_restaurants env destination)
    (configured (SERPAPI_API_KEY env))
    (SerpApiCall (restaurants_params env destination))
    (serpapi_get_dict env (restaurants_params env destination))
    restaurants_result [].
Proof.
  intros w. unfold fetch_restaurants.
  destruct (configured (SERPAPI_API_KEY env)); simpl; split; intros H; try discriminate.
  - apply guarded_call_returns.
  - reflexivity.
Qed.

Lemma geocode_destination_isolates env destination :
  isolates_failures (geocode_destination env destination)
    (configured (MAPBOX_ACCESS_TOKEN env))
    (MapboxCall (mapbox_url destination))
    (mapbox_get_json env (mapbox_url destination))
    (geocode_result env) (None, None).
Proof.
  intros w. unfold geocode_destination.
  destruct (configured (MAPBOX_ACCESS_TOKEN env)); simpl; split; intros H; try discriminate.
  - apply guarded_call_returns.
  - reflexivity.
Qed.

Lemma fetch_weather_isolates env lat lng :
  isolates_failures (fetch_weather env (Some lat) (Some lng))
    (configured (WEATHER_API_KEY env))
    (OpenWeatherCall lat lng)
    (openweather_get_json env lat lng)
    (weather_result env) None.
Proof.
  intros w. unfold fetch_weather.
  destruct (configured (WEATHER_API_KEY env)); simpl; split; intros H; try discriminate.
  - apply guarded_call_returns.
  - reflexivity.
Qed.

Lemma fetch_weather_without_coordinates env lat lng w :
  lat = None \/ lng = None -> fetch_weather env lat lng w = (Ok None, w).
Proof.
  intros [-> | ->]; unfold fetch_weather;
    destruct (configured (WEATHER_API_KEY env)); try destruct lat; reflexivity.
Qed.

(** C9.  Each of the five enrichment adapters, with its credential unset,
    returns its empty result at once and makes no call; with the credential, the
    failure of the call or of the handling of its answer gives the empty result
    and is never passed on to the caller.  The weather adapter also returns
    nothing, without a call, when it is given no coordinates. *)
Theorem adapters_isolate_failures :
  forall (env : Env) (destination : string) (lat lng : option pyfloat)
         (check_in check_out : option string) (la lo : pyfloat),
    isolates_failures (fetch_google_events env destination lat lng)
      (configured (SERPAPI_API_KEY env))
      (SerpApiCall (events_params env destination))
      (serpapi_get_dict env (events_params env destination))
      google_events_result []
    /\ isolates_failures (fetch_hotels env destination check_in check_out)
         (configured (SERPAPI_API_KEY env))
         (SerpApiCall (hotels_params env destination check_in check_out))
         (serpapi_get_dict env (hotels_params env destination check_in check_out))
         hotels_result []
    /\ isolates_failures (fetch_restaurants env destination)
         (configured (SERPAPI_API_KEY env))
         (SerpApiCall (restaurants_params env destination))
         (serpapi_get_dict env (restaurants_params env destination))
         restaurants_result []
    /\ isolates_failures (geocode_destination env destination)
         (configured (MAPBOX_ACCESS_TOKEN env))
         (MapboxCall (mapbox_url destination))
         (mapbox_get_json env (mapbox_url destination))
         (geocode_result env) (None, None)
    /\ isolates_failures (fetch_weather env (Some la) (Some lo))
         (configured (WEATHER_API_KEY env))
         (OpenWeatherCall la lo)
         (openweather_get_json env la lo)
         (weather_result env) None
    /\ (forall w, fetch_weather env None lng w = (Ok None, w))
    /\ (forall w, fetch_weather env lat None w = (Ok None, w)).
Proof.
  intros.
  refine (conj _ (conj _ (conj _ (conj _ (conj _ (conj _ _)))))).
  - apply fetch_google_events_isolates.
  - apply fetch_hotels_isolates.
  - apply fetch_restaurants_isolates.
  - apply geocode_destination_isolates.
  - apply fetch_weather_isolates.
  - intros w. apply fetch_weather_without_coordinates. now left.
  - intros w. apply fetch_weather_without_coordinates. now right.
Qed.

(** ** [plan_trip] assembles, then saves *)

Lemma create_and_save_dummy_trip_eq env request w :
  create_and_save_dummy_trip env request w
  = bind (dummy_plan env request) (save_plan env request) w.
Proof.
  unfold create_and_save_dummy_trip, dummy_plan, save_plan, bind, lift, ret.
  destruct (estimate_budget _ _ _) as [[total per_person]|e]; [|reflexivity].
  destruct (geocode_destination env _ w) as [[[lat lng]|e] w1]; [|reflexivity].
  destruct (fetch_weather env lat lng w1) as [[weather|e] w2]; reflexivity.
Qed.

Lemma bind_assoc {A B C} (m : M A) (f : A -> M B) (g : B -> M C) (w : World) :
  bind (bind m f) g w = bind m (fun x => bind (f x) g) w.
Proof. unfold bind. destruct (m w) as [[a|e] w1]; reflexivity. Qed.

Lemma bind_ext {A B} (m : M A) (k k' : A -> M B) (w : World) :
  (forall a w', k a w' = k' a w') -> bind m k w = bind m k' w.
Proof. intros H. unfold bind. destruct (m w) as [[a|e] w1]; [apply H|reflexivity]. Qed.

Lemma with_session_ext {A} (h h' : M A) (w : World) :
  (forall w', h w' = h' w') -> with_session h w = with_session h' w.
Proof. intros H. unfold with_session. rewrite H. reflexivity. Qed.

Lemma plan_trip_assemble_then_save env request user w :
  plan_trip env request user w
  = with_session
      (bind (assemble_plan env (TripRequest.with_user_id (Some user) request))
            (save_plan env (TripRequest.with_user_id (Some user) request))) w.
Proof.
  unfold plan_trip. apply with_session_ext. intros w0.
  set (rq := TripRequest.with_user_id (Some user) request).
  unfold assemble_plan.
  destruct (negb (configured (GEMINI_API_KEY env))).
  - apply create_and_save_dummy_trip_eq.
  - rewrite bind_assoc. apply bind_ext. intros [response|] w2.
    + unfold generated_plan, save_plan, bind, lift, ret.
      destruct (response_text response) as [txt|e]; [|reflexivity].
      destruct (decode_generated _) as [data|e]; [|reflexivity].
      destruct (estimate_budget _ _ _) as [[total per_person]|e]; [|reflexivity].
      destruct (geocode_destination env _ w2) as [[[lat lng]|e] w3]; [|reflexivity].
      destruct (fetch_weather env lat lng w3) as [[weather|e] w4]; [|reflexivity].
      destruct (fetch_google_events env _ lat lng w4) as [[events|e] w5]; [|reflexivity].
      destruct (fetch_hotels env _ None None w5) as [[hotels|e] w6]; [|reflexivity].
      destruct (fetch_restaurants env _ w6) as [[restaurants|e] w7]; [|reflexivity].
      destruct (as_mutable_dict data) as [d|e]; [|reflexivity].
      destruct (validate_TripPlan _) as [plan|e]; reflexivity.
    + apply create_and_save_dummy_trip_eq.
Qed.

(** ** Assembling a plan only makes calls *)

Lemma isolates_failures_logged {A B} (run : M A) ready call (answer : pyres B) handle empty :
  isolates_failures run ready call answer handle empty ->
  forall w, exists r calls, run w = (Ok r, logged w calls).
Proof.
  intros H w. destruct (H w) as [H0 H1]. destruct ready.
  - destruct (H1 eq_refl) as (r & E & _). exists r, [call]. exact E.
  - exists empty, []. rewrite logged_nil. apply H0. reflexivity.
Qed.

Lemma geocode_destination_logged env destination w :
  exists r calls, geocode_destination env destination w = (Ok r, logged w calls).
Proof.
  eapply isolates_failures_logged. apply geocode_destination_isolates.
Qed.

Lemma fetch_weather_logged env lat lng w :
  exists r calls, fetch_weather env lat lng w = (Ok r, logged w calls).
Proof.
  destruct lat as [lat|]; [destruct lng as [lng|]|].
  - eapply isolates_failures_logged. apply fetch_weather_isolates.
  - exists None, []. rewrite logged_nil.
    apply fetch_weather_without_coordinates. now right.
  - exists None, []. rewrite logged_nil.
    apply fetch_weather_without_coordinates. now left.
Qed.

Lemma fetch_google_events_logged env destination lat lng w :
  exists r calls, fetch_google_events env destination lat lng w = (Ok r, logged w calls).
Proof.
  eapply isolates_failures_logged. apply fetch_google_events_isolates.
Qed.

Lemma fetch_hotels_logged env destination ci co w :
  exists r calls, fetch_hotels env destination ci co w = (Ok r, logged w calls).
Proof.
  eapply isolates_failures_logged. apply fetch_hotels_isolates.
Qed.

Lemma fetch_restaurants_logged env destination w :
  exists r calls, fetch_restaurants env destination w = (Ok r, logged w calls).
Proof.
  eapply isolates_failures_logged. apply fetch_restaurants_isolates.
Qed.

Lemma only_logs_lift {A} (r : pyres A) : only_logs (lift r).
Proof. intros w. exists r, []. rewrite logged_nil. reflexivity. Qed.

Lemma only_logs_ret {A} (a : A) : only_logs (ret a).
Proof. intros w. exists (Ok a), []. rewrite logged_nil. reflexivity. Qed.

Lemma only_logs_bind {A B} (m : M A) (k : A -> M B) :
  only_logs m -> (forall a, only_logs (k a)) -> only_logs (bind m k).
Proof.
  intros Hm Hk w. unfold bind. destruct (Hm w) as (r & c & ->).
  destruct r as [a|e].
  - destruct (Hk a (logged w c)) as (r' & c' & ->). rewrite logged_logged. eauto.
  - eauto.
Qed.

Lemma only_logs_of_returns {A} (m : M A) :
  (forall w, exists r calls, m w = (Ok r, logged w calls)) -> only_logs m.
Proof. intros H w. destruct (H w) as (r & c & ->). eauto. Qed.

Lemma only_logs_log_call c : only_logs (log_call c).
Proof. intros w. exists (Ok tt), [c]. reflexivity. Qed.

Lemma only_logs_try_except {A} (body : M A) (handler : exn -> M A) :
  only_logs body -> (forall e, only_logs (handler e)) -> only_logs (try_except body handler).
Proof.
  intros Hb Hh w. unfold try_except. destruct (Hb w) as (r & c & ->).
  destruct r as [a|e].
  - eauto.
  - destruct (Hh e (logged w c)) as (r' & c' & ->). rewrite logged_logged. eauto.
Qed.

Ltac only_logs_steps :=
  repeat first
    [ apply only_logs_lift | apply only_logs_ret | apply only_logs_log_call
    | apply only_logs_of_returns; intros ?;
      first [ apply geocode_destination_logged | apply fetch_weather_logged
            | apply fetch_google_events_logged | apply fetch_hotels_logged
            | apply fetch_restaurants_logged ]
    | apply only_logs_try_except; [|intros ?]
    | apply only_logs_bind; [|intros ?]
    | match goal with |- only_logs (match ?x with (_, _) => _ end) => destruct x end ].

Lemma dummy_plan_only_logs env request : only_logs (dummy_plan env request).
Proof. unfold dummy_plan. only_logs_steps. Qed.

Lemma generated_plan_only_logs env request response :
  only_logs (generated_plan env request response).
Proof. unfold generated_plan. only_logs_steps. Qed.

Lemma try_generate_only_logs env request : only_logs (try_generate env request).
Proof. unfold try_generate. only_logs_steps. Qed.

Lemma assemble_plan_only_logs env request : only_logs (assemble_plan env request).
Proof.
  unfold assemble_plan. destruct (negb (configured (GEMINI_API_KEY env))).
  - apply dummy_plan_only_logs.
  - apply only_logs_bind; [apply try_generate_only_logs|].
    intros [response|]; [apply generated_plan_only_logs|apply dummy_plan_only_logs].
Qed.

(** ** Saving a plan: two commits *)

Lemma for_each_session_add {A} (f : A -> Pending) (l : list A) (w : World) :
  for_each l (fun x => session_add (f x)) w
  = (Ok tt, {| db := db w; pending := pending w ++ map f l; commits := commits w;
               snapshots := snapshots w; net_log := net_log w |}).
Proof.
  revert w. induction l as [|x l IH]; intros w; simpl.
  - unfold ret. rewrite app_nil_r. destruct w; reflexivity.
  - unfold bind, session_add at 1. rewrite IH. simpl.
    rewrite <- app_assoc. reflexivity.
Qed.

Lemma save_plan_outcome env request plan w :
  pending w = [] -> save_plan env request plan w = save_outcome env request plan w.
Proof.
  intros Hp. unfold save_plan, save_outcome, bind.
  unfold session_add at 1. unfold session_commit at 1. simpl. rewrite Hp. simpl.
  destruct (commit_fails env (commits w)); [reflexivity|].
  unfold session_refresh, ret. rewrite for_each_session_add. simpl.
  unfold session_commit. simpl.
  destruct (commit_fails env (S (commits w))); [reflexivity|].
  unfold days_saved, header_saved, new_trip_id. simpl. rewrite map_map.
  match goal with |- context [flush ?d ?l] => destruct (flush d l) as [d2 ids] end.
  reflexivity.
Qed.

Lemma plan_trip_run env request user w :
  let rq := TripRequest.with_user_id (Some user) request in
  exists r calls,
    assemble_plan env rq (fresh_session w) = (r, logged (fresh_session w) calls)
    /\ plan_trip env request user w
       = match r with
         | Ok plan =>
             let (r', w') := save_outcome env rq plan (logged (fresh_session w) calls) in
             (r', closed_session w')
         | Raise e => (Raise e, closed_session (logged (fresh_session w) calls))
         end.
Proof.
  intros rq. destruct (assemble_plan_only_logs env rq (fresh_session w)) as (r & calls & E).
  exists r, calls. split; [exact E|].
  rewrite plan_trip_assemble_then_save. fold rq.
  unfold with_session. fold (fresh_session w). unfold bind. rewrite E.
  destruct r as [plan|e]; [|reflexivity].
  rewrite save_plan_outcome by reflexivity.
  destruct (save_outcome env rq plan _) as [r' w']. reflexivity.
Qed.

(** ** The placeholder plan *)

Lemma estimate_budget_returns (days travelers : Z) (level : option string) :
  exists total per_person, estimate_budget days travelers level = Ok (total, per_person).
Proof.
  unfold estimate_budget, float_div_int.
  destruct (Z.eqb_spec (Z.max travelers 1) 0) as [E|_]; [lia|]. eauto.
Qed.

Lemma dummy_plan_returns env request w :
  exists total per_person lat lng weather calls,
    estimate_budget (TripRequest.days request) (int_or (TripRequest.travelers request) 1)
      (Some (str_or (TripRequest.budget_level request) "medium")) = Ok (total, per_person)
    /\ dummy_plan env request w
       = (Ok (TripPlan.mk None (TripRequest.destination request) (TripRequest.days request)
                (str_or (TripRequest.budget_level request) "medium")
                dummy_overview (dummy_daily_plan request) dummy_tips
                (Some total) (Some per_person) None lat lng weather None None None),
          logged w calls).
Proof.
  destruct (estimate_budget_returns (TripRequest.days request)
              (int_or (TripRequest.travelers request) 1)
              (Some (str_or (TripRequest.budget_level request) "medium")))
    as (total & per_person & E).
  destruct (geocode_destination_logged env (TripRequest.destination request) w)
    as ([lat lng] & c1 & E1).
  destruct (fetch_weather_logged env lat lng (logged w c1)) as (weather & c2 & E2).
  exists total, per_person, lat, lng, weather, (c1 ++ c2)%list. split; [exact E|].
  unfold dummy_plan, bind, lift, ret. rewrite E, E1, E2, logged_logged. reflexivity.
Qed.

(** C5.  With no credential for the generative provider (and a storage engine
    that accepts the two commits), the request for three days in Kyoto on a
    medium budget for two travelers is answered by a plan of exactly three days,
    a total of 480 and 240 per person. *)
Theorem kyoto_without_credential :
  forall (env : Env) (user : string) (w : World),
    configured (GEMINI_API_KEY env) = false ->
    commit_fails env 0 = false ->
    commit_fails env 1 = false ->
    exists plan w',
      plan_trip env kyoto_request user w = (Ok plan, w')
      /\ length (TripPlan.daily_plan plan) = 3%nat
      /\ TripPlan.estimated_total_budget plan = Some (Finite 480)
      /\ TripPlan.estimated_per_person plan = Some (Finite 240).
Proof.
  intros env user w Hkey H0 H1.
  rewrite plan_trip_assemble_then_save.
  set (rq := TripRequest.with_user_id (Some user) kyoto_request).
  unfold with_session, bind, assemble_plan. rewrite Hkey. change (negb false) with true. cbv iota.
  match goal with |- context [dummy_plan env rq ?w0] =>
    destruct (dummy_plan_returns env rq w0)
      as (total & per_person & lat & lng & weather & calls & E & ->)
  end.
  rewrite save_plan_outcome by reflexivity.
  unfold save_outcome. simpl commits. rewrite H0, H1.
  eexists; eexists; split; [reflexivity|].
  vm_compute in E. injection E as <- <-.
  repeat split.
Qed.

Lemma kyoto_without_credential_witness :
  exists plan w',
    plan_trip bare_env kyoto_request "alice" empty_world = (Ok plan, w')
    /\ length (TripPlan.daily_plan plan) = 3%nat
    /\ TripPlan.estimated_total_budget plan = Some (Finite 480)
    /\ TripPlan.estimated_per_person plan = Some (Finite 240).
Proof.
  apply (kyoto_without_credential bare_env "alice" empty_world); reflexivity.
Defined.

(** ** A generative answer that cannot be decoded *)

Lemma json_loads_raises_JSONDecodeError (s : string) :
  is_ok (json_loads s) = false -> json_loads s = Raise JSONDecodeError.
Proof.
  unfold json_loads.
  destruct (parse _ Value _) as [v r| |]; try reflexivity.
  destruct (skip_ws r); [discriminate|reflexivity].
Qed.

Lemma decode_generated_fails (txt : string) :
  is_ok (json_loads txt) = false ->
  (str_find txt "{" <> -1 -> str_find txt "{" < str_rfind txt "}" ->
   is_ok (json_loads (str_slice txt (str_find txt "{") (str_rfind txt "}" + 1))) = false) ->
  decode_generated txt = Raise JSONDecodeError.
Proof.
  intros H1 H2. unfold decode_generated.
  rewrite (json_loads_raises_JSONDecodeError _ H1). simpl is_JSONDecodeError. cbv iota.
  destruct (Z.eqb_spec (str_find txt "{") (-1)) as [E|E]; [reflexivity|].
  destruct (Z.eqb_spec (str_rfind txt "}") (-1)) as [E'|E']; [reflexivity|].
  simpl negb. cbv beta iota. simpl andb.
  destruct (Z.gtb_spec (str_rfind txt "}") (str_find txt "{")) as [L|L]; [|reflexivity].
  apply json_loads_raises_JSONDecodeError. apply H2; [exact E|lia].
Qed.

(** C1, as the code has it.  When the generative provider answers a non-empty
    text that decodes neither as it is nor from its first opening brace to its
    last closing brace, [plan_trip] raises the decoding error: the request fails,
    no placeholder is built and nothing is persisted. *)
Theorem plan_trip_undecodable_answer_raises :
  forall (env : Env) (request : TripRequest.t) (user : string) (w : World) (txt : string),
    configured (GEMINI_API_KEY env) = true ->
    generate_content env (model_name env)
      (build_prompt (TripRequest.with_user_id (Some user) request))
      = Ok (ResponseText txt) ->
    str_truthy txt = true ->
    is_ok (json_loads txt) = false ->
    (str_find txt "{" <> -1 -> str_find txt "{" < str_rfind txt "}" ->
     is_ok (json_loads (str_slice txt (str_find txt "{") (str_rfind txt "}" + 1))) = false) ->
    exists w',
      plan_trip env request user w = (Raise JSONDecodeError, w')
      /\ db w' = db w
      /\ snapshots w' = [].
Proof.
  intros env request user w txt Hkey Hgen Htxt H1 H2.
  rewrite plan_trip_assemble_then_save.
  unfold with_session, bind, assemble_plan. rewrite Hkey. change (negb true) with false.
  cbv iota. unfold bind, try_generate, try_except, bind, lift, ret.
  rewrite log_call_logged, Hgen.
  unfold generated_plan, bind, lift. simpl response_text. cbv iota. rewrite Htxt.
  rewrite (decode_generated_fails txt H1 H2).
  eexists; split; [reflexivity|]. split; reflexivity.
Qed.

Lemma plan_trip_undecodable_answer_raises_witness :
  exists w',
    plan_trip env_malformed kyoto_request "alice" empty_world = (Raise JSONDecodeError, w')
    /\ db w' = db empty_world
    /\ snapshots w' = [].
Proof.
  apply (plan_trip_undecodable_answer_raises env_malformed kyoto_request "alice"
           empty_world malformed_answer);
    reflexivity.
Defined.

(** C1, as stated, fails: the answer below decodes neither directly nor from
    brace to brace, and [plan_trip] fails with the decoding error, where the
    unconfigured service answers with the placeholder plan. *)
Lemma undecodable_answer_is_not_replaced_by_placeholder :
  is_ok (json_loads malformed_answer) = false
  /\ is_ok (json_loads (str_slice malformed_answer (str_find malformed_answer "{")
                          (str_rfind malformed_answer "}" + 1))) = false
  /\ fst (plan_trip env_malformed kyoto_request "alice" empty_world) = Raise JSONDecodeError
  /\ trip_rows (db (snd (plan_trip env_malformed kyoto_request "alice" empty_world))) = []
  /\ is_ok (fst (plan_trip bare_env kyoto_request "alice" empty_world)) = true.
Proof. vm_compute. repeat split. Qed.

(** ** Keys and rows *)

Lemma next_id_above (ids : list (option Z)) (i : Z) :
  In (Some i) ids -> i < next_id ids.
Proof.
  unfold next_id. induction ids as [|j ids IH]; cbn [In fold_right]; [contradiction|].
  intros [->|H].
  - lia.
  - specialize (IH H). destruct j; lia.
Qed.

Lemma find_app_new {A} (p : A -> bool) (l : list A) (x : A) :
  (forall y, In y l -> p y = false) -> p x = true -> find p (l ++ [x]) = Some x.
Proof.
  intros Hl Hx. induction l as [|y l IH]; simpl.
  - rewrite Hx. reflexivity.
  - rewrite (Hl y (or_introl eq_refl)). apply IH. intros z Hz. apply Hl. now right.
Qed.

Lemma flush_days (d : Db) (rows : list Day.t) :
  fst (flush d (map NewDay rows))
  = {| trip_rows := trip_rows d;
       day_rows := day_rows d ++ stamp_days (map Day.id (day_rows d)) rows |}.
Proof.
  revert d. induction rows as [|r rows IH]; intros d; simpl.
  - rewrite app_nil_r. destruct d; reflexivity.
  - specialize (IH {| trip_rows := trip_rows d;
                      day_rows := day_rows d
                                  ++ [Day.with_id (next_id (map Day.id (day_rows d))) r] |}).
    destruct (flush _ (map NewDay rows)) as [d2 ids]. simpl in *. rewrite IH. simpl.
    rewrite map_app, <- app_assoc. reflexivity.
Qed.

Lemma stamp_days_map {B} (f : Day.t -> B) (used : list (option Z)) (rows : list Day.t) :
  (forall i r, f (Day.with_id i r) = f r) ->
  map f (stamp_days used rows) = map f rows.
Proof.
  intros Hf. revert used. induction rows as [|r rows IH]; intros used; simpl.
  - reflexivity.
  - rewrite Hf, IH. reflexivity.
Qed.

Lemma stamp_days_length used rows : length (stamp_days used rows) = length rows.
Proof.
  rewrite <- (length_map (fun _ => tt) (stamp_days used rows)), <- (length_map (fun _ => tt) rows).
  f_equal. apply stamp_days_map. reflexivity.
Qed.

Lemma filter_all {A} (p : A -> bool) (l : list A) :
  (forall x, In x l -> p x = true) -> filter p l = l.
Proof.
  induction l as [|x l IH]; simpl; intros H; [reflexivity|].
  rewrite (H x (or_introl eq_refl)), IH; [reflexivity|]. intros y Hy. apply H. now right.
Qed.

Lemma filter_none {A} (p : A -> bool) (l : list A) :
  (forall x, In x l -> p x = false) -> filter p l = [].
Proof.
  induction l as [|x l IH]; simpl; intros H; [reflexivity|].
  rewrite (H x (or_introl eq_refl)). apply IH. intros y Hy. apply H. now right.
Qed.

Lemma stamp_days_trip_id used rows i :
  (forall r, In r rows -> Day.trip_id r = i) ->
  forall r, In r (stamp_days used rows) -> Day.trip_id r = i.
Proof.
  intros H r Hr.
  assert (E : map Day.trip_id (stamp_days used rows) = map Day.trip_id rows)
    by (apply stamp_days_map; reflexivity).
  apply (in_map Day.trip_id) in Hr. rewrite E in Hr.
  apply in_map_iff in Hr. destruct Hr as (r' & <- & Hr'). apply H, Hr'.
Qed.

(** A well-formed database has no Day row for the key of the next trip. *)
Lemma db_wf_no_days_for_new_trip (d : Db) :
  db_wf d -> forall r, In r (day_rows d) -> (Day.trip_id r =? new_trip_id d) = false.
Proof.
  intros Hwf r Hr. unfold db_wf in Hwf. rewrite Forall_forall in Hwf.
  destruct (Hwf r Hr) as (t & Ht & Hid).
  assert (Day.trip_id r < new_trip_id d).
  { unfold new_trip_id. apply next_id_above. rewrite <- Hid. apply in_map, Ht. }
  apply Z.eqb_neq. lia.
Qed.

Lemma header_saved_rows (d : Db) (row : Trip.t) :
  header_saved d row
  = {| trip_rows := trip_rows d ++ [Trip.with_id (new_trip_id d) row];
       day_rows := day_rows d |}.
Proof. reflexivity. Qed.

Lemma has_trip_header_saved d row : has_trip (header_saved d row) (new_trip_id d).
Proof.
  exists (Trip.with_id (new_trip_id d) row). split; [|reflexivity].
  rewrite header_saved_rows. simpl. apply in_or_app. right. now left.
Qed.

Lemma days_of_header_saved d row :
  db_wf d -> days_of (header_saved d row) (new_trip_id d) = [].
Proof.
  intros Hwf. unfold days_of. rewrite header_saved_rows. simpl.
  apply filter_none. apply db_wf_no_days_for_new_trip, Hwf.
Qed.

Lemma days_of_days_saved d row (days : list DayPlan.t) :
  db_wf d ->
  days_of (days_saved (header_saved d row) (map (day_row (new_trip_id d)) days))
          (new_trip_id d)
  = stamp_days (map Day.id (day_rows d)) (map (day_row (new_trip_id d)) days).
Proof.
  intros Hwf. unfold days_of, days_saved. rewrite flush_days, header_saved_rows. simpl.
  rewrite filter_app, filter_none by (apply db_wf_no_days_for_new_trip, Hwf). simpl.
  apply filter_all. intros r Hr. apply Z.eqb_eq.
  revert r Hr. apply stamp_days_trip_id.
  intros r' Hr'. apply in_map_iff in Hr'. destruct Hr' as (p & <- & _). reflexivity.
Qed.

Lemma trip_rows_days_saved d rows : trip_rows (days_saved d rows) = trip_rows d.
Proof. unfold days_saved. rewrite flush_days. reflexivity. Qed.

(** ** The header row is committed before the day rows *)

Lemma assemble_plan_unconfigured env request w :
  configured (GEMINI_API_KEY env) = false ->
  assemble_plan env request w = dummy_plan env request w.
Proof. intros H. unfold assemble_plan. rewrite H. reflexivity. Qed.

(** C2, as the code has it.  [plan_trip] commits twice.  A run ends with nothing
    committed (and fails), or with the Trip row committed alone (the second
    commit was refused: the request fails and the Trip row stays, without Day
    rows), or with both commits done.  In the last two cases the state after the
    first commit, visible to every reader, holds the Trip row and none of its
    Day rows; after the second commit it holds one Day row per day of the plan.
    The second case is met whenever no credential is configured and the engine
    accepts the first commit and refuses the second. *)
Theorem plan_trip_commits_header_then_days :
  forall (env : Env) (request : TripRequest.t) (user : string) (w : World)
         (r : pyres TripPlan.t) (w' : World),
    db_wf (db w) ->
    plan_trip env request user w = (r, w') ->
    ((snapshots w' = [] /\ db w' = db w /\ is_ok r = false)
     \/ (exists d1,
           snapshots w' = [d1] /\ db w' = d1 /\ r = Raise OperationalError
           /\ has_trip d1 (new_trip_id (db w))
           /\ days_of d1 (new_trip_id (db w)) = [])
     \/ (exists d1 plan,
           snapshots w' = [d1; db w'] /\ r = Ok plan
           /\ TripPlan.id plan = Some (new_trip_id (db w))
           /\ has_trip d1 (new_trip_id (db w))
           /\ days_of d1 (new_trip_id (db w)) = []
           /\ trip_rows (db w') = trip_rows d1
           /\ map Day.day_number (days_of (db w') (new_trip_id (db w)))
              = map DayPlan.day (TripPlan.daily_plan plan)))
    /\ (configured (GEMINI_API_KEY env) = false ->
        commit_fails env 0 = false -> commit_fails env 1 = true ->
        r = Raise OperationalError
        /\ has_trip (db w') (new_trip_id (db w))
        /\ days_of (db w') (new_trip_id (db w)) = []).
Proof.
  intros env request user w r w' Hwf Hrun.
  destruct (plan_trip_run env request user w) as (r0 & calls & E & Hrun').
  rewrite Hrun' in Hrun. clear Hrun'.
  set (rq := TripRequest.with_user_id (Some user) request) in *.
  destruct r0 as [plan|e].
  - unfold save_outcome in Hrun. simpl commits in Hrun. simpl db in Hrun.
    simpl snapshots in Hrun.
    destruct (commit_fails env 0) eqn:C0; [|destruct (commit_fails env 1) eqn:C1];
      injection Hrun as <- <-; simpl.
    + split; [left; repeat split|intros _ C; discriminate C].
    + split.
      * right; left. eexists. repeat split.
        -- apply has_trip_header_saved.
        -- apply days_of_header_saved, Hwf.
      * intros _ _ _. repeat split.
        -- apply has_trip_header_saved.
        -- apply days_of_header_saved, Hwf.
    + split; [|intros _ _ C; discriminate C].
      right; right. eexists. exists (TripPlan.with_id (Some (new_trip_id (db w))) plan).
      repeat split.
      * apply has_trip_header_saved.
      * apply days_of_header_saved, Hwf.
      * apply trip_rows_days_saved.
      * rewrite days_of_days_saved by exact Hwf.
        rewrite stamp_days_map by reflexivity. rewrite map_map. reflexivity.
  - injection Hrun as <- <-. simpl. split; [left; repeat split|].
    intros Hkey _ _. exfalso.
    rewrite assemble_plan_unconfigured in E by exact Hkey.
    destruct (dummy_plan_returns env rq (fresh_session w))
      as (? & ? & ? & ? & ? & ? & _ & E').
    rewrite E' in E. discriminate E.
Qed.

Lemma plan_trip_commits_header_then_days_witness :
  ((snapshots (snd (plan_trip env_second_commit_refused kyoto_request "alice" empty_world)) = []
    /\ db (snd (plan_trip env_second_commit_refused kyoto_request "alice" empty_world))
       = db empty_world
    /\ is_ok (fst (plan_trip env_second_commit_refused kyoto_request "alice" empty_world))
       = false)
   \/ (exists d1,
         snapshots (snd (plan_trip env_second_commit_refused kyoto_request "alice" empty_world))
         = [d1]
         /\ db (snd (plan_trip env_second_commit_refused kyoto_request "alice" empty_world)) = d1
         /\ fst (plan_trip env_second_commit_refused kyoto_request "alice" empty_world)
            = Raise OperationalError
         /\ has_trip d1 (new_trip_id (db empty_world))
         /\ days_of d1 (new_trip_id (db empty_world)) = [])
   \/ (exists d1 plan,
         snapshots (snd (plan_trip env_second_commit_refused kyoto_request "alice" empty_world))
         = [d1; db (snd (plan_trip env_second_commit_refused kyoto_request "alice" empty_world))]
         /\ fst (plan_trip env_second_commit_refused kyoto_request "alice" empty_world) = Ok plan
         /\ TripPlan.id plan = Some (new_trip_id (db empty_world))
         /\ has_trip d1 (new_trip_id (db empty_world))
         /\ days_of d1 (new_trip_id (db empty_world)) = []
         /\ trip_rows (db (snd (plan_trip env_second_commit_refused kyoto_request "alice"
                                  empty_world)))
            = trip_rows d1
         /\ map Day.day_number
              (days_of (db (snd (plan_trip env_second_commit_refused kyoto_request "alice"
                                   empty_world)))
                       (new_trip_id (db empty_world)))
            = map DayPlan.day (TripPlan.daily_plan plan)))
  /\ (configured (GEMINI_API_KEY env_second_commit_refused) = false ->
      commit_fails env_second_commit_refused 0 = false ->
      commit_fails env_second_commit_refused 1 = true ->
      fst (plan_trip env_second_commit_refused kyoto_request "alice" empty_world)
      = Raise OperationalError
      /\ has_trip (db (snd (plan_trip env_second_commit_refused kyoto_request "alice"
                              empty_world)))
                  (new_trip_id (db empty_world))
      /\ days_of (db (snd (plan_trip env_second_commit_refused kyoto_request "alice"
                             empty_world)))
                 (new_trip_id (db empty_world)) = []).
Proof.
  apply (plan_trip_commits_header_then_days env_second_commit_refused kyoto_request "alice"
           empty_world).
  - constructor.
  - apply surjective_pairing.
Defined.

(** C2, as stated, fails.  In the run below the state after the first commit
    holds Trip 1 and no Day row, although the plan has three days; and when the
    second commit is refused, the request fails and Trip 1 is left behind with no
    Day row. *)
Lemma trip_row_is_visible_without_its_days :
  (exists d1 d2,
     snapshots (snd (plan_trip bare_env kyoto_request "alice" empty_world)) = [d1; d2]
     /\ map Trip.id (trip_rows d1) = [Some 1]
     /\ days_of d1 1 = []
     /\ length (days_of d2 1) = 3%nat)
  /\ fst (plan_trip env_second_commit_refused kyoto_request "alice" empty_world)
     = Raise OperationalError
  /\ map Trip.id
       (trip_rows (db (snd (plan_trip env_second_commit_refused kyoto_request "alice"
                              empty_world)))) = [Some 1]
  /\ day_rows (db (snd (plan_trip env_second_commit_refused kyoto_request "alice"
                          empty_world))) = [].
Proof.
  split; [|vm_compute; repeat split].
  eexists; eexists. split; [vm_compute; reflexivity|]. vm_compute. repeat split.
Qed.

(** ** Lists stored as newline-joined text *)

Lemma chars_app (a b : string) : chars (a ++ b) = (chars a ++ chars b)%list.
Proof. induction a as [|c a IH]; simpl; [reflexivity|]. f_equal. exact IH. Qed.

Lemma text_chars (s : string) : text (chars s) = s.
Proof. apply string_of_list_ascii_of_string. Qed.

Lemma chars_text (l : list ascii) : chars (text l) = l.
Proof. apply list_ascii_of_string_of_list_ascii. Qed.

Lemma split_chars_item (x : list ascii) (tail cur : list ascii) :
  forallb (fun a => negb (Ascii.eqb a LF)) x = true ->
  split_chars LF (x ++ tail) cur = split_chars LF tail (rev x ++ cur).
Proof.
  revert cur. induction x as [|a x IH]; intros cur H; simpl in *; [reflexivity|].
  apply andb_prop in H. destruct H as [Ha Hx].
  destruct (Ascii.eqb a LF); [discriminate|].
  rewrite IH by exact Hx. rewrite <- app_assoc. reflexivity.
Qed.

Lemma split_chars_join (x : string) (rest : list string) (cur : list ascii) :
  forallb newline_free (x :: rest) = true ->
  split_chars LF (chars (String.concat newline (x :: rest))) cur
  = text (rev cur ++ chars x) :: rest.
Proof.
  revert x cur. induction rest as [|y rest IH]; intros x cur H.
  - simpl in H. rewrite andb_true_r in H. simpl String.concat.
    rewrite <- (app_nil_r (chars x)) at 1. rewrite split_chars_item by exact H.
    simpl. rewrite rev_app_distr, rev_involutive. reflexivity.
  - change (forallb newline_free (x :: y :: rest))
      with (newline_free x && forallb newline_free (y :: rest)) in H.
    apply andb_prop in H. destruct H as [Hx Hrest].
    change (String.concat newline (x :: y :: rest))
      with (x ++ newline ++ String.concat newline (y :: rest)).
    specialize (IH y [] Hrest).
    remember (String.concat newline (y :: rest)) as tail eqn:Etail.
    rewrite chars_app. rewrite split_chars_item by exact Hx.
    rewrite chars_app. change (chars newline) with [LF].
    change ([LF] ++ chars tail)%list with (LF :: chars tail).
    cbn [split_chars]. rewrite Ascii.eqb_refl.
    rewrite IH. simpl. rewrite text_chars.
    rewrite rev_app_distr, rev_involutive. reflexivity.
Qed.

Lemma str_truthy_app_newline (x y : string) : str_truthy (x ++ newline ++ y) = true.
Proof. destruct x; reflexivity. Qed.

Lemma reload_list_joinable (l : list string) : joinable l = true -> reload_list l = l.
Proof.
  unfold joinable, reload_list, str_join, str_split. intros H.
  apply andb_prop in H. destruct H as [Hfree Hone].
  destruct l as [|x [|y rest]].
  - reflexivity.
  - simpl String.concat. rewrite Hone.
    change x with (String.concat newline [x]) at 1.
    rewrite split_chars_join by exact Hfree. simpl. rewrite text_chars. reflexivity.
  - rewrite split_chars_join by exact Hfree.
    change (String.concat newline (x :: y :: rest))
      with (x ++ newline ++ String.concat newline (y :: rest)).
    rewrite str_truthy_app_newline. simpl. rewrite text_chars. reflexivity.
Qed.

Lemma reload_day_row (trip_id : Z) (p : DayPlan.t) :
  joinable (DayPlan.places p) = true -> reload_day (day_row trip_id p) = p.
Proof.
  intros H. unfold reload_day, day_row. simpl.
  change (if str_truthy (str_join newline (DayPlan.places p))
          then str_split (str_join newline (DayPlan.places p)) LF else [])
    with (reload_list (DayPlan.places p)).
  rewrite reload_list_joinable by exact H. destruct p; reflexivity.
Qed.

(** ** Rows in the order of their day *)

Lemma order_by_day_number_ascending (rows : list Day.t) :
  ascending (map Day.day_number rows) = true -> order_by_day_number rows = rows.
Proof.
  unfold order_by_day_number. induction rows as [|a rows IH]; [reflexivity|].
  intros H. cbn [fold_right]. destruct rows as [|b rows]; [reflexivity|].
  cbn [map ascending] in H. apply andb_prop in H. destruct H as [Hab Hrest].
  rewrite IH by exact Hrest. cbn [insert_by_day_number].
  apply Z.ltb_lt in Hab.
  destruct (Z.leb_spec (Day.day_number a) (Day.day_number b)); [reflexivity|lia].
Qed.

(** ** Loading back what was saved *)

Lemma plan_trip_ok_inv env request user w plan w' :
  plan_trip env request user w = (Ok plan, w') ->
  exists plan0,
    plan = TripPlan.with_id (Some (new_trip_id (db w))) plan0
    /\ db w' = days_saved
                 (header_saved (db w)
                    (header_row env (TripRequest.with_user_id (Some user) request) plan0))
                 (map (day_row (new_trip_id (db w))) (TripPlan.daily_plan plan0)).
Proof.
  intros Hrun.
  destruct (plan_trip_run env request user w) as (r0 & calls & _ & Hrun').
  rewrite Hrun' in Hrun. clear Hrun'.
  destruct r0 as [plan0|e]; [|discriminate].
  unfold save_outcome in Hrun.
  destruct (commit_fails env _); [discriminate|].
  destruct (commit_fails env _); [discriminate|].
  injection Hrun as <- <-. exists plan0. split; reflexivity.
Qed.

Lemma find_saved_trip (d : Db) (row : Trip.t) (rows : list Day.t) :
  find (fun r => match Trip.id r with
                 | Some i => i =? new_trip_id d
                 | None => false
                 end)
       (trip_rows (days_saved (header_saved d row) rows))
  = Some (Trip.with_id (new_trip_id d) row).
Proof.
  rewrite trip_rows_days_saved, header_saved_rows. simpl trip_rows.
  apply find_app_new.
  - intros t Ht. destruct (Trip.id t) as [i|] eqn:E; [|reflexivity].
    apply Z.eqb_neq. 
    assert (i < new_trip_id d); [|lia].
    apply next_id_above. rewrite <- E. apply in_map, Ht.
  - simpl. apply Z.eqb_refl.
Qed.

Lemma get_trip_after_save env request plan0 user (d : Db) (w1 : World) :
  db_wf d ->
  db w1 = days_saved (header_saved d (header_row env request plan0))
            (map (day_row (new_trip_id d)) (TripPlan.daily_plan plan0)) ->
  TripRequest.user_id request = Some user ->
  joinable (TripPlan.tips plan0) = true ->
  forallb (fun p => joinable (DayPlan.places p)) (TripPlan.daily_plan plan0) = true ->
  ascending (map DayPlan.day (TripPlan.daily_plan plan0)) = true ->
  dict_truthy (TripPlan.budget_breakdown plan0) = false ->
  get_trip env (new_trip_id d) user w1
  = (Ok (without_breakdown
           (without_enrichment (TripPlan.with_id (Some (new_trip_id d)) plan0))),
     closed_session (fresh_session w1)).
Proof.
  intros Hwf Hdb Huser Htips Hplaces Hasc Hbb.
  unfold get_trip, with_session. fold (fresh_session w1).
  assert (Hdb0 : db (fresh_session w1)
                 = days_saved (header_saved d (header_row env request plan0))
                     (map (day_row (new_trip_id d)) (TripPlan.daily_plan plan0)))
    by exact Hdb.
  generalize dependent (fresh_session w1). intros w0 Hdb0.
  unfold bind at 1. unfold session_get_trip. rewrite Hdb0, find_saved_trip.
  cbn [Trip.user_id Trip.with_id header_row]. rewrite Huser.
  cbn [opt_str_eqb]. rewrite String.eqb_refl. cbn [negb].
  unfold bind at 1. unfold select_days. rewrite Hdb0.
  fold (days_of (days_saved (header_saved d (header_row env request plan0))
                   (map (day_row (new_trip_id d)) (TripPlan.daily_plan plan0)))
                (new_trip_id d)).
  rewrite days_of_days_saved by exact Hwf.
  rewrite order_by_day_number_ascending
    by (rewrite stamp_days_map by reflexivity; rewrite map_map; exact Hasc).
  cbn [Trip.budget_breakdown Trip.with_id header_row]. rewrite Hbb.
  unfold bind, ret. cbn [opt_str_truthy configured].
  fold reload_day.
  rewrite (stamp_days_map reload_day) by reflexivity. rewrite map_map.
  assert (Edays : map (fun p => reload_day (day_row (new_trip_id d) p))
                      (TripPlan.daily_plan plan0) = TripPlan.daily_plan plan0).
  { rewrite <- (map_id (TripPlan.daily_plan plan0)) at 2.
    apply map_ext_in. intros p Hp. apply reload_day_row.
    rewrite forallb_forall in Hplaces. apply Hplaces, Hp. }
  rewrite Edays.
  cbn [Trip.tips Trip.id Trip.destination Trip.days Trip.budget_level Trip.overview
       Trip.estimated_total_budget Trip.estimated_per_person Trip.lat Trip.lng
       Trip.weather_summary Trip.with_id header_row].
  change (if str_truthy (str_join newline (TripPlan.tips plan0))
          then str_split (str_join newline (TripPlan.tips plan0)) LF else [])
    with (reload_list (TripPlan.tips plan0)).
  rewrite reload_list_joinable by exact Htips.
  reflexivity.
Qed.

(** C3, as the code has it.  A plan written by [plan_trip] into a well-formed
    database, whose tips and places hold no newline and are not the single empty
    text, whose days are in increasing order, and which carries no budget
    breakdown (none, or an empty one), is loaded back by [get_trip] under its
    key, for the same user, equal in every field except that events, hotels and
    restaurants are absent and an empty budget breakdown has become absent. *)
Theorem saved_plan_is_loaded_back :
  forall (env : Env) (request : TripRequest.t) (user : string) (w : World)
         (plan : TripPlan.t) (w' : World),
    db_wf (db w) ->
    plan_trip env request user w = (Ok plan, w') ->
    joinable (TripPlan.tips plan) = true ->
    forallb (fun p => joinable (DayPlan.places p)) (TripPlan.daily_plan plan) = true ->
    ascending (map DayPlan.day (TripPlan.daily_plan plan)) = true ->
    dict_truthy (TripPlan.budget_breakdown plan) = false ->
    exists trip_id w'',
      TripPlan.id plan = Some trip_id
      /\ get_trip env trip_id user w'
         = (Ok (without_breakdown (without_enrichment plan)), w'')
      /\ db w'' = db w'.
Proof.
  intros env request user w plan w' Hwf Hrun Htips Hplaces Hasc Hbb.
  destruct (plan_trip_ok_inv _ _ _ _ _ _ Hrun) as (plan0 & -> & Hdb).
  exists (new_trip_id (db w)). eexists. split; [reflexivity|]. split.
  - apply (get_trip_after_save env (TripRequest.with_user_id (Some user) request));
      try assumption. reflexivity.
  - reflexivity.
Qed.

Lemma saved_plan_is_loaded_back_witness :
  exists trip_id w'',
    TripPlan.id kyoto_placeholder = Some trip_id
    /\ get_trip bare_env trip_id "alice"
         (snd (plan_trip bare_env kyoto_request "alice" empty_world))
       = (Ok (without_breakdown (without_enrichment kyoto_placeholder)), w'')
    /\ db w'' = db (snd (plan_trip bare_env kyoto_request "alice" empty_world)).
Proof.
  apply (saved_plan_is_loaded_back bare_env kyoto_request "alice" empty_world
           kyoto_placeholder (snd (plan_trip bare_env kyoto_request "alice" empty_world)));
    [constructor | vm_compute; reflexivity ..].
Defined.

(** C3, as stated, fails: the plan below is written with one tip, which holds a
    newline, and is loaded back with two. *)
Lemma tip_with_newline_is_split_on_reload :
  exists plan w' reloaded w'',
    plan_trip env_newline_tip kyoto_request "alice" empty_world = (Ok plan, w')
    /\ TripPlan.id plan = Some 1
    /\ get_trip env_newline_tip 1 "alice" w' = (Ok reloaded, w'')
    /\ TripPlan.tips plan = ["Pack light" ++ newline ++ "Carry water"]
    /\ TripPlan.tips reloaded = ["Pack light"; "Carry water"]
    /\ reloaded <> without_enrichment plan.
Proof.
  eexists; eexists; eexists; eexists.
  split; [vm_compute; reflexivity|].
  split; [reflexivity|].
  split; [vm_compute; reflexivity|].
  split; [reflexivity|].
  split; [reflexivity|].
  intros H. apply (f_equal TripPlan.tips) in H. discriminate H.
Qed.

(** The budget breakdown of a saved plan is never loaded back: [get_trip]
    reaches the unbound name [json]. *)
Example get_trip_with_breakdown_raises_NameError :
  exists plan w',
    plan_trip env_breakdown kyoto_request "alice" empty_world = (Ok plan, w')
    /\ TripPlan.budget_breakdown plan = Some [("food", VInt 1500); ("total", VInt 1500)]
    /\ fst (get_trip env_breakdown 1 "alice" w') = Raise NameError.
Proof.
  eexists; eexists. split; [vm_compute; reflexivity|]. split; reflexivity.
Qed.

(** ** The conversational path fills in travelers and budget level *)

Lemma chat_trip_request_defaults (params : dict) (username : string) (req : TripRequest.t) :
  dict_get params "travelers" = None ->
  dict_get params "budget_level" = None ->
  chat_trip_request params username = Ok req ->
  TripRequest.travelers req = Some 1 /\ TripRequest.budget_level req = Some "medium".
Proof.
  intros Ht Hb. unfold chat_trip_request, pbind, field_opt_int, field_opt_str.
  rewrite Ht, Hb.
  destruct (dict_get params "origin") as [[]|]; try discriminate;
    destruct (field_str params "destination"); try discriminate;
    destruct (field_int _ "days"); try discriminate;
    intros H; injection H as <-; split; reflexivity.
Qed.

(** C8 fails on the code.  The user below names neither travelers nor budget
    level; when the understanding provider nevertheless declares readiness,
    [chat_interaction] asks nothing: it takes one traveler and the medium budget
    and persists a plan with them. *)
Theorem chat_substitutes_travelers_and_budget :
  exists plan w',
    chat_interaction env_ready_without_travelers_or_budget
      chat_without_travelers_or_budget "alice" empty_world
    = (Ok (ChatPlanReady "I've planned a 3-day trip to Kyoto for you!" plan), w')
    /\ map Trip.travelers (trip_rows (db w')) = [1]
    /\ map Trip.budget_level (trip_rows (db w')) = ["medium"]
    /\ TripPlan.budget_level plan = "medium"
    /\ TripPlan.estimated_total_budget plan = Some (Finite 240).
Proof.
  eexists; eexists. split; [vm_compute; reflexivity|]. repeat split.
Qed.

(** ** The two paths to a plan *)








(** *** Reading a dict after writing other keys *)

Lemma dict_get_set_same {V} (d : list (string * V)) (k : string) (v : V) :
  dict_get (dict_set d k v) k = Some v.
Proof.
  induction d as [|[k' v'] d IH]; simpl.
  - rewrite String.eqb_refl. reflexivity.
  - destruct (String.eqb k' k) eqn:E; simpl; rewrite E; [reflexivity|exact IH].
Qed.

Lemma dict_get_set_other {V} (d : list (string * V)) (k k' : string) (v : V) :
  String.eqb k k' = false -> dict_get (dict_set d k v) k' = dict_get d k'.
Proof.
  intros Hk. induction d as [|[k0 v0] d IH]; simpl.
  - rewrite Hk. reflexivity.
  - destruct (String.eqb k0 k) eqn:E; simpl.
    + apply String.eqb_eq in E. subst k0. rewrite Hk. reflexivity.
    + destruct (String.eqb k0 k'); [reflexivity|exact IH].
Qed.

Lemma dict_get_setdefault_other {V} (d : list (string * V)) (k k' : string) (v : V) :
  String.eqb k k' = false -> dict_get (dict_setdefault d k v) k' = dict_get d k'.
Proof.
  intros Hk. unfold dict_setdefault. destruct (dict_get d k); [reflexivity|].
  apply dict_get_set_other, Hk.
Qed.

(** *** Validation does not look at the enrichment keys for the other fields *)

Lemma with_enrichment_get (d : dict) (ev ho re : list value) (k : string) :
  String.eqb "events" k = false -> String.eqb "hotels" k = false ->
  String.eqb "restaurants" k = false ->
  dict_get (with_enrichment d ev ho re) k = dict_get d k.
Proof.
  intros H1 H2 H3. unfold with_enrichment.
  rewrite (dict_get_set_other _ "restaurants" k) by exact H3.
  rewrite (dict_get_set_other _ "hotels" k) by exact H2.
  apply dict_get_set_other, H1.
Qed.

Lemma with_computed_fields_get (d : dict) bl total pp lat lng weather (k : string) :
  String.eqb "budget_level" k = false ->
  String.eqb "estimated_total_budget" k = false ->
  String.eqb "estimated_per_person" k = false ->
  String.eqb "lat" k = false -> String.eqb "lng" k = false ->
  String.eqb "weather_summary" k = false ->
  dict_get (with_computed_fields d bl total pp lat lng weather) k = dict_get d k.
Proof.
  intros H1 H2 H3 H4 H5 H6. unfold with_computed_fields.
  rewrite (dict_get_set_other _ "weather_summary" k) by exact H6.
  rewrite (dict_get_set_other _ "lng" k) by exact H5.
  rewrite (dict_get_set_other _ "lat" k) by exact H4.
  rewrite (dict_get_set_other _ "estimated_per_person" k) by exact H3.
  rewrite (dict_get_set_other _ "estimated_total_budget" k) by exact H2.
  apply dict_get_setdefault_other, H1.
Qed.





(** *** The generated plan on the direct path *)






(** *** The generated plan on the conversational path *)







(** ** The decoder reads a token and nothing after it *)

Lemma is_stop_cases (c : ascii) :
  is_stop c = true ->
  c = " "%char \/ c = ascii_of_nat 9 \/ c = ascii_of_nat 10 \/ c = ascii_of_nat 13
  \/ c = ","%char \/ c = "]"%char \/ c = "}"%char.
Proof.
  destruct c as [[] [] [] [] [] [] [] []]; intros H; try discriminate H;
    auto 10.
Qed.

Lemma is_stop_not_number_char (c : ascii) :
  is_stop c = true ->
  digit_val c = None /\ Ascii.eqb c "." = false /\ Ascii.eqb c "e" = false
  /\ Ascii.eqb c "E" = false /\ Ascii.eqb c "-" = false /\ Ascii.eqb c "+" = false.
Proof.
  intros H. apply is_stop_cases in H.
  destruct H as [->|[->|[->|[->|[->|[->| ->]]]]]]; repeat split.
Qed.

Lemma is_ws_is_stop (c : ascii) : is_ws c = true -> is_stop c = true.
Proof. intros H. unfold is_stop. rewrite H. reflexivity. Qed.

Lemma digit_not_backtick (a : ascii) (d : Z) :
  digit_val a = Some d -> Ascii.eqb a "`" = false.
Proof.
  intros H. destruct (Ascii.eqb_spec a "`"%char) as [->|]; [discriminate H|reflexivity].
Qed.

Lemma digit_not_ws (a : ascii) (d : Z) : digit_val a = Some d -> is_ws a = false.
Proof.
  intros H. destruct (is_ws a) eqn:E; [|reflexivity].
  destruct (is_stop_not_number_char a (is_ws_is_stop a E)) as [H' _]. congruence.
Qed.

(** *** Whitespace *)

Lemma skip_ws_split (l : list ascii) :
  exists ws, l = (ws ++ skip_ws l)%list /\ forallb is_ws ws = true
             /\ head_is (fun a => negb (is_ws a)) (skip_ws l) = true.
Proof.
  induction l as [|a l (ws & E & Hws & Hhd)]; simpl.
  - exists []. repeat split.
  - destruct (is_ws a) eqn:Ha.
    + exists (a :: ws). simpl. rewrite Ha, Hws. repeat split; [|exact Hhd].
      f_equal. exact E.
    + exists []. simpl. rewrite Ha. repeat split.
Qed.

Lemma skip_ws_app (ws l : list ascii) :
  forallb is_ws ws = true -> skip_ws (ws ++ l) = skip_ws l.
Proof.
  induction ws as [|a ws IH]; simpl; [reflexivity|].
  intros H. apply andb_prop in H. destruct H as [Ha Hws]. rewrite Ha. apply IH, Hws.
Qed.

Lemma skip_ws_head (l : list ascii) :
  head_is (fun a => negb (is_ws a)) l = true -> skip_ws l = l.
Proof.
  destruct l as [|a l]; simpl; [reflexivity|].
  intros H. apply negb_true_iff in H. rewrite H. reflexivity.
Qed.

Lemma skip_ws_stop_follow (l : list ascii) (b : ascii) (r : list ascii) :
  skip_ws l = b :: r -> is_stop b = true -> head_is is_stop l = true.
Proof.
  intros E Hb. destruct l as [|a l]; [reflexivity|]. simpl in *.
  destruct (is_ws a) eqn:Ha.
  - apply is_ws_is_stop, Ha.
  - injection E as -> _. exact Hb.
Qed.

(** *** Digits *)

Lemma take_digits_nil_head (r' : list ascii) :
  head_is (fun a => negb (is_digit a)) r' = true -> take_digits r' = ([], r').
Proof.
  destruct r' as [|b r']; [reflexivity|].
  cbn [head_is take_digits]. unfold is_digit.
  destruct (digit_val b); [discriminate|reflexivity].
Qed.

Lemma take_digits_spec (l : list ascii) (ds : list Z) (r : list ascii) :
  take_digits l = (ds, r) ->
  exists pre,
    l = (pre ++ r)%list
    /\ forallb is_digit pre = true
    /\ (ds = [] <-> pre = [])
    /\ head_is (fun a => negb (is_digit a)) r = true
    /\ forall r', head_is (fun a => negb (is_digit a)) r' = true ->
                  take_digits (pre ++ r') = (ds, r').
Proof.
  revert ds r. induction l as [|a l IH]; intros ds r; cbn [take_digits].
  - intros H. injection H as <- <-. exists []. repeat split.
    intros r' Hr'. apply take_digits_nil_head, Hr'.
  - destruct (digit_val a) as [d|] eqn:Ha.
    + destruct (take_digits l) as [ds0 r0] eqn:E. intros H. injection H as <- <-.
      destruct (IH ds0 r0 eq_refl) as (pre & -> & Hpre & _ & Hhd & Hre).
      exists (a :: pre). cbn [app forallb]. unfold is_digit at 1. rewrite Ha, Hpre.
      repeat split; try discriminate; [exact Hhd|].
      intros r' Hr'. cbn [take_digits]. rewrite Ha, (Hre r' Hr'). reflexivity.
    + intros H. injection H as <- <-. exists []. cbn [app forallb head_is].
      unfold is_digit. rewrite Ha. repeat split.
      intros r' Hr'. apply take_digits_nil_head, Hr'.
Qed.

Lemma digits_no_backtick (pre : list ascii) :
  forallb is_digit pre = true -> no_backtick pre = true.
Proof.
  induction pre as [|a pre IH]; simpl; [reflexivity|].
  intros H. apply andb_prop in H. destruct H as [Ha Hpre].
  unfold is_digit in Ha. destruct (digit_val a) eqn:E; [|discriminate].
  rewrite (digit_not_backtick a _ E), IH by exact Hpre. reflexivity.
Qed.

Lemma no_backtick_app (x y : list ascii) :
  no_backtick (x ++ y) = no_backtick x && no_backtick y.
Proof. apply forallb_app. Qed.

Lemma stop_not_digit (l : list ascii) :
  head_is is_stop l = true -> head_is (fun a => negb (is_digit a)) l = true.
Proof.
  destruct l as [|c l]; [reflexivity|]. simpl. intros H.
  destruct (is_stop_not_number_char c H) as [Hd _]. unfold is_digit. rewrite Hd. reflexivity.
Qed.

(** *** Numbers *)

Lemma scan_exp_at_stop (r' : list ascii) :
  head_is is_stop r' = true -> scan_exp r' = (None, r').
Proof.
  destruct r' as [|c r']; [reflexivity|]. cbn [head_is]. intros H.
  destruct (is_stop_not_number_char c H) as (_ & _ & He & HE & _).
  unfold scan_exp. rewrite He, HE. reflexivity.
Qed.

Lemma scan_exp_sign_spec (l : list ascii) (neg : bool) (r1 : list ascii) :
  scan_exp_sign l = (neg, r1) ->
  exists sign,
    l = (sign ++ r1)%list /\ no_backtick sign = true
    /\ forall x, (sign = [] ->
                  head_is (fun a => negb (Ascii.eqb a "-") && negb (Ascii.eqb a "+")) x = true) ->
                 scan_exp_sign (sign ++ x) = (neg, x).
Proof.
  unfold scan_exp_sign. destruct l as [|a l].
  - intros H. injection H as <- <-. exists []. repeat split.
    intros x Hx. specialize (Hx eq_refl). destruct x as [|b x]; [reflexivity|].
    cbn [app head_is] in *. apply andb_prop in Hx. destruct Hx as [H1 H2].
    apply negb_true_iff in H1, H2. rewrite H1, H2. reflexivity.
  - destruct (Ascii.eqb_spec a "-"%char) as [->|Hm].
    + intros H. injection H as <- <-. exists ["-"%char]. repeat split.
    + destruct (Ascii.eqb_spec a "+"%char) as [->|Hp].
      * intros H. injection H as <- <-. exists ["+"%char]. repeat split.
      * intros H. injection H as <- <-. exists []. repeat split.
        intros x Hx. specialize (Hx eq_refl). destruct x as [|b x]; [reflexivity|].
        cbn [app head_is] in *. apply andb_prop in Hx. destruct Hx as [H1 H2].
        apply negb_true_iff in H1, H2. rewrite H1, H2. reflexivity.
Qed.

Lemma digit_not_sign (a : ascii) :
  is_digit a = true -> negb (Ascii.eqb a "-") && negb (Ascii.eqb a "+") = true.
Proof.
  unfold is_digit. intros H.
  destruct (Ascii.eqb_spec a "-"%char) as [->|]; [discriminate H|].
  destruct (Ascii.eqb_spec a "+"%char) as [->|]; [discriminate H|]. reflexivity.
Qed.

Lemma exp_mark_not_backtick (a : ascii) : is_exp_mark a = true -> Ascii.eqb a "`" = false.
Proof.
  unfold is_exp_mark. intros H.
  destruct (Ascii.eqb_spec a "`"%char) as [->|]; [discriminate H|reflexivity].
Qed.

Lemma scan_exp_spec (l : list ascii) (e : option Z) (r : list ascii) :
  scan_exp l = (e, r) ->
  exists pre,
    l = (pre ++ r)%list
    /\ no_backtick pre = true
    /\ head_is is_exp_mark pre = true
    /\ (head_is is_stop r = true ->
        forall r', head_is is_stop r' = true -> scan_exp (pre ++ r') = (e, r')).
Proof.
  unfold scan_exp. destruct l as [|a l].
  - intros H. injection H as <- <-. exists []. repeat split.
    intros _ r' Hr'. apply (scan_exp_at_stop r' Hr').
  - fold (is_exp_mark a). destruct (is_exp_mark a) eqn:He.
    + destruct (scan_exp_sign l) as [neg r1] eqn:Es.
      destruct (take_digits r1) as [eds r2] eqn:Ed.
      destruct eds as [|d eds].
      * intros H. injection H as <- <-. exists []. repeat split.
        cbn [head_is]. intros Hstop. exfalso.
        destruct (is_stop_not_number_char a Hstop) as (_ & _ & H1 & H2 & _).
        unfold is_exp_mark in He. rewrite H1, H2 in He. discriminate.
      * intros H. injection H as <- <-.
        destruct (scan_exp_sign_spec l neg r1 Es) as (sign & -> & Hsign & Hresign).
        destruct (take_digits_spec r1 (d :: eds) r2 Ed) as (dpre & -> & Hdig & Hne & _ & Hredig).
        exists (a :: sign ++ dpre)%list. split; [|split; [|split]].
        -- cbn [app]. rewrite <- app_assoc. reflexivity.
        -- cbn [no_backtick forallb]. rewrite (exp_mark_not_backtick a He).
           cbn [negb andb]. fold (no_backtick (sign ++ dpre)).
           rewrite no_backtick_app, Hsign, (digits_no_backtick dpre Hdig). reflexivity.
        -- exact He.
        -- intros _ r' Hr'. cbn [app]. fold (is_exp_mark a). rewrite He.
           rewrite <- app_assoc. rewrite Hresign.
           ++ rewrite (Hredig r' (stop_not_digit r' Hr')). reflexivity.
           ++ intros _. destruct dpre as [|b dpre].
              ** exfalso. destruct Hne as [_ Hne]. discriminate (Hne eq_refl).
              ** cbn [app head_is]. apply digit_not_sign.
                 cbn [forallb] in Hdig. apply andb_prop in Hdig. apply Hdig.
    + intros H. injection H as <- <-. exists []. repeat split.
      intros _ r' Hr'. apply (scan_exp_at_stop r' Hr').
Qed.

Lemma head_is_app (p q : ascii -> bool) (x y : list ascii) :
  (forall a, q a = true -> p a = true) ->
  head_is q x = true -> head_is p y = true -> head_is p (x ++ y) = true.
Proof.
  intros Hqp Hx Hy. destruct x as [|a x]; [exact Hy|]. cbn [app head_is] in *.
  apply Hqp, Hx.
Qed.

Lemma dot_not_digit (a : ascii) : is_dot a = true -> is_digit a = false.
Proof. unfold is_dot. intros H. apply Ascii.eqb_eq in H. subst a. reflexivity. Qed.

Lemma dot_not_backtick (a : ascii) : is_dot a = true -> Ascii.eqb a "`" = false.
Proof. unfold is_dot. intros H. apply Ascii.eqb_eq in H. subst a. reflexivity. Qed.

Lemma exp_mark_frac_follow (a : ascii) : is_exp_mark a = true -> frac_follow a = true.
Proof.
  unfold is_exp_mark. intros H. apply orb_prop in H.
  destruct H as [H|H]; apply Ascii.eqb_eq in H; subst a; reflexivity.
Qed.

Lemma stop_frac_follow (a : ascii) : is_stop a = true -> frac_follow a = true.
Proof.
  intros H. destruct (is_stop_not_number_char a H) as (Hd & Hdot & _).
  unfold frac_follow, is_digit, is_dot. rewrite Hd, Hdot. reflexivity.
Qed.

Lemma frac_follow_not_digit (a : ascii) : frac_follow a = true -> negb (is_digit a) = true.
Proof. unfold frac_follow. intros H. apply andb_prop in H. apply H. Qed.

Lemma scan_frac_at_follow (r' : list ascii) :
  head_is frac_follow r' = true -> scan_frac r' = (None, r').
Proof.
  destruct r' as [|c r']; [reflexivity|]. cbn [head_is]. unfold frac_follow. intros H.
  apply andb_prop in H. destruct H as [_ H]. apply negb_true_iff in H.
  unfold scan_frac. fold (is_dot c). rewrite H. reflexivity.
Qed.

Lemma scan_frac_spec (l : list ascii) (fr : option (list Z)) (r : list ascii) :
  scan_frac l = (fr, r) ->
  exists pre,
    l = (pre ++ r)%list
    /\ no_backtick pre = true
    /\ head_is is_dot pre = true
    /\ (head_is frac_follow r = true ->
        forall r', head_is frac_follow r' = true -> scan_frac (pre ++ r') = (fr, r')).
Proof.
  unfold scan_frac. destruct l as [|a l].
  - intros H. injection H as <- <-. exists []. repeat split.
    intros _ r' Hr'. apply (scan_frac_at_follow r' Hr').
  - fold (is_dot a). destruct (is_dot a) eqn:Hdot.
    + destruct (take_digits l) as [fds r2] eqn:Ed. destruct fds as [|d fds].
      * intros H. injection H as <- <-. exists []. repeat split.
        cbn [head_is]. unfold frac_follow. rewrite Hdot, andb_false_r. discriminate.
      * intros H. injection H as <- <-.
        destruct (take_digits_spec l (d :: fds) r2 Ed) as (dpre & -> & Hdig & _ & _ & Hredig).
        exists (a :: dpre). split; [reflexivity|]. split; [|split].
        -- cbn [no_backtick forallb]. rewrite (dot_not_backtick a Hdot).
           cbn [negb andb]. apply (digits_no_backtick dpre Hdig).
        -- exact Hdot.
        -- intros _ r' Hr'. cbn [app]. fold (is_dot a). rewrite Hdot.
           rewrite (Hredig r'); [reflexivity|].
           destruct r' as [|c r']; [reflexivity|]. apply frac_follow_not_digit, Hr'.
    + intros H. injection H as <- <-. exists []. repeat split.
      intros _ r' Hr'. apply (scan_frac_at_follow r' Hr').
Qed.

Lemma scan_int_part_spec (l : list ascii) (ids : list Z) (r : list ascii) :
  scan_int_part l = Some (ids, r) ->
  exists a pre,
    l = (a :: pre ++ r)%list
    /\ is_digit a = true
    /\ no_backtick (a :: pre) = true
    /\ forall r', head_is (fun c => negb (is_digit c)) r' = true ->
                  scan_int_part (a :: pre ++ r') = Some (ids, r').
Proof.
  unfold scan_int_part. destruct l as [|a l]; [discriminate|].
  destruct (digit_val a) as [d|] eqn:Ha; [|discriminate].
  assert (Hdig : is_digit a = true) by (unfold is_digit; rewrite Ha; reflexivity).
  destruct (d =? 0) eqn:Hz.
  - intros H. injection H as <- <-. exists a, []. repeat split; [exact Hdig| |].
    + cbn [no_backtick forallb]. rewrite (digit_not_backtick a d Ha). reflexivity.
    + intros r' _. cbn [app]. rewrite Ha, Hz. reflexivity.
  - destruct (take_digits l) as [ds r2] eqn:Ed. intros H. injection H as <- <-.
    destruct (take_digits_spec l ds r2 Ed) as (dpre & -> & Hd & _ & _ & Hredig).
    exists a, dpre. repeat split; [exact Hdig| |].
    + cbn [no_backtick forallb]. rewrite (digit_not_backtick a d Ha).
      cbn [negb andb]. apply (digits_no_backtick dpre Hd).
    + intros r' Hr'. rewrite Ha, Hz, (Hredig r' Hr'). reflexivity.
Qed.

Lemma scan_sign_at_digit (x : list ascii) :
  head_is is_digit x = true -> scan_sign x = (false, x).
Proof.
  unfold scan_sign. destruct x as [|b x]; [reflexivity|]. cbn [head_is]. intros H.
  destruct (Ascii.eqb_spec b "-"%char) as [->|]; [discriminate H|reflexivity].
Qed.

Lemma scan_sign_spec (l : list ascii) (neg : bool) (l1 : list ascii) :
  scan_sign l = (neg, l1) ->
  exists sign,
    l = (sign ++ l1)%list /\ no_backtick sign = true
    /\ head_is (fun a => Ascii.eqb a "-") sign = true
    /\ forall x, head_is is_digit x = true -> scan_sign (sign ++ x) = (neg, x).
Proof.
  unfold scan_sign. destruct l as [|a l].
  - intros H. injection H as <- <-. exists []. repeat split.
    intros x Hx. apply (scan_sign_at_digit x Hx).
  - destruct (Ascii.eqb_spec a "-"%char) as [->|Hm].
    + intros H. injection H as <- <-. exists ["-"%char]. repeat split.
    + intros H. injection H as <- <-. exists []. repeat split.
      intros x Hx. apply (scan_sign_at_digit x Hx).
Qed.

Lemma scan_number_spec (l : list ascii) (v : value) (r : list ascii) :
  scan_number l = Some (v, r) ->
  exists pre,
    l = (pre ++ r)%list
    /\ pre <> []
    /\ no_backtick pre = true
    /\ head_is is_number_start pre = true
    /\ is_dict v = false
    /\ (head_is is_stop r = true ->
        forall r', head_is is_stop r' = true -> scan_number (pre ++ r') = Some (v, r')).
Proof.
  unfold scan_number.
  destruct (scan_sign l) as [neg l1] eqn:Es.
  destruct (scan_int_part l1) as [[ids l2]|] eqn:Ei; [|discriminate].
  destruct (scan_frac l2) as [fr l3] eqn:Ef.
  destruct (scan_exp l3) as [ex l4] eqn:Ee.
  intros H. injection H as <- <-.
  destruct (scan_sign_spec l neg l1 Es) as (sign & -> & Hsign & Hshd & Hresign).
  destruct (scan_int_part_spec l1 ids l2 Ei) as (a & ipre & -> & Ha & Hint & Hreint).
  destruct (scan_frac_spec l2 fr l3 Ef) as (fpre & -> & Hfrac & Hfhd & Hrefrac).
  destruct (scan_exp_spec l3 ex l4 Ee) as (epre & -> & Hexp & Hehd & Hreexp).
  exists (sign ++ (a :: ipre) ++ fpre ++ epre)%list.
  split; [|split; [|split; [|split; [|split]]]].
  - rewrite <- !app_assoc. cbn [app]. rewrite <- ?app_assoc. reflexivity.
  - destruct sign; cbn [app]; discriminate.
  - rewrite !no_backtick_app, Hsign, Hint, Hfrac, Hexp. reflexivity.
  - destruct sign as [|c sign]; cbn [app head_is]; unfold is_number_start.
    + rewrite Ha. reflexivity.
    + cbn [head_is] in Hshd. rewrite Hshd. apply orb_true_r.
  - unfold number_value. destruct fr, ex; reflexivity.
  - intros Hstop r' Hr'.
    assert (Hf4 : head_is frac_follow (epre ++ l4) = true).
    { apply (head_is_app _ is_exp_mark);
        [apply exp_mark_frac_follow|exact Hehd|].
      destruct l4 as [|c l4]; [reflexivity|]. apply stop_frac_follow, Hstop. }
    assert (Hf' : head_is frac_follow (epre ++ r') = true).
    { apply (head_is_app _ is_exp_mark);
        [apply exp_mark_frac_follow|exact Hehd|].
      destruct r' as [|c r']; [reflexivity|]. apply stop_frac_follow, Hr'. }
    assert (Hi' : head_is (fun c => negb (is_digit c)) (fpre ++ epre ++ r') = true).
    { apply (head_is_app _ is_dot);
        [intros c Hc; rewrite (dot_not_digit c Hc); reflexivity|exact Hfhd|].
      destruct (epre ++ r')%list as [|c x]; [reflexivity|].
      apply frac_follow_not_digit, Hf'. }
    rewrite <- !app_assoc. cbn [app].
    rewrite (Hresign (a :: ipre ++ fpre ++ epre ++ r')%list Ha).
    rewrite (Hreint (fpre ++ epre ++ r')%list Hi').
    rewrite (Hrefrac Hf4 (epre ++ r')%list Hf').
    rewrite (Hreexp Hstop r' Hr'). reflexivity.
Qed.

(** *** Literals *)

Lemma after_prefix_spec (p l r : list ascii) :
  after_prefix p l = Some r -> l = (p ++ r)%list.
Proof.
  revert l. induction p as [|a p IH]; intros l; cbn [after_prefix].
  - intros H. injection H as ->. reflexivity.
  - destruct l as [|b l]; [discriminate|].
    destruct (Ascii.eqb_spec a b) as [->|]; [|discriminate].
    intros H. cbn [app]. f_equal. apply IH, H.
Qed.

Lemma after_prefix_app (p r : list ascii) : after_prefix p (p ++ r) = Some r.
Proof.
  induction p as [|a p IH]; cbn [after_prefix app]; [reflexivity|].
  rewrite Ascii.eqb_refl. exact IH.
Qed.

Lemma after_prefix_other (a b : ascii) (p l : list ascii) :
  Ascii.eqb a b = false -> after_prefix (a :: p) (b :: l) = None.
Proof. intros H. cbn [after_prefix]. rewrite H. reflexivity. Qed.

Lemma number_start_not_letter (a : ascii) :
  is_number_start a = true ->
  Ascii.eqb "n" a = false /\ Ascii.eqb "t" a = false /\ Ascii.eqb "f" a = false.
Proof.
  unfold is_number_start, is_digit. intros H.
  repeat split;
    match goal with
    | |- Ascii.eqb ?c a = false =>
        destruct (Ascii.eqb_spec c a) as [<-|]; [discriminate H|reflexivity]
    end.
Qed.

Lemma number_start_not_ws (a : ascii) : is_number_start a = true -> is_ws a = false.
Proof.
  intros H. destruct (is_ws a) eqn:E; [|reflexivity].
  destruct (is_stop_not_number_char a (is_ws_is_stop a E)) as (Hd & _ & _ & _ & Hm & _).
  unfold is_number_start, is_digit in H. rewrite Hd, Hm in H. discriminate.
Qed.

Lemma scan_atom_spec (l : list ascii) (v : value) (r : list ascii) :
  scan_atom l = Some (v, r) ->
  exists a pre,
    l = (a :: pre ++ r)%list
    /\ no_backtick (a :: pre) = true
    /\ is_ws a = false
    /\ is_dict v = false
    /\ (head_is is_stop r = true ->
        forall r', head_is is_stop r' = true -> scan_atom (a :: pre ++ r') = Some (v, r')).
Proof.
  unfold scan_atom.
  destruct (after_prefix (chars "null") l) as [r0|] eqn:E1.
  { intros H. injection H as <- <-. apply after_prefix_spec in E1. subst l.
    eexists; eexists. split; [reflexivity|]. repeat split. }
  destruct (after_prefix (chars "true") l) as [r0|] eqn:E2.
  { intros H. injection H as <- <-. apply after_prefix_spec in E2. subst l.
    eexists; eexists. split; [reflexivity|]. repeat split. }
  destruct (after_prefix (chars "false") l) as [r0|] eqn:E3.
  { intros H. injection H as <- <-. apply after_prefix_spec in E3. subst l.
    eexists; eexists. split; [reflexivity|]. repeat split. }
  destruct (scan_number l) as [[v0 r0]|] eqn:En.
  { intros H. injection H as <- <-.
    destruct (scan_number_spec l v0 r0 En) as (pre & -> & Hne & Hbt & Hhd & Hnd & Hre).
    destruct pre as [|a pre]; [contradiction|]. cbn [head_is] in Hhd.
    exists a, pre. split; [reflexivity|]. split; [exact Hbt|].
    split; [apply number_start_not_ws, Hhd|]. split; [exact Hnd|].
    intros Hstop r' Hr'.
    destruct (number_start_not_letter a Hhd) as (Hn & Ht & Hf).
    change (chars "null") with ("n"%char :: chars "ull").
    change (chars "true") with ("t"%char :: chars "rue").
    change (chars "false") with ("f"%char :: chars "alse").
    cbn [app]. rewrite !after_prefix_other by assumption.
    change (a :: pre ++ r')%list with ((a :: pre) ++ r')%list.
    rewrite (Hre Hstop r' Hr'). reflexivity. }
  destruct (after_prefix (chars "NaN") l) as [r0|] eqn:E4.
  { intros H. injection H as <- <-. apply after_prefix_spec in E4. subst l.
    eexists; eexists. split; [reflexivity|]. repeat split. }
  destruct (after_prefix (chars "Infinity") l) as [r0|] eqn:E5.
  { intros H. injection H as <- <-. apply after_prefix_spec in E5. subst l.
    eexists; eexists. split; [reflexivity|]. repeat split. }
  destruct (after_prefix (chars "-Infinity") l) as [r0|] eqn:E6; [|discriminate].
  intros H. injection H as <- <-. apply after_prefix_spec in E6. subst l.
  eexists; eexists. split; [reflexivity|]. repeat split.
Qed.

(** *** Strings *)

Lemma hex_val_printable (a : ascii) (x : Z) : hex_val a = Some x -> is_printable a = true.
Proof.
  unfold hex_val, is_printable. intros H.
  destruct ((48 <=? nat_of_ascii a)%nat && (nat_of_ascii a <=? 57)%nat) eqn:E1.
  { apply andb_prop in E1. destruct E1 as [E1 _]. apply Nat.leb_le in E1.
    apply Nat.leb_le. lia. }
  destruct ((65 <=? nat_of_ascii a)%nat && (nat_of_ascii a <=? 70)%nat) eqn:E2.
  { apply andb_prop in E2. destruct E2 as [E2 _]. apply Nat.leb_le in E2.
    apply Nat.leb_le. lia. }
  destruct ((97 <=? nat_of_ascii a)%nat && (nat_of_ascii a <=? 102)%nat) eqn:E3;
    [|discriminate].
  apply andb_prop in E3. destruct E3 as [E3 _]. apply Nat.leb_le in E3.
  apply Nat.leb_le. lia.
Qed.

Lemma hex4_printable (a b c d : ascii) (u : Z) :
  hex4 a b c d = Some u ->
  is_printable a = true /\ is_printable b = true /\ is_printable c = true
  /\ is_printable d = true.
Proof.
  unfold hex4.
  destruct (hex_val a) eqn:Ea; [|discriminate].
  destruct (hex_val b) eqn:Eb; [|discriminate].
  destruct (hex_val c) eqn:Ec; [|discriminate].
  destruct (hex_val d) eqn:Ed; [|discriminate].
  intros _. repeat split; eapply hex_val_printable; eassumption.
Qed.

Lemma simple_escape_printable (e c : ascii) :
  simple_escape e = Some c -> is_printable e = true.
Proof.
  destruct e as [[] [] [] [] [] [] [] []]; intros H; try discriminate H; reflexivity.
Qed.

Lemma not_control_printable (a : ascii) :
  (nat_of_ascii a <? 32)%nat = false -> is_printable a = true.
Proof.
  unfold is_printable. intros H. apply Nat.ltb_ge in H. apply Nat.leb_le. exact H.
Qed.

Lemma scanstring_from_spec (n : nat) :
  forall (l : list ascii) (high : option Z) (acc : list ascii) (s : string) (r : list ascii),
    (length l <= n)%nat ->
    scanstring_from l high acc = Some (s, r) ->
    exists body,
      l = (body ++ DQUOTE :: r)%list
      /\ forallb is_printable body = true
      /\ forall r', scanstring_from (body ++ DQUOTE :: r') high acc = Some (s, r').
Proof.
  induction n as [|n IH]; intros l high acc s r Hlen.
  { destruct l; [discriminate|]. simpl in Hlen. lia. }
  destruct l as [|a l]; [discriminate|]. cbn [length] in Hlen.
  cbn [scanstring_from].
  destruct (Ascii.eqb_spec a DQUOTE) as [->|Hq].
  { intros H. injection H as <- <-. exists []. split; [reflexivity|].
    split; [reflexivity|].
    intros r'. cbn [app scanstring_from]. rewrite Ascii.eqb_refl. reflexivity. }
  apply Ascii.eqb_neq in Hq.
  destruct (Ascii.eqb_spec a "\"%char) as [->|Hb].
  - destruct l as [|e r1]; [discriminate|]. cbn [length] in Hlen.
    destruct (Ascii.eqb_spec e "u"%char) as [->|Hu].
    + destruct r1 as [|h1 [|h2 [|h3 [|h4 r2]]]]; try discriminate.
      cbn [length] in Hlen.
      destruct (hex4 h1 h2 h3 h4) as [u|] eqn:Hhex; [|discriminate].
      destruct (hex4_printable _ _ _ _ _ Hhex) as (P1 & P2 & P3 & P4).
      assert (Hstep : forall high' acc',
                 scanstring_from r2 high' acc' = Some (s, r) ->
                 exists body,
                   r2 = (body ++ DQUOTE :: r)%list
                   /\ forallb is_printable body = true
                   /\ forall r', scanstring_from (body ++ DQUOTE :: r') high' acc'
                                 = Some (s, r')).
      { intros high' acc'. apply IH. lia. }
      assert (Hwrap : forall high' acc',
                 scanstring_from r2 high' acc' = Some (s, r) ->
                 (forall x, scanstring_from ("\"%char :: "u"%char :: h1 :: h2 :: h3 :: h4 :: x)
                              high acc = scanstring_from x high' acc') ->
                 exists body,
                   ("\"%char :: "u"%char :: h1 :: h2 :: h3 :: h4 :: r2)
                   = (body ++ DQUOTE :: r)%list
                   /\ forallb is_printable body = true
                   /\ forall r', scanstring_from (body ++ DQUOTE :: r') high acc
                                 = Some (s, r')).
      { intros high' acc' Hrec Hsame.
        destruct (Hstep high' acc' Hrec) as (body & -> & Hpr & Hre).
        exists ("\"%char :: "u"%char :: h1 :: h2 :: h3 :: h4 :: body).
        split; [reflexivity|]. split.
        - cbn [forallb]. rewrite P1, P2, P3, P4, Hpr. reflexivity.
        - intros r'. cbn [app]. rewrite Hsame. apply Hre. }
      destruct high as [hi|].
      * destruct (is_low_surrogate u) eqn:Hlow;
          [|destruct (is_high_surrogate u) eqn:Hhigh];
          intros H; apply (Hwrap _ _ H); intros x;
          cbn [scanstring_from]; rewrite Hhex, Hlow, ?Hhigh; reflexivity.
      * destruct (is_high_surrogate u) eqn:Hhigh;
          intros H; apply (Hwrap _ _ H); intros x;
          cbn [scanstring_from]; rewrite Hhex, Hhigh; reflexivity.
    + apply Ascii.eqb_neq in Hu.
      destruct (simple_escape e) as [c|] eqn:Hesc; [|discriminate].
      intros H.
      destruct (IH r1 None _ s r ltac:(lia) H) as (body & -> & Hpr & Hre).
      exists ("\"%char :: e :: body). split; [reflexivity|]. split.
      * cbn [forallb]. rewrite (simple_escape_printable e c Hesc), Hpr. reflexivity.
      * intros r'. cbn [app scanstring_from]. rewrite Hu, Hesc. apply Hre.
  - apply Ascii.eqb_neq in Hb.
    destruct (nat_of_ascii a <? 32)%nat eqn:Hctl; [discriminate|].
    intros H.
    destruct (IH l None _ s r ltac:(lia) H) as (body & -> & Hpr & Hre).
    exists (a :: body). split; [reflexivity|]. split.
    + cbn [forallb]. rewrite (not_control_printable a Hctl), Hpr. reflexivity.
    + intros r'. cbn [app scanstring_from]. rewrite Hq, Hb, Hctl. apply Hre.
Qed.

Lemma scanstring_spec (l : list ascii) (s : string) (r : list ascii) :
  scanstring l = Some (s, r) ->
  exists body,
    l = (body ++ DQUOTE :: r)%list
    /\ forallb is_printable body = true
    /\ forall r', scanstring (body ++ DQUOTE :: r') = Some (s, r').
Proof. unfold scanstring. apply (scanstring_from_spec (length l)). lia. Qed.

(** *** Backquotes *)

Lemma closes_app (x y : list ascii) : closes x = true -> closes (x ++ y) = true.
Proof.
  induction x as [|a x IH]; cbn [closes app]; [discriminate|].
  destruct (Ascii.eqb a DQUOTE); [reflexivity|].
  destruct (nat_of_ascii a <? 32)%nat; [discriminate|exact IH].
Qed.

Lemma backticks_closed_app (x y : list ascii) :
  backticks_closed x = true -> backticks_closed y = true ->
  backticks_closed (x ++ y) = true.
Proof.
  intros Hx Hy. induction x as [|a x IH]; cbn [backticks_closed app] in *; [exact Hy|].
  apply andb_prop in Hx. destruct Hx as [Ha Hx]. rewrite (IH Hx), andb_true_r.
  destruct (Ascii.eqb a "`"); [apply closes_app, Ha|reflexivity].
Qed.


Lemma no_backtick_closed (x : list ascii) :
  no_backtick x = true -> backticks_closed x = true.
Proof.
  induction x as [|a x IH]; cbn [no_backtick forallb backticks_closed]; [reflexivity|].
  intros H. apply andb_prop in H. destruct H as [Ha Hx]. apply negb_true_iff in Ha.
  rewrite Ha. apply IH, Hx.
Qed.

Lemma closes_printable (x y : list ascii) :
  forallb is_printable x = true -> closes (x ++ DQUOTE :: y) = true.
Proof.
  induction x as [|a x IH]; cbn [forallb closes app].
  - intros _. rewrite Ascii.eqb_refl. reflexivity.
  - intros H. apply andb_prop in H. destruct H as [Ha Hx].
    destruct (Ascii.eqb a DQUOTE); [reflexivity|].
    unfold is_printable in Ha. apply Nat.leb_le in Ha.
    destruct (Nat.ltb_spec (nat_of_ascii a) 32); [lia|]. apply IH, Hx.
Qed.

Lemma string_token_closed (body : list ascii) :
  forallb is_printable body = true ->
  backticks_closed (DQUOTE :: body ++ [DQUOTE]) = true.
Proof.
  intros H. cbn [backticks_closed].
  change (Ascii.eqb DQUOTE "`") with false. cbn [andb].
  induction body as [|a body IH]; [reflexivity|].
  cbn [forallb] in H. apply andb_prop in H. destruct H as [_ Hb].
  cbn [backticks_closed app]. rewrite (IH Hb), andb_true_r.
  destruct (Ascii.eqb a "`"); [apply closes_printable, Hb|reflexivity].
Qed.

Lemma ws_no_backtick (ws : list ascii) : forallb is_ws ws = true -> no_backtick ws = true.
Proof.
  induction ws as [|a ws IH]; cbn [forallb no_backtick]; [reflexivity|].
  intros H. apply andb_prop in H. destruct H as [Ha Hws].
  fold (no_backtick ws). rewrite (IH Hws), andb_true_r.
  destruct (Ascii.eqb_spec a "`"%char) as [->|]; [discriminate Ha|reflexivity].
Qed.

Lemma ws_closed (ws : list ascii) : forallb is_ws ws = true -> backticks_closed ws = true.
Proof. intros H. apply no_backtick_closed, ws_no_backtick, H. Qed.

(** *** Whitespace before a delimiter *)

Lemma skip_ws_cons (l : list ascii) (b : ascii) (r : list ascii) :
  skip_ws l = b :: r ->
  exists ws, l = (ws ++ b :: r)%list /\ forallb is_ws ws = true /\ is_ws b = false.
Proof.
  intros E. destruct (skip_ws_split l) as (ws & El & Hws & Hhd).
  rewrite E in El, Hhd. cbn [head_is] in Hhd. apply negb_true_iff in Hhd. eauto.
Qed.

Lemma skip_ws_reparse (ws : list ascii) (b : ascii) (x : list ascii) :
  forallb is_ws ws = true -> is_ws b = false -> skip_ws (ws ++ b :: x) = b :: x.
Proof.
  intros Hws Hb. rewrite (skip_ws_app ws _ Hws). cbn [skip_ws]. rewrite Hb. reflexivity.
Qed.

Lemma stop_after_ws (ws : list ascii) (b : ascii) (x : list ascii) :
  forallb is_ws ws = true -> is_stop b = true -> head_is is_stop (ws ++ b :: x) = true.
Proof.
  intros Hws Hb. destruct ws as [|a ws]; [exact Hb|].
  cbn [forallb] in Hws. apply andb_prop in Hws. apply is_ws_is_stop, Hws.
Qed.

(** *** The scanner *)

Lemma parse_reads_value (f : nat) :
  (forall m l v r, parse f m l = Parsed v r -> reads f m l v r) ->
  forall l v r, parse (S f) Value l = Parsed v r -> reads (S f) Value l v r.
Proof.
  intros IH l v r. cbn [parse]. destruct l as [|a l]; [discriminate|].
  destruct (Ascii.eqb_spec a DQUOTE) as [->|Hq].
  { (* a string *)
    destruct (scanstring l) as [[s r0]|] eqn:Es; [|discriminate].
    intros H. injection H as <- <-.
    destruct (scanstring_spec l s r0 Es) as (body & -> & Hpr & Hre).
    exists DQUOTE, (body ++ [DQUOTE])%list.
    split; [rewrite <- app_assoc; reflexivity|].
    split; [reflexivity|].
    split; [apply string_token_closed, Hpr|].
    split; [discriminate|].
    intros r' _. cbn [parse]. rewrite Ascii.eqb_refl.
    rewrite <- app_assoc. cbn [app]. rewrite (Hre r'). reflexivity. }
  apply Ascii.eqb_neq in Hq.
  destruct (Ascii.eqb_spec a "{"%char) as [->|Hbrace].
  { (* an object *)
    destruct (skip_ws l) as [|b r1] eqn:Ews; [discriminate|].
    destruct (skip_ws_cons l b r1 Ews) as (ws & -> & Hws & Hb).
    destruct (Ascii.eqb_spec b "}"%char) as [->|Hclose].
    - intros H. injection H as <- <-.
      exists "{"%char, (ws ++ ["}"%char])%list.
      split; [rewrite <- app_assoc; reflexivity|].
      split; [reflexivity|].
      split.
      { change ("{"%char :: ws ++ ["}"%char])%list
          with (["{"%char] ++ ws ++ ["}"%char])%list.
        apply backticks_closed_app; [reflexivity|].
        apply backticks_closed_app; [apply ws_closed, Hws|reflexivity]. }
      split; [intros _; exists ("{"%char :: ws); reflexivity|].
      intros r' _. cbn [parse]. change (Ascii.eqb "{" DQUOTE) with false.
      rewrite Ascii.eqb_refl. cbn iota. rewrite <- app_assoc. cbn [app].
      rewrite (skip_ws_reparse ws "}" r' Hws Hb). rewrite Ascii.eqb_refl. reflexivity.
    - apply Ascii.eqb_neq in Hclose.
      destruct (Ascii.eqb_spec b DQUOTE) as [->|]; [|discriminate].
      intros H. destruct (IH _ _ _ _ H) as (a2 & pre2 & E & Hnws & Hbt & Hend & Hre).
      injection E as <- ->.
      exists "{"%char, (ws ++ DQUOTE :: pre2)%list.
      split; [rewrite <- app_assoc; reflexivity|].
      split; [reflexivity|].
      split.
      { change ("{"%char :: ws ++ DQUOTE :: pre2)%list
          with (["{"%char] ++ ws ++ DQUOTE :: pre2)%list.
        apply backticks_closed_app; [reflexivity|].
        apply backticks_closed_app; [apply ws_closed, Hws|exact Hbt]. }
      split.
      { intros _. destruct (Hend eq_refl) as (pre' & Epre).
        exists ("{"%char :: ws ++ pre')%list. cbn [app]. rewrite <- app_assoc.
        rewrite Epre. reflexivity. }
      intros r' _. cbn [parse]. change (Ascii.eqb "{" DQUOTE) with false.
      rewrite Ascii.eqb_refl. cbn iota. rewrite <- app_assoc. cbn [app].
      rewrite (skip_ws_reparse ws DQUOTE _ Hws Hb). rewrite Hclose, Ascii.eqb_refl.
      apply Hre. left. reflexivity. }
  apply Ascii.eqb_neq in Hbrace.
  destruct (Ascii.eqb_spec a "["%char) as [->|Hbracket].
  { (* an array *)
    destruct (skip_ws l) as [|b r1] eqn:Ews; [discriminate|].
    destruct (skip_ws_cons l b r1 Ews) as (ws & -> & Hws & Hb).
    destruct (Ascii.eqb_spec b "]"%char) as [->|Hclose].
    - intros H. injection H as <- <-.
      exists "["%char, (ws ++ ["]"%char])%list.
      split; [rewrite <- app_assoc; reflexivity|].
      split; [reflexivity|].
      split.
      { change ("["%char :: ws ++ ["]"%char])%list
          with (["["%char] ++ ws ++ ["]"%char])%list.
        apply backticks_closed_app; [reflexivity|].
        apply backticks_closed_app; [apply ws_closed, Hws|reflexivity]. }
      split; [discriminate|].
      intros r' _. cbn [parse]. change (Ascii.eqb "[" DQUOTE) with false.
      change (Ascii.eqb "[" "{") with false.
      rewrite Ascii.eqb_refl. cbn iota. rewrite <- app_assoc. cbn [app].
      rewrite (skip_ws_reparse ws "]" r' Hws Hb). rewrite Ascii.eqb_refl. reflexivity.
    - apply Ascii.eqb_neq in Hclose.
      intros H. destruct (IH _ _ _ _ H) as (a2 & pre2 & E & Hnws & Hbt & _ & Hre).
      injection E as <- ->.
      exists "["%char, (ws ++ b :: pre2)%list.
      split; [rewrite <- app_assoc; reflexivity|].
      split; [reflexivity|].
      split.
      { change ("["%char :: ws ++ b :: pre2)%list
          with (["["%char] ++ ws ++ b :: pre2)%list.
        apply backticks_closed_app; [reflexivity|].
        apply backticks_closed_app; [apply ws_closed, Hws|exact Hbt]. }
      split; [discriminate|].
      intros r' _. cbn [parse]. change (Ascii.eqb "[" DQUOTE) with false.
      change (Ascii.eqb "[" "{") with false.
      rewrite Ascii.eqb_refl. cbn iota. rewrite <- app_assoc. cbn [app].
      rewrite (skip_ws_reparse ws b _ Hws Hb). rewrite Hclose.
      apply Hre. left. reflexivity. }
  apply Ascii.eqb_neq in Hbracket.
  (* a number or a literal *)
  destruct (scan_atom (a :: l)) as [[v0 r0]|] eqn:Ea; [|discriminate].
  intros H. injection H as <- <-.
  destruct (scan_atom_spec _ _ _ Ea) as (a' & pre & E & Hbt & Hnws & _ & Hre).
  injection E as <- ->.
  exists a, pre. split; [reflexivity|]. split; [exact Hnws|].
  split; [apply no_backtick_closed, Hbt|].
  split; [cbn [is_object]; rewrite Hbrace; discriminate|].
  intros r' [Hself|[Hr Hr']].
  - cbn [self_delimited] in Hself. rewrite Hq, Hbrace, Hbracket in Hself. discriminate.
  - cbn [parse]. rewrite Hq, Hbrace, Hbracket. rewrite (Hre Hr r' Hr'). reflexivity.
Qed.

Ltac flatten_app := cbn [app]; repeat (rewrite <- app_assoc; cbn [app]).

Lemma parse_reads_elements (f : nat) :
  (forall m l v r, parse f m l = Parsed v r -> reads f m l v r) ->
  forall acc l v r,
    parse (S f) (Elements acc) l = Parsed v r -> reads (S f) (Elements acc) l v r.
Proof.
  intros IH acc l v r. cbn [parse].
  destruct (parse f Value l) as [v1 r1| |] eqn:Ev; try discriminate.
  destruct (IH _ _ _ _ Ev) as (a & pre & -> & Hnws & Hbt & _ & Hre).
  destruct (skip_ws r1) as [|b r2] eqn:Ews; [discriminate|].
  destruct (skip_ws_cons _ _ _ Ews) as (ws & -> & Hws & Hb).
  destruct (Ascii.eqb_spec b "]"%char) as [->|Hclose].
  - intros H. injection H as <- <-.
    exists a, (pre ++ ws ++ ["]"%char])%list.
    split; [flatten_app; reflexivity|].
    split; [exact Hnws|].
    split.
    { change (a :: pre ++ ws ++ ["]"%char])%list
        with ((a :: pre) ++ ws ++ ["]"%char])%list.
      apply backticks_closed_app; [exact Hbt|].
      apply backticks_closed_app; [apply ws_closed, Hws|reflexivity]. }
    split; [discriminate|].
    intros r' _. cbn [parse]. flatten_app.
    rewrite (Hre (ws ++ "]"%char :: r')%list)
      by (right; split; apply stop_after_ws; auto).
    rewrite (skip_ws_reparse ws "]" r' Hws Hb), Ascii.eqb_refl. reflexivity.
  - apply Ascii.eqb_neq in Hclose.
    destruct (Ascii.eqb_spec b ","%char) as [->|]; [|discriminate].
    intros H. destruct (IH _ _ _ _ H) as (a2 & pre2 & E & Hnws2 & Hbt2 & _ & Hre2).
    destruct (skip_ws_cons _ _ _ E) as (ws2 & -> & Hws2 & _).
    exists a, (pre ++ ws ++ ","%char :: ws2 ++ a2 :: pre2)%list.
    split; [flatten_app; reflexivity|].
    split; [exact Hnws|].
    split.
    { change (a :: pre ++ ws ++ ","%char :: ws2 ++ a2 :: pre2)%list
        with ((a :: pre) ++ ws ++ [","%char] ++ ws2 ++ a2 :: pre2)%list.
      apply backticks_closed_app; [exact Hbt|].
      apply backticks_closed_app; [apply ws_closed, Hws|].
      apply backticks_closed_app; [reflexivity|].
      apply backticks_closed_app; [apply ws_closed, Hws2|exact Hbt2]. }
    split; [discriminate|].
    intros r' _. cbn [parse]. flatten_app.
    rewrite (Hre (ws ++ ","%char :: ws2 ++ a2 :: pre2 ++ r')%list)
      by (right; split; apply stop_after_ws; auto).
    rewrite (skip_ws_reparse ws "," _ Hws Hb), Hclose, Ascii.eqb_refl.
    rewrite (skip_ws_reparse ws2 a2 _ Hws2 Hnws2).
    apply Hre2. left. reflexivity.
Qed.

Lemma parse_reads_members (f : nat) :
  (forall m l v r, parse f m l = Parsed v r -> reads f m l v r) ->
  forall acc l v r,
    parse (S f) (Members acc) l = Parsed v r -> reads (S f) (Members acc) l v r.
Proof.
  intros IH acc l v r. cbn [parse]. destruct l as [|q l]; [discriminate|].
  destruct (Ascii.eqb_spec q DQUOTE) as [->|]; [|discriminate].
  destruct (scanstring l) as [[key r1]|] eqn:Es; [|discriminate].
  destruct (scanstring_spec l key r1 Es) as (body & -> & Hpr & Hkey).
  destruct (skip_ws r1) as [|c r2] eqn:Ews1; [discriminate|].
  destruct (skip_ws_cons _ _ _ Ews1) as (ws1 & -> & Hws1 & Hc).
  destruct (Ascii.eqb_spec c ":"%char) as [->|]; [|discriminate].
  destruct (parse f Value (skip_ws r2)) as [v1 r3| |] eqn:Ev; try discriminate.
  destruct (IH _ _ _ _ Ev) as (a & pre & E & Hnws & Hbt & _ & Hre).
  destruct (skip_ws_cons _ _ _ E) as (ws2 & -> & Hws2 & _).
  destruct (skip_ws r3) as [|b r4] eqn:Ews3; [discriminate|].
  destruct (skip_ws_cons _ _ _ Ews3) as (ws3 & -> & Hws3 & Hb).
  assert (Hhead : backticks_closed
            ((DQUOTE :: body ++ [DQUOTE]) ++ ws1 ++ [":"%char] ++ ws2 ++ (a :: pre) ++ ws3)
          = true).
  { apply backticks_closed_app; [apply string_token_closed, Hpr|].
    apply backticks_closed_app; [apply ws_closed, Hws1|].
    apply backticks_closed_app; [reflexivity|].
    apply backticks_closed_app; [apply ws_closed, Hws2|].
    apply backticks_closed_app; [exact Hbt|apply ws_closed, Hws3]. }
  destruct (Ascii.eqb_spec b "}"%char) as [->|Hclose].
  - intros H. injection H as <- <-.
    exists DQUOTE,
      (body ++ DQUOTE :: ws1 ++ ":"%char :: ws2 ++ a :: pre ++ ws3 ++ ["}"%char])%list.
    split; [flatten_app; reflexivity|].
    split; [reflexivity|].
    split.
    { pose proof (backticks_closed_app _ ["}"%char] Hhead eq_refl) as Hall.
      revert Hall. flatten_app. trivial. }
    split.
    { intros _.
      exists (DQUOTE :: body ++ DQUOTE :: ws1 ++ ":"%char :: ws2 ++ a :: pre ++ ws3)%list.
      flatten_app. reflexivity. }
    intros r' _. cbn [parse]. flatten_app. rewrite Ascii.eqb_refl, Hkey.
    rewrite (skip_ws_reparse ws1 ":" _ Hws1 Hc), Ascii.eqb_refl.
    rewrite (skip_ws_reparse ws2 a _ Hws2 Hnws).
    rewrite (Hre (ws3 ++ "}"%char :: r')%list)
      by (right; split; apply stop_after_ws; auto).
    rewrite (skip_ws_reparse ws3 "}" r' Hws3 Hb), Ascii.eqb_refl. reflexivity.
  - apply Ascii.eqb_neq in Hclose.
    destruct (Ascii.eqb_spec b ","%char) as [->|]; [|discriminate].
    intros H. destruct (IH _ _ _ _ H) as (a5 & pre5 & E5 & Hnws5 & Hbt5 & Hend5 & Hre5).
    destruct (skip_ws_cons _ _ _ E5) as (ws4 & -> & Hws4 & _).
    destruct (Hend5 eq_refl) as (pre' & Epre).
    exists DQUOTE,
      (body ++ DQUOTE :: ws1 ++ ":"%char :: ws2 ++ a :: pre ++ ws3
         ++ ","%char :: ws4 ++ a5 :: pre5)%list.
    split; [flatten_app; reflexivity|].
    split; [reflexivity|].
    split.
    { assert (Hall : backticks_closed
                (((DQUOTE :: body ++ [DQUOTE]) ++ ws1 ++ [":"%char] ++ ws2 ++ (a :: pre) ++ ws3)
                   ++ [","%char] ++ ws4 ++ a5 :: pre5) = true).
      { apply backticks_closed_app; [exact Hhead|].
        apply backticks_closed_app; [reflexivity|].
        apply backticks_closed_app; [apply ws_closed, Hws4|exact Hbt5]. }
      revert Hall. flatten_app. trivial. }
    split.
    { intros _.
      exists (DQUOTE :: body ++ DQUOTE :: ws1 ++ ":"%char :: ws2 ++ a :: pre ++ ws3
                ++ ","%char :: ws4 ++ pre')%list.
      rewrite Epre. flatten_app. reflexivity. }
    intros r' _. cbn [parse]. flatten_app. rewrite Ascii.eqb_refl, Hkey.
    rewrite (skip_ws_reparse ws1 ":" _ Hws1 Hc), Ascii.eqb_refl.
    rewrite (skip_ws_reparse ws2 a _ Hws2 Hnws).
    rewrite (Hre (ws3 ++ ","%char :: ws4 ++ a5 :: pre5 ++ r')%list)
      by (right; split; apply stop_after_ws; auto).
    rewrite (skip_ws_reparse ws3 "," _ Hws3 Hb), Hclose, Ascii.eqb_refl.
    rewrite (skip_ws_reparse ws4 a5 _ Hws4 Hnws5).
    apply Hre5. left. reflexivity.
Qed.

(** Every token the scanner accepts is read as [reads] says. *)
Lemma parse_reads (f : nat) (m : mode) (l : list ascii) (v : value) (r : list ascii) :
  parse f m l = Parsed v r -> reads f m l v r.
Proof.
  revert m l v r. induction f as [|f IH]; intros m l v r; [discriminate|].
  destruct m as [|acc|acc].
  - apply parse_reads_value, IH.
  - apply parse_reads_elements, IH.
  - apply parse_reads_members, IH.
Qed.

(** Only what starts with an opening brace is read as an object. *)
Lemma parse_elements_is_list (f : nat) :
  forall acc l v r, parse f (Elements acc) l = Parsed v r -> is_dict v = false.
Proof.
  induction f as [|f IH]; intros acc l v r; [discriminate|].
  cbn [parse]. destruct (parse f Value l) as [v1 r1| |]; try discriminate.
  destruct (skip_ws r1) as [|b r2]; [discriminate|].
  destruct (Ascii.eqb b "]").
  - intros H. injection H as <- _. reflexivity.
  - destruct (Ascii.eqb b ","); [apply IH|discriminate].
Qed.

Lemma parse_dict_object (f : nat) (l : list ascii) (v : value) (r : list ascii) :
  parse f Value l = Parsed v r -> is_dict v = true -> is_object Value l = true.
Proof.
  destruct f as [|f]; [discriminate|]. cbn [parse is_object].
  destruct l as [|a l]; [discriminate|].
  destruct (Ascii.eqb a DQUOTE).
  { destruct (scanstring l) as [[s r1]|]; [|discriminate].
    intros H. injection H as <- _. discriminate. }
  destruct (Ascii.eqb a "{"); [reflexivity|].
  destruct (Ascii.eqb a "[").
  { destruct (skip_ws l) as [|b r1]; [discriminate|].
    destruct (Ascii.eqb b "]").
    - intros H. injection H as <- _. discriminate.
    - intros H Hd. apply parse_elements_is_list in H. congruence. }
  destruct (scan_atom (a :: l)) as [[v0 r0]|] eqn:Ea; [|discriminate].
  intros H Hd. injection H as <- _.
  destruct (scan_atom_spec _ _ _ Ea) as (a' & pre & _ & _ & _ & Hnd & _). congruence.
Qed.

(** *** Fuel *)

Lemma parse_shorter (f : nat) (m : mode) (l : list ascii) (v : value) (r : list ascii) :
  parse f m l = Parsed v r -> (length r < length l)%nat.
Proof.
  intros H. destruct (parse_reads _ _ _ _ _ H) as (a & pre & -> & _).
  cbn [length]. rewrite length_app. lia.
Qed.

Lemma skip_ws_length (l : list ascii) : (length (skip_ws l) <= length l)%nat.
Proof.
  destruct (skip_ws_split l) as (ws & E & _).
  rewrite E at 2. rewrite length_app. lia.
Qed.

Lemma skip_ws_cons_length (l : list ascii) (b : ascii) (r : list ascii) :
  skip_ws l = b :: r -> (length r < length l)%nat.
Proof.
  intros E. pose proof (skip_ws_length l) as H. rewrite E in H. cbn [length] in H. lia.
Qed.

Lemma scanstring_shorter (l : list ascii) (s : string) (r : list ascii) :
  scanstring l = Some (s, r) -> (length r < length l)%nat.
Proof.
  intros H. destruct (scanstring_spec _ _ _ H) as (body & -> & _).
  rewrite length_app. cbn [length]. lia.
Qed.

(** The fuel a mode needs on a text. *)
Lemma parse_enough_fuel (f : nat) :
  forall m l,
    (match m with Value => 2 * length l + 1 | _ => 2 * length l + 2 end <= f)%nat ->
    parse f m l <> OutOfFuel.
Proof.
  induction f as [|f IH]; intros m l Hf; [destruct m; lia|].
  cbn [parse]. destruct m as [|acc|acc].
  - destruct l as [|a l]; [discriminate|]. cbn [length] in Hf.
    destruct (Ascii.eqb a DQUOTE).
    { destruct (scanstring l) as [[s r1]|]; discriminate. }
    destruct (Ascii.eqb a "{").
    { destruct (skip_ws l) as [|b r1] eqn:E; [discriminate|].
      pose proof (skip_ws_length l) as Hl. rewrite E in Hl.
      destruct (Ascii.eqb b "}"); [discriminate|].
      destruct (Ascii.eqb b DQUOTE); [|discriminate].
      apply IH. lia. }
    destruct (Ascii.eqb a "[").
    { destruct (skip_ws l) as [|b r1] eqn:E; [discriminate|].
      pose proof (skip_ws_length l) as Hl. rewrite E in Hl.
      destruct (Ascii.eqb b "]"); [discriminate|].
      apply IH. lia. }
    destruct (scan_atom (a :: l)) as [[v0 r0]|]; discriminate.
  - destruct (parse f Value l) as [v1 r1| |] eqn:Ev.
    + apply parse_shorter in Ev.
      destruct (skip_ws r1) as [|b r2] eqn:E; [discriminate|].
      apply skip_ws_cons_length in E.
      destruct (Ascii.eqb b "]"); [discriminate|].
      destruct (Ascii.eqb b ","); [|discriminate].
      apply IH. pose proof (skip_ws_length r2). lia.
    + discriminate.
    + exfalso. apply (IH Value l); [lia|exact Ev].
  - destruct l as [|a l]; [discriminate|]. cbn [length] in Hf.
    destruct (Ascii.eqb a DQUOTE); [|discriminate].
    destruct (scanstring l) as [[key r1]|] eqn:Es; [|discriminate].
    apply scanstring_shorter in Es.
    destruct (skip_ws r1) as [|c r2] eqn:E1; [discriminate|].
    apply skip_ws_cons_length in E1.
    destruct (Ascii.eqb c ":"); [|discriminate].
    pose proof (skip_ws_length r2) as H2.
    destruct (parse f Value (skip_ws r2)) as [v1 r3| |] eqn:Ev.
    + apply parse_shorter in Ev.
      destruct (skip_ws r3) as [|b r4] eqn:E3; [discriminate|].
      apply skip_ws_cons_length in E3.
      destruct (Ascii.eqb b "}"); [discriminate|].
      destruct (Ascii.eqb b ","); [|discriminate].
      apply IH. pose proof (skip_ws_length r4). lia.
    + discriminate.
    + exfalso. apply (IH Value (skip_ws r2)); [lia|exact Ev].
Qed.

(** [json_loads] never runs out of fuel. *)
Lemma parse_fuel_enough (l : list ascii) : parse (parse_fuel l) Value l <> OutOfFuel.
Proof. apply parse_enough_fuel. unfold parse_fuel. lia. Qed.

(** More fuel does not change a result. *)
Lemma parse_more_fuel (f : nat) :
  forall f' m l,
    (f <= f')%nat -> parse f m l <> OutOfFuel -> parse f' m l = parse f m l.
Proof.
  induction f as [|f IH]; intros f' m l Hle Hne; [cbn [parse] in Hne; congruence|].
  destruct f' as [|f']; [lia|]. assert (Hle' : (f <= f')%nat) by lia.
  cbn [parse] in *. destruct m as [|acc|acc].
  - destruct l as [|a l]; [reflexivity|].
    destruct (Ascii.eqb a DQUOTE); [reflexivity|].
    destruct (Ascii.eqb a "{").
    { destruct (skip_ws l) as [|b r1]; [reflexivity|].
      destruct (Ascii.eqb b "}"); [reflexivity|].
      destruct (Ascii.eqb b DQUOTE); [|reflexivity].
      apply IH; assumption. }
    destruct (Ascii.eqb a "["); [|reflexivity].
    destruct (skip_ws l) as [|b r1]; [reflexivity|].
    destruct (Ascii.eqb b "]"); [reflexivity|].
    apply IH; assumption.
  - assert (Hv : parse f' Value l = parse f Value l).
    { apply IH; [assumption|]. intros E. rewrite E in Hne. congruence. }
    rewrite Hv. destruct (parse f Value l) as [v1 r1| |]; try reflexivity.
    destruct (skip_ws r1) as [|b r2]; [reflexivity|].
    destruct (Ascii.eqb b "]"); [reflexivity|].
    destruct (Ascii.eqb b ","); [|reflexivity].
    apply IH; assumption.
  - destruct l as [|a l]; [reflexivity|].
    destruct (Ascii.eqb a DQUOTE); [|reflexivity].
    destruct (scanstring l) as [[key r1]|]; [|reflexivity].
    destruct (skip_ws r1) as [|c r2]; [reflexivity|].
    destruct (Ascii.eqb c ":"); [|reflexivity].
    assert (Hv : parse f' Value (skip_ws r2) = parse f Value (skip_ws r2)).
    { apply IH; [assumption|]. intros E. rewrite E in Hne. congruence. }
    rewrite Hv. destruct (parse f Value (skip_ws r2)) as [v1 r3| |]; try reflexivity.
    destruct (skip_ws r3) as [|b r4]; [reflexivity|].
    destruct (Ascii.eqb b "}"); [reflexivity|].
    destruct (Ascii.eqb b ","); [|reflexivity].
    apply IH; assumption.
Qed.

(** *** What [json_loads] accepts *)

Lemma skip_ws_nil (l : list ascii) : skip_ws l = [] -> forallb is_ws l = true.
Proof.
  intros E. destruct (skip_ws_split l) as (ws & El & Hws & _).
  rewrite E, app_nil_r in El. rewrite El. exact Hws.
Qed.

Lemma ws_head_is_stop (ws : list ascii) : forallb is_ws ws = true -> head_is is_stop ws = true.
Proof.
  destruct ws as [|a ws]; [reflexivity|]. cbn [forallb head_is].
  intros H. apply andb_prop in H. apply is_ws_is_stop, H.
Qed.

(** A text that [json_loads] accepts is one token between whitespace; the
    token alone decodes to the same value. *)
Lemma json_loads_token (s : string) (v : value) :
  json_loads s = Ok v ->
  exists ws a pre ws',
    chars s = (ws ++ (a :: pre) ++ ws')%list
    /\ forallb is_ws ws = true
    /\ forallb is_ws ws' = true
    /\ backticks_closed (a :: pre) = true
    /\ (is_dict v = true ->
        a = "{"%char /\ exists pre', (a :: pre) = (pre' ++ ["}"%char])%list)
    /\ json_loads (text (a :: pre)) = Ok v.
Proof.
  unfold json_loads at 1. cbv zeta.
  destruct (skip_ws_split (chars s)) as (ws & Es & Hws & _).
  set (l0 := skip_ws (chars s)) in *.
  destruct (parse (parse_fuel l0) Value l0) as [v0 r| |] eqn:Ep; try discriminate.
  destruct (skip_ws r) as [|b r'] eqn:Er; [|discriminate].
  intros H. injection H as <-.
  apply skip_ws_nil in Er.
  pose proof (parse_dict_object _ _ _ _ Ep) as Hobj.
  destruct (parse_reads _ _ _ _ _ Ep) as (a & pre & El & Hnws & Hbt & Hend & Hre).
  exists ws, a, pre, r.
  split; [rewrite Es at 1; rewrite El; reflexivity|].
  split; [exact Hws|]. split; [exact Er|]. split; [exact Hbt|].
  split.
  { intros Hd. specialize (Hobj Hd). split; [|apply Hend, Hobj].
    rewrite El in Hobj. cbn [is_object] in Hobj. apply Ascii.eqb_eq, Hobj. }
  unfold json_loads. rewrite chars_text. cbn [skip_ws]. rewrite Hnws.
  assert (Hp : parse (parse_fuel l0) Value (a :: pre) = Parsed v0 []).
  { rewrite <- (app_nil_r pre) at 1. apply Hre. right.
    split; [apply ws_head_is_stop, Er|reflexivity]. }
  rewrite <- (parse_more_fuel (parse_fuel (a :: pre)) (parse_fuel l0)), Hp.
  - reflexivity.
  - unfold parse_fuel. rewrite El. cbn [length]. rewrite length_app. lia.
  - apply parse_fuel_enough.
Qed.


(** *** Fences *)





(** *** [find], [rfind] and slices *)

Lemma find_from_first (c : ascii) (x rest : list ascii) (i : Z) :
  forallb (fun a => negb (Ascii.eqb a c)) x = true ->
  find_from c (x ++ c :: rest) i = i + Z.of_nat (length x).
Proof.
  revert i. induction x as [|a x IH]; intros i; cbn [forallb find_from app length].
  - intros _. rewrite Ascii.eqb_refl. lia.
  - intros H. apply andb_prop in H. destruct H as [Ha Hx]. apply negb_true_iff in Ha.
    rewrite Ha, (IH _ Hx). lia.
Qed.

Lemma rfind_from_app (c : ascii) (x y : list ascii) (i last : Z) :
  rfind_from c (x ++ y) i last
  = rfind_from c y (i + Z.of_nat (length x)) (rfind_from c x i last).
Proof.
  revert i last. induction x as [|a x IH]; intros i last; cbn [rfind_from app length].
  - f_equal. lia.
  - rewrite IH. f_equal. lia.
Qed.

Lemma rfind_from_none (c : ascii) (y : list ascii) (i last : Z) :
  forallb (fun a => negb (Ascii.eqb a c)) y = true -> rfind_from c y i last = last.
Proof.
  revert i last. induction y as [|a y IH]; intros i last; cbn [forallb rfind_from].
  - reflexivity.
  - intros H. apply andb_prop in H. destruct H as [Ha Hy]. apply negb_true_iff in Ha.
    rewrite Ha. apply IH, Hy.
Qed.

Lemma rfind_from_last (c : ascii) (x y : list ascii) (i last : Z) :
  forallb (fun a => negb (Ascii.eqb a c)) y = true ->
  rfind_from c (x ++ c :: y) i last = i + Z.of_nat (length x).
Proof.
  intros Hy. rewrite rfind_from_app. cbn [rfind_from]. rewrite Ascii.eqb_refl.
  apply rfind_from_none, Hy.
Qed.

Lemma slice_middle (x core y : list ascii) (t : string) :
  chars t = (x ++ core ++ y)%list ->
  str_slice t (Z.of_nat (length x)) (Z.of_nat (length x) + Z.of_nat (length core))
  = text core.
Proof.
  intros E. unfold str_slice. rewrite E. f_equal.
  replace (Z.of_nat (length x) + Z.of_nat (length core) - Z.of_nat (length x))
    with (Z.of_nat (length core)) by lia.
  rewrite !Nat2Z.id.
  rewrite skipn_app, skipn_all, Nat.sub_diag. cbn [skipn app].
  rewrite firstn_app, firstn_all, Nat.sub_diag. cbn [firstn]. apply app_nil_r.
Qed.

Lemma brace_free_split (l : list ascii) :
  forallb (fun a => negb (Ascii.eqb a "{") && negb (Ascii.eqb a "}")) l = true ->
  forallb (fun a => negb (Ascii.eqb a "{")) l = true
  /\ forallb (fun a => negb (Ascii.eqb a "}")) l = true.
Proof.
  induction l as [|a l IH]; cbn [forallb]; [split; reflexivity|].
  intros H. apply andb_prop in H. destruct H as [Ha Hl].
  apply andb_prop in Ha. destruct Ha as [Ho Hc]. destruct (IH Hl) as [IHo IHc].
  rewrite Ho, Hc, IHo, IHc. split; reflexivity.
Qed.

Lemma ws_brace_free (ws : list ascii) :
  forallb is_ws ws = true ->
  forallb (fun a => negb (Ascii.eqb a "{") && negb (Ascii.eqb a "}")) ws = true.
Proof.
  induction ws as [|a ws IH]; cbn [forallb]; [reflexivity|].
  intros H. apply andb_prop in H. destruct H as [Ha Hws]. rewrite (IH Hws), andb_true_r.
  destruct (Ascii.eqb_spec a "{"%char) as [->|]; [discriminate Ha|].
  destruct (Ascii.eqb_spec a "}"%char) as [->|]; [discriminate Ha|reflexivity].
Qed.

(** The text from the first opening brace to the last closing one, when the
    braces of the text are those of one object. *)
Lemma slice_of_braces (x pre' y : list ascii) (t : string) :
  chars t = (x ++ ("{"%char :: pre' ++ ["}"%char]) ++ y)%list ->
  forallb (fun a => negb (Ascii.eqb a "{") && negb (Ascii.eqb a "}")) x = true ->
  forallb (fun a => negb (Ascii.eqb a "{") && negb (Ascii.eqb a "}")) y = true ->
  let start := str_find t "{" in
  let end_ := str_rfind t "}" in
  negb (start =? -1) && negb (end_ =? -1) && (end_ >? start) = true
  /\ str_slice t start (end_ + 1) = text ("{"%char :: pre' ++ ["}"%char]).
Proof.
  intros E Hx Hy. cbv zeta.
  apply brace_free_split in Hx. destruct Hx as [Hx _].
  apply brace_free_split in Hy. destruct Hy as [_ Hy].
  assert (Estart : str_find t "{" = Z.of_nat (length x)).
  { unfold str_find. rewrite E. cbn [app]. rewrite (find_from_first _ _ _ _ Hx). lia. }
  assert (Eend : str_rfind t "}" = Z.of_nat (length x) + Z.of_nat (S (length pre'))).
  { unfold str_rfind. rewrite E.
    replace (x ++ ("{"%char :: pre' ++ ["}"%char]) ++ y)%list
      with ((x ++ "{"%char :: pre') ++ "}"%char :: y)%list
      by (flatten_app; reflexivity).
    rewrite (rfind_from_last _ _ _ _ _ Hy), length_app. cbn [length]. lia. }
  rewrite Estart, Eend. split.
  - apply andb_true_intro. split; [apply andb_true_intro; split|].
    + apply negb_true_iff, Z.eqb_neq. lia.
    + apply negb_true_iff, Z.eqb_neq. lia.
    + apply Z.gtb_lt. lia.
  - rewrite <- (slice_middle x ("{"%char :: pre' ++ ["}"%char]) y t E).
    f_equal. cbn [length]. rewrite length_app. cbn [length]. lia.
Qed.

(** *** Fenced answers *)




(** * Further properties: the stored trips *)

(** ** What the readers answer *)

Lemma get_trip_run env trip_id user w :
  get_trip env trip_id user w
  = (get_trip_outcome (db w) trip_id user, closed_session (fresh_session w)).
Proof.
  unfold get_trip, get_trip_outcome, with_session, bind, session_get_trip, lookup_trip.
  cbn [db pending commits snapshots net_log].
  destruct (find _ (trip_rows (db w))) as [trip|]; [|reflexivity].
  destruct (negb (opt_str_eqb (Trip.user_id trip) user)); [reflexivity|].
  unfold select_days, raise, ret. cbn [db pending commits snapshots net_log].
  destruct (opt_str_truthy (Trip.budget_breakdown trip)); reflexivity.
Qed.

Lemma delete_trip_run env trip_id user w :
  delete_trip env trip_id user w
  = match lookup_trip (db w) trip_id with
    | None => (Raise (HTTPException 404), closed_session (fresh_session w))
    | Some trip =>
        if negb (opt_str_eqb (Trip.user_id trip) user)
        then (Raise (HTTPException 404), closed_session (fresh_session w))
        else if commit_fails env 0
             then (Raise OperationalError,
                   {| db := db w; pending := []; commits := 1; snapshots := [];
                      net_log := net_log w |})
             else (Ok trip_id,
                   {| db := without_trip (db w) trip_id; pending := []; commits := 1;
                      snapshots := [without_trip (db w) trip_id];
                      net_log := net_log w |})
    end.
Proof.
  unfold delete_trip, with_session, bind, session_get_trip, lookup_trip.
  cbn [db pending commits snapshots net_log].
  destruct (find _ (trip_rows (db w))) as [trip|]; [|reflexivity].
  destruct (negb (opt_str_eqb (Trip.user_id trip) user)); [reflexivity|].
  unfold delete_rows, ret. cbn [db pending commits snapshots net_log].
  destruct (commit_fails env 0); reflexivity.
Qed.

Lemma list_trips_run user w :
  list_trips user w
  = (pmap trip_summary
       (filter (fun r => opt_str_eqb (Trip.user_id r) user) (trip_rows (db w))),
     closed_session (fresh_session w)).
Proof. reflexivity. Qed.

Lemma opt_str_eqb_eq (a : option string) (b : string) :
  opt_str_eqb a b = true <-> a = Some b.
Proof.
  destruct a as [a|]; cbn [opt_str_eqb].
  - rewrite String.eqb_eq. split; congruence.
  - split; discriminate.
Qed.

Lemma find_absent {A} (p : A -> bool) (l : list A) :
  (forall x, In x l -> p x = false) -> find p l = None.
Proof.
  induction l as [|x l IH]; cbn [find]; intros H; [reflexivity|].
  rewrite (H x (or_introl eq_refl)). apply IH. intros y Hy. apply H. now right.
Qed.

Lemma find_filter {A} (p q : A -> bool) (l : list A) :
  (forall x, In x l -> p x = true -> q x = true) -> find p (filter q l) = find p l.
Proof.
  induction l as [|x l IH]; cbn [find filter]; intros H; [reflexivity|].
  assert (IH' : find p (filter q l) = find p l)
    by (apply IH; intros y Hy; apply H; now right).
  destruct (p x) eqn:Hp.
  - rewrite (H x (or_introl eq_refl) Hp). cbn [find]. rewrite Hp. reflexivity.
  - destruct (q x); [cbn [find]; rewrite Hp|]; exact IH'.
Qed.

Lemma filter_filter_keep {A} (p q : A -> bool) (l : list A) :
  (forall x, In x l -> p x = true -> q x = true) -> filter p (filter q l) = filter p l.
Proof.
  induction l as [|x l IH]; cbn [filter]; intros H; [reflexivity|].
  assert (IH' : filter p (filter q l) = filter p l)
    by (apply IH; intros y Hy; apply H; now right).
  destruct (p x) eqn:Hp.
  - rewrite (H x (or_introl eq_refl) Hp). cbn [filter]. rewrite Hp, IH'. reflexivity.
  - destruct (q x); [cbn [filter]; rewrite Hp|]; exact IH'.
Qed.

(** ** The days of a loaded plan are sorted *)

Lemma insert_by_day_number_perm (d : Day.t) (l : list Day.t) :
  Permutation (insert_by_day_number d l) (d :: l).
Proof.
  induction l as [|d' l IH]; cbn [insert_by_day_number]; [reflexivity|].
  destruct (Day.day_number d <=? Day.day_number d'); [reflexivity|].
  rewrite IH. apply perm_swap.
Qed.

Lemma order_by_day_number_perm (l : list Day.t) : Permutation (order_by_day_number l) l.
Proof.
  unfold order_by_day_number. induction l as [|d l IH]; cbn [fold_right]; [reflexivity|].
  rewrite insert_by_day_number_perm. apply perm_skip, IH.
Qed.

Lemma insert_by_day_number_sorted (d : Day.t) (l : list Day.t) :
  Sorted Z.le (map Day.day_number l) ->
  Sorted Z.le (map Day.day_number (insert_by_day_number d l)).
Proof.
  induction l as [|d' l IH]; cbn [insert_by_day_number map]; intros H.
  - repeat constructor.
  - destruct (Z.leb_spec (Day.day_number d) (Day.day_number d')) as [Hle|Hgt].
    + cbn [map]. constructor; [exact H|]. constructor. exact Hle.
    + cbn [map]. inversion H as [|? ? Hs Hh]; subst. constructor; [apply IH, Hs|].
      destruct l as [|d'' l]; cbn [insert_by_day_number map].
      * constructor. lia.
      * destruct (Day.day_number d <=? Day.day_number d''); cbn [map]; constructor.
        -- lia.
        -- inversion Hh; subst. assumption.
Qed.

Lemma order_by_day_number_sorted (l : list Day.t) :
  Sorted Z.le (map Day.day_number (order_by_day_number l)).
Proof.
  unfold order_by_day_number. induction l as [|d l IH]; cbn [fold_right map].
  - constructor.
  - apply insert_by_day_number_sorted, IH.
Qed.

Lemma get_trip_ok_inv env trip_id user w plan w' :
  get_trip env trip_id user w = (Ok plan, w') ->
  exists trip,
    lookup_trip (db w) trip_id = Some trip
    /\ Trip.user_id trip = Some user
    /\ plan = loaded_plan trip (days_of (db w) trip_id).
Proof.
  rewrite get_trip_run. unfold get_trip_outcome.
  destruct (lookup_trip (db w) trip_id) as [trip|]; [|discriminate].
  destruct (opt_str_eqb (Trip.user_id trip) user) eqn:Hu; [|discriminate].
  cbn [negb]. destruct (opt_str_truthy _); [discriminate|].
  intros H. injection H as <- _. exists trip.
  split; [reflexivity|]. split; [apply opt_str_eqb_eq, Hu|reflexivity].
Qed.

(** X1.  Whenever [get_trip] returns a plan, its days are in non-decreasing
    order of day number and are exactly the stored Day rows of the trip, each
    read back as [reload_day] says, whatever the order the rows were written
    in. *)
Theorem get_trip_days_in_order :
  forall (env : Env) (trip_id : Z) (user : string) (w : World)
         (plan : TripPlan.t) (w' : World),
    get_trip env trip_id user w = (Ok plan, w') ->
    Sorted Z.le (map DayPlan.day (TripPlan.daily_plan plan))
    /\ Permutation (TripPlan.daily_plan plan)
                   (map reload_day (days_of (db w) trip_id)).
Proof.
  intros env trip_id user w plan w' H.
  destruct (get_trip_ok_inv _ _ _ _ _ _ H) as (trip & _ & _ & ->).
  cbn [loaded_plan TripPlan.daily_plan]. split.
  - rewrite map_map. cbn [reload_day DayPlan.day].
    apply order_by_day_number_sorted.
  - apply Permutation_map, order_by_day_number_perm.
Qed.

Lemma get_trip_days_in_order_witness :
  Sorted Z.le [1; 2; 3]
  /\ Permutation
       [DayPlan.mk 1 "East" "Temples." ["Kiyomizu-dera"];
        DayPlan.mk 2 "North" "Gardens." ["Kinkaku-ji"];
        DayPlan.mk 3 "South" "Shrines." ["Fushimi Inari"]]
       (map reload_day (days_of (db shuffled_world) 1)).
Proof.
  apply (get_trip_days_in_order bare_env 1 "alice" shuffled_world
           (loaded_plan (Trip.mk (Some 1) (Some "alice") None "Kyoto" 3 "medium" 2 None
                           "Three days." "Pack light" None None None None None None)
                        (days_of shuffled_db 1))
           (closed_session (fresh_session shuffled_world))).
  vm_compute. reflexivity.
Defined.

(** ** A trip just planned *)


Lemma lookup_saved_trip (d : Db) (row : Trip.t) (rows : list Day.t) :
  lookup_trip (days_saved (header_saved d row) rows) (new_trip_id d)
  = Some (Trip.with_id (new_trip_id d) row).
Proof. apply find_saved_trip. Qed.

(** X2.  A plan that [plan_trip] saved with a budget breakdown cannot be read
    back: for the user who planned it, [get_trip] raises [NameError] (the
    module-level name [json] is unbound in [get_trip]), whenever the text stored
    for the breakdown is not empty. *)
Theorem saved_breakdown_is_never_loaded :
  forall (env : Env) (request : TripRequest.t) (user : string) (w : World)
         (plan : TripPlan.t) (w' : World) (trip_id : Z) (breakdown : dict),
    plan_trip env request user w = (Ok plan, w') ->
    TripPlan.id plan = Some trip_id ->
    TripPlan.budget_breakdown plan = Some breakdown ->
    breakdown <> [] ->
    str_truthy (json_dumps env breakdown) = true ->
    fst (get_trip env trip_id user w') = Raise NameError.
Proof.
  intros env request user w plan w' trip_id breakdown Hrun Hid Hbd Hne Hdump.
  destruct (plan_trip_ok_inv _ _ _ _ _ _ Hrun) as (plan0 & -> & Hdb).
  cbn [TripPlan.with_id TripPlan.id TripPlan.budget_breakdown] in Hid, Hbd.
  injection Hid as <-.
  rewrite get_trip_run. cbn [fst]. unfold get_trip_outcome.
  rewrite Hdb, lookup_saved_trip.
  cbn [Trip.with_id Trip.user_id Trip.budget_breakdown header_row
       TripRequest.with_user_id TripRequest.user_id opt_str_eqb].
  rewrite String.eqb_refl, Hbd. cbn [negb].
  destruct breakdown as [|kv breakdown]; [contradiction|].
  cbn [dict_truthy option_map opt_str_truthy configured]. rewrite Hdump. reflexivity.
Qed.

Lemma saved_breakdown_is_never_loaded_witness :
  fst (get_trip env_breakdown 1 "alice"
         (snd (plan_trip env_breakdown kyoto_request "alice" empty_world)))
  = Raise NameError.
Proof.
  apply (saved_breakdown_is_never_loaded env_breakdown kyoto_request "alice" empty_world
           (match fst (plan_trip env_breakdown kyoto_request "alice" empty_world) with
            | Ok p => p
            | Raise _ => kyoto_placeholder
            end)
           (snd (plan_trip env_breakdown kyoto_request "alice" empty_world)) 1
           [("food", VInt 1500); ("total", VInt 1500)]);
    try (vm_compute; reflexivity).
  discriminate.
Defined.

(** X3.  A trip is private to the user who planned it: for any other user
    [get_trip] and [delete_trip] answer 404 under its key, and [delete_trip]
    leaves the database as it is. *)
Theorem planned_trip_is_private :
  forall (env : Env) (request : TripRequest.t) (user other : string) (w : World)
         (plan : TripPlan.t) (w' : World) (trip_id : Z),
    plan_trip env request user w = (Ok plan, w') ->
    TripPlan.id plan = Some trip_id ->
    other <> user ->
    fst (get_trip env trip_id other w') = Raise (HTTPException 404)
    /\ fst (delete_trip env trip_id other w') = Raise (HTTPException 404)
    /\ db (snd (delete_trip env trip_id other w')) = db w'.
Proof.
  intros env request user other w plan w' trip_id Hrun Hid Hother.
  destruct (plan_trip_ok_inv _ _ _ _ _ _ Hrun) as (plan0 & -> & Hdb).
  cbn [TripPlan.with_id TripPlan.id] in Hid. injection Hid as <-.
  assert (Hu : opt_str_eqb
                 (Trip.user_id
                    (Trip.with_id (new_trip_id (db w))
                       (header_row env (TripRequest.with_user_id (Some user) request) plan0)))
                 other = false).
  { cbn [Trip.with_id Trip.user_id header_row TripRequest.with_user_id
         TripRequest.user_id opt_str_eqb].
    apply String.eqb_neq. congruence. }
  rewrite get_trip_run, delete_trip_run. unfold get_trip_outcome.
  rewrite Hdb, lookup_saved_trip, Hu. cbn [negb fst snd].
  repeat split. exact Hdb.
Qed.

Lemma planned_trip_is_private_witness :
  fst (get_trip bare_env 1 "bob"
         (snd (plan_trip bare_env kyoto_request "alice" empty_world)))
  = Raise (HTTPException 404)
  /\ fst (delete_trip bare_env 1 "bob"
            (snd (plan_trip bare_env kyoto_request "alice" empty_world)))
     = Raise (HTTPException 404)
  /\ db (snd (delete_trip bare_env 1 "bob"
                (snd (plan_trip bare_env kyoto_request "alice" empty_world))))
     = db (snd (plan_trip bare_env kyoto_request "alice" empty_world)).
Proof.
  apply (planned_trip_is_private bare_env kyoto_request "alice" "bob" empty_world
           kyoto_placeholder (snd (plan_trip bare_env kyoto_request "alice" empty_world)) 1).
  - vm_compute. reflexivity.
  - reflexivity.
  - discriminate.
Defined.

(** ** Deleting a trip *)




Lemma lookup_without_trip_same (d : Db) (trip_id : Z) :
  lookup_trip (without_trip d trip_id) trip_id = None.
Proof.
  unfold lookup_trip, without_trip. cbn [trip_rows]. apply find_absent.
  intros t Ht. apply filter_In in Ht. destruct Ht as [_ Ht].
  apply negb_true_iff, Ht.
Qed.

Lemma lookup_without_trip_other (d : Db) (i j : Z) :
  j <> i -> lookup_trip (without_trip d i) j = lookup_trip d j.
Proof.
  intros Hj. unfold lookup_trip, without_trip. cbn [trip_rows]. apply find_filter.
  intros t _. destruct (Trip.id t) as [k|]; [|discriminate].
  intros Hk. apply Z.eqb_eq in Hk. subst k. apply negb_true_iff, Z.eqb_neq, Hj.
Qed.

Lemma days_of_without_trip_same (d : Db) (trip_id : Z) :
  days_of (without_trip d trip_id) trip_id = [].
Proof.
  unfold days_of, without_trip. cbn [day_rows]. apply filter_none.
  intros r Hr. apply filter_In in Hr. destruct Hr as [_ Hr].
  apply negb_true_iff, Hr.
Qed.

Lemma days_of_without_trip_other (d : Db) (i j : Z) :
  j <> i -> days_of (without_trip d i) j = days_of d j.
Proof.
  intros Hj. unfold days_of, without_trip. cbn [day_rows]. apply filter_filter_keep.
  intros r _ Hr. apply Z.eqb_eq in Hr. rewrite Hr.
  apply negb_true_iff, Z.eqb_neq, Hj.
Qed.

Lemma delete_trip_ok_inv env trip_id user w r w' :
  delete_trip env trip_id user w = (Ok r, w') ->
  r = trip_id /\ db w' = without_trip (db w) trip_id
  /\ exists trip, lookup_trip (db w) trip_id = Some trip /\ Trip.user_id trip = Some user.
Proof.
  rewrite delete_trip_run.
  destruct (lookup_trip (db w) trip_id) as [trip|]; [|discriminate].
  destruct (opt_str_eqb (Trip.user_id trip) user) eqn:Hu; [|discriminate].
  cbn [negb]. destruct (commit_fails env 0); [discriminate|].
  intros H. injection H as <- <-. split; [reflexivity|]. split; [reflexivity|].
  exists trip. split; [reflexivity|apply opt_str_eqb_eq, Hu].
Qed.

(** X5.  After a successful [delete_trip] the trip is gone for every user
    ([get_trip] answers 404 and no Day row of the trip is left), while every
    other trip is read exactly as before the deletion. *)
Theorem delete_trip_removes_only_that_trip :
  forall (env : Env) (trip_id : Z) (user : string) (w : World) (r : Z) (w' : World),
    delete_trip env trip_id user w = (Ok r, w') ->
    r = trip_id
    /\ (forall reader, fst (get_trip env trip_id reader w') = Raise (HTTPException 404))
    /\ days_of (db w') trip_id = []
    /\ (forall other reader,
          other <> trip_id ->
          fst (get_trip env other reader w') = fst (get_trip env other reader w)).
Proof.
  intros env trip_id user w r w' H.
  destruct (delete_trip_ok_inv _ _ _ _ _ _ H) as (-> & Hdb & _).
  split; [reflexivity|]. split; [|split].
  - intros reader. rewrite get_trip_run. cbn [fst]. unfold get_trip_outcome.
    rewrite Hdb, lookup_without_trip_same. reflexivity.
  - rewrite Hdb. apply days_of_without_trip_same.
  - intros other reader Hother. rewrite !get_trip_run. cbn [fst].
    unfold get_trip_outcome.
    rewrite Hdb, lookup_without_trip_other, days_of_without_trip_other by exact Hother.
    reflexivity.
Qed.

Lemma delete_trip_removes_only_that_trip_witness :
  1 = 1
  /\ (forall reader,
        fst (get_trip bare_env 1 reader
               (snd (delete_trip bare_env 1 "alice" shuffled_world)))
        = Raise (HTTPException 404))
  /\ days_of (db (snd (delete_trip bare_env 1 "alice" shuffled_world))) 1 = []
  /\ (forall other reader,
        other <> 1 ->
        fst (get_trip bare_env other reader
               (snd (delete_trip bare_env 1 "alice" shuffled_world)))
        = fst (get_trip bare_env other reader shuffled_world)).
Proof.
  apply (delete_trip_removes_only_that_trip bare_env 1 "alice" shuffled_world 1
           (snd (delete_trip bare_env 1 "alice" shuffled_world))).
  vm_compute. reflexivity.
Defined.

(** ** Every Day row belongs to a Trip row *)

Lemma db_wf_header_saved (d : Db) (row : Trip.t) : db_wf d -> db_wf (header_saved d row).
Proof.
  unfold db_wf. rewrite header_saved_rows. cbn [trip_rows day_rows].
  intros H. eapply Forall_impl; [|exact H]. cbv beta.
  intros r (t & Ht & Hid). exists t. split; [|exact Hid]. apply in_or_app. now left.
Qed.

Lemma db_wf_days_saved (d : Db) (rows : list Day.t) (i : Z) :
  db_wf d -> has_trip d i -> (forall r, In r rows -> Day.trip_id r = i) ->
  db_wf (days_saved d rows).
Proof.
  unfold db_wf, days_saved. rewrite flush_days. cbn [trip_rows day_rows].
  intros H Hi Hrows. apply Forall_app. split; [exact H|].
  apply Forall_forall. intros r Hr.
  rewrite (stamp_days_trip_id _ _ i Hrows r Hr). exact Hi.
Qed.

Lemma db_wf_without_trip (d : Db) (trip_id : Z) : db_wf d -> db_wf (without_trip d trip_id).
Proof.
  unfold db_wf, without_trip. cbn [trip_rows day_rows]. rewrite !Forall_forall.
  intros H r Hr. apply filter_In in Hr. destruct Hr as [Hr Hne].
  destruct (H r Hr) as (t & Ht & Hid). exists t. split; [|exact Hid].
  apply filter_In. split; [exact Ht|]. rewrite Hid. exact Hne.
Qed.

(** X6.  [plan_trip] and [delete_trip] keep the database well-formed: if every
    Day row belongs to a Trip row before the request, the same holds after it,
    whether the request succeeds, fails before its first commit or fails
    between its two commits. *)
Theorem requests_keep_days_attached :
  forall (env : Env) (request : TripRequest.t) (trip_id : Z) (user : string) (w : World),
    db_wf (db w) ->
    db_wf (db (snd (plan_trip env request user w)))
    /\ db_wf (db (snd (delete_trip env trip_id user w))).
Proof.
  intros env request trip_id user w Hwf. split.
  - destruct (plan_trip_run env request user w) as (r0 & calls & _ & ->).
    set (rq := TripRequest.with_user_id (Some user) request).
    destruct r0 as [plan|e]; [|exact Hwf].
    unfold save_outcome. simpl commits. simpl db.
    destruct (commit_fails env 0); [exact Hwf|].
    destruct (commit_fails env 1); cbn [snd closed_session db].
    + apply db_wf_header_saved, Hwf.
    + apply (db_wf_days_saved _ _ (new_trip_id (db w))).
      * apply db_wf_header_saved, Hwf.
      * apply has_trip_header_saved.
      * intros r Hr. apply in_map_iff in Hr. destruct Hr as (p & <- & _). reflexivity.
  - rewrite delete_trip_run.
    destruct (lookup_trip (db w) trip_id) as [trip|]; [|exact Hwf].
    destruct (negb (opt_str_eqb (Trip.user_id trip) user)); [exact Hwf|].
    destruct (commit_fails env 0); [exact Hwf|].
    cbn [snd db]. apply db_wf_without_trip, Hwf.
Qed.

Lemma requests_keep_days_attached_witness :
  db_wf (db (snd (plan_trip env_second_commit_refused kyoto_request "alice" shuffled_world)))
  /\ db_wf (db (snd (delete_trip env_second_commit_refused 1 "alice" shuffled_world))).
Proof.
  apply (requests_keep_days_attached env_second_commit_refused kyoto_request 1 "alice"
           shuffled_world).
  unfold db_wf. cbn [db shuffled_world shuffled_db day_rows trip_rows].
  repeat constructor;
    (eexists; split; [left; reflexivity|reflexivity]).
Defined.

(** ** Listing the trips of a user *)

Lemma pmap_ok_in {A B} (f : A -> pyres B) (l : list A) (l' : list B) :
  pmap f l = Ok l' -> forall b, In b l' <-> exists a, In a l /\ f a = Ok b.
Proof.
  revert l'. induction l as [|a l IH]; cbn [pmap pbind]; intros l' H b.
  - injection H as <-. split; [contradiction|]. intros (a & [] & _).
  - destruct (f a) as [b0|e] eqn:Ea; [|discriminate]. cbn [pbind] in H.
    destruct (pmap f l) as [bs|e]; [|discriminate]. cbn [pbind] in H.
    injection H as <-. specialize (IH bs eq_refl b). cbn [In]. split.
    + intros [<-|Hb]; [exists a; split; [now left|exact Ea]|].
      apply IH in Hb. destruct Hb as (a' & Ha' & E). exists a'. split; [now right|exact E].
    + intros (a' & [<-|Ha'] & E); [left; congruence|].
      right. apply IH. exists a'. split; assumption.
Qed.

Lemma pmap_app {A B} (f : A -> pyres B) (l1 l2 : list A) :
  pmap f (l1 ++ l2)
  = pbind (pmap f l1) (fun a => pbind (pmap f l2) (fun b => Ok (a ++ b)%list)).
Proof.
  induction l1 as [|a l1 IH]; cbn [pmap pbind app].
  - destruct (pmap f l2); reflexivity.
  - destruct (f a) as [b|e]; [|reflexivity]. cbn [pbind]. rewrite IH.
    destruct (pmap f l1) as [bs|e]; [|reflexivity]. cbn [pbind].
    destruct (pmap f l2); reflexivity.
Qed.

Lemma pmap_length {A B} (f : A -> pyres B) (l : list A) (l' : list B) :
  pmap f l = Ok l' -> length l' = length l.
Proof.
  revert l'. induction l as [|a l IH]; cbn [pmap pbind]; intros l' H.
  - injection H as <-. reflexivity.
  - destruct (f a) as [b|e]; [|discriminate]. cbn [pbind] in H.
    destruct (pmap f l) as [bs|e]; [|discriminate]. cbn [pbind] in H.
    injection H as <-. cbn [length]. f_equal. apply IH. reflexivity.
Qed.

(** X7.  [list_trips] returns the summaries of exactly the Trip rows whose
    user is the caller, and leaves the database as it is. *)
Theorem list_trips_shows_own_trips :
  forall (user : string) (w : World) (l : list TripSummary.t) (w' : World),
    list_trips user w = (Ok l, w') ->
    (forall s, In s l <->
               exists t, In t (trip_rows (db w))
                         /\ Trip.user_id t = Some user
                         /\ trip_summary t = Ok s)
    /\ db w' = db w.
Proof.
  intros user w l w'. rewrite list_trips_run. intros H. injection H as H <-.
  split; [|reflexivity]. intros s. rewrite (pmap_ok_in _ _ _ H s). split.
  - intros (t & Ht & E). apply filter_In in Ht. destruct Ht as [Ht Hu].
    exists t. split; [exact Ht|]. split; [apply opt_str_eqb_eq, Hu|exact E].
  - intros (t & Ht & Hu & E). exists t. split; [|exact E].
    apply filter_In. split; [exact Ht|apply opt_str_eqb_eq, Hu].
Qed.

Lemma list_trips_shows_own_trips_witness :
  (forall s, In s [TripSummary.mk 1 "Kyoto" 3 "medium" 2 "Three days."] <->
             exists t, In t (trip_rows (db shuffled_world))
                       /\ Trip.user_id t = Some "alice"
                       /\ trip_summary t = Ok s)
  /\ db (closed_session (fresh_session shuffled_world)) = db shuffled_world.
Proof.
  apply (list_trips_shows_own_trips "alice" shuffled_world
           [TripSummary.mk 1 "Kyoto" 3 "medium" 2 "Three days."]
           (closed_session (fresh_session shuffled_world))).
  reflexivity.
Defined.

Lemma trip_rows_after_plan env request user w plan w' :
  plan_trip env request user w = (Ok plan, w') ->
  exists plan0,
    plan = TripPlan.with_id (Some (new_trip_id (db w))) plan0
    /\ trip_rows (db w')
       = (trip_rows (db w)
            ++ [Trip.with_id (new_trip_id (db w))
                  (header_row env (TripRequest.with_user_id (Some user) request) plan0)])%list.
Proof.
  intros Hrun. destruct (plan_trip_ok_inv _ _ _ _ _ _ Hrun) as (plan0 & -> & Hdb).
  exists plan0. split; [reflexivity|].
  rewrite Hdb, trip_rows_days_saved, header_saved_rows. reflexivity.
Qed.

(** X8.  After a successful [plan_trip] the new trip is in the list of the
    user who planned it, beside the trips listed before, with the destination,
    days, budget level and overview of the plan and the travelers of the request
    (one when the request gives none); the list of every other user is what it
    was. *)
Theorem planned_trip_is_listed :
  forall (env : Env) (request : TripRequest.t) (user : string) (w : World)
         (plan : TripPlan.t) (w' : World) (trip_id : Z) (before : list TripSummary.t)
         (w0 : World),
    plan_trip env request user w = (Ok plan, w') ->
    TripPlan.id plan = Some trip_id ->
    list_trips user w = (Ok before, w0) ->
    (exists after w1,
        list_trips user w' = (Ok after, w1)
        /\ forall s, In s after <-> In s before \/ s = summary_of_plan request plan trip_id)
    /\ (forall other, other <> user ->
                      fst (list_trips other w') = fst (list_trips other w)).
Proof.
  intros env request user w plan w' trip_id before w0 Hrun Hid Hbefore.
  destruct (trip_rows_after_plan _ _ _ _ _ _ Hrun) as (plan0 & -> & Hrows).
  cbn [TripPlan.with_id TripPlan.id] in Hid. injection Hid as <-.
  rewrite list_trips_run in Hbefore. injection Hbefore as Hbefore _.
  split.
  - exists (before ++ [summary_of_plan request
                         (TripPlan.with_id (Some (new_trip_id (db w))) plan0)
                         (new_trip_id (db w))])%list.
    eexists. split.
    + rewrite list_trips_run, Hrows, filter_app, pmap_app, Hbefore.
      cbn [filter Trip.with_id Trip.user_id header_row TripRequest.with_user_id
           TripRequest.user_id opt_str_eqb].
      rewrite String.eqb_refl. reflexivity.
    + intros s. rewrite in_app_iff. cbn [In]. intuition congruence.
  - intros other Hother. rewrite !list_trips_run, Hrows, filter_app. cbn [fst].
    cbn [filter Trip.with_id Trip.user_id header_row TripRequest.with_user_id
         TripRequest.user_id opt_str_eqb].
    replace (String.eqb user other) with false
      by (symmetry; apply String.eqb_neq; congruence).
    rewrite app_nil_r. reflexivity.
Qed.

Lemma planned_trip_is_listed_witness :
  (exists after w1,
      list_trips "alice" (snd (plan_trip bare_env kyoto_request "alice" shuffled_world))
      = (Ok after, w1)
      /\ forall s, In s after <->
                   In s [TripSummary.mk 1 "Kyoto" 3 "medium" 2 "Three days."]
                   \/ s = summary_of_plan kyoto_request
                            (TripPlan.with_id (Some 2) kyoto_placeholder) 2)
  /\ (forall other, other <> "alice" ->
        fst (list_trips other (snd (plan_trip bare_env kyoto_request "alice" shuffled_world)))
        = fst (list_trips other shuffled_world)).
Proof.
  apply (planned_trip_is_listed bare_env kyoto_request "alice" shuffled_world
           (TripPlan.with_id (Some 2) kyoto_placeholder)
           (snd (plan_trip bare_env kyoto_request "alice" shuffled_world)) 2
           [TripSummary.mk 1 "Kyoto" 3 "medium" 2 "Three days."]
           (closed_session (fresh_session shuffled_world)));
    vm_compute; reflexivity.
Defined.

(** * Further properties: [plan_trip] *)

(** ** The placeholder, in general *)

Lemma isolates_failures_calls {A B} (run : M A) ready call (answer : pyres B) handle empty :
  isolates_failures run ready call answer handle empty ->
  forall w, exists r, run w = (Ok r, logged w (if ready then [call] else [])).
Proof.
  intros H w. destruct (H w) as [H0 H1]. destruct ready.
  - destruct (H1 eq_refl) as (r & E & _). exists r. exact E.
  - exists empty. rewrite logged_nil. apply H0. reflexivity.
Qed.

Lemma no_search_app (c1 c2 : list NetCall) :
  existsb is_search_call c1 = false -> existsb is_search_call c2 = false ->
  existsb is_search_call (c1 ++ c2) = false.
Proof. intros H1 H2. rewrite existsb_app, H1, H2. reflexivity. Qed.

Lemma geocode_destination_no_search env destination w :
  exists r calls,
    geocode_destination env destination w = (Ok r, logged w calls)
    /\ existsb is_search_call calls = false.
Proof.
  destruct (isolates_failures_calls _ _ _ _ _ _
              (geocode_destination_isolates env destination) w) as (r & E).
  exists r. eexists. split; [exact E|].
  destruct (configured (MAPBOX_ACCESS_TOKEN env)); reflexivity.
Qed.

Lemma fetch_weather_no_search env lat lng w :
  exists r calls,
    fetch_weather env lat lng w = (Ok r, logged w calls)
    /\ existsb is_search_call calls = false.
Proof.
  destruct lat as [lat|]; [destruct lng as [lng|]|].
  - destruct (isolates_failures_calls _ _ _ _ _ _
                (fetch_weather_isolates env lat lng) w) as (r & E).
    exists r. eexists. split; [exact E|].
    destruct (configured (WEATHER_API_KEY env)); reflexivity.
  - exists None, []. rewrite logged_nil. split; [|reflexivity].
    apply fetch_weather_without_coordinates. now right.
  - exists None, []. rewrite logged_nil. split; [|reflexivity].
    apply fetch_weather_without_coordinates. now left.
Qed.

Lemma dummy_plan_run env request w :
  exists total per_person lat lng weather calls,
    estimate_budget (TripRequest.days request) (int_or (TripRequest.travelers request) 1)
      (Some (str_or (TripRequest.budget_level request) "medium")) = Ok (total, per_person)
    /\ existsb is_search_call calls = false
    /\ dummy_plan env request w
       = (Ok (TripPlan.mk None (TripRequest.destination request) (TripRequest.days request)
                (str_or (TripRequest.budget_level request) "medium")
                dummy_overview (dummy_daily_plan request) dummy_tips
                (Some total) (Some per_person) None lat lng weather None None None),
          logged w calls).
Proof.
  destruct (estimate_budget_returns (TripRequest.days request)
              (int_or (TripRequest.travelers request) 1)
              (Some (str_or (TripRequest.budget_level request) "medium")))
    as (total & per_person & E).
  destruct (geocode_destination_no_search env (TripRequest.destination request) w)
    as ([lat lng] & c1 & E1 & N1).
  destruct (fetch_weather_no_search env lat lng (logged w c1)) as (weather & c2 & E2 & N2).
  exists total, per_person, lat, lng, weather, (c1 ++ c2)%list.
  split; [exact E|]. split; [apply no_search_app; assumption|].
  unfold dummy_plan, bind, lift, ret. rewrite E, E1, E2, logged_logged. reflexivity.
Qed.

Lemma try_generate_run env request w :
  try_generate env request w
  = (Ok (match generate_content env (model_name env) (build_prompt request) with
         | Ok response => Some response
         | Raise _ => None
         end),
     logged w [GeminiCall (model_name env) (build_prompt request)]).
Proof.
  unfold try_generate, try_except, bind, lift, ret. rewrite log_call_logged.
  destruct (generate_content env (model_name env) (build_prompt request)); reflexivity.
Qed.

Lemma dummy_days_numbered (request : TripRequest.t) :
  map DayPlan.day (dummy_daily_plan request)
  = map Z.of_nat (seq 1 (Z.to_nat (TripRequest.days request))).
Proof.
  unfold dummy_daily_plan, py_range. rewrite !map_map. cbn [DayPlan.day].
  rewrite <- seq_shift, map_map. apply map_ext. intros n. lia.
Qed.

Lemma dummy_days_places (request : TripRequest.t) :
  Forall (fun d => DayPlan.places d = ["Sample place 1"; "Sample place 2"; "Sample place 3"])
         (dummy_daily_plan request).
Proof.
  unfold dummy_daily_plan. apply Forall_forall. intros d Hd.
  apply in_map_iff in Hd. destruct Hd as (i & <- & _). reflexivity.
Qed.

Lemma build_prompt_ignores_user (u : option string) (request : TripRequest.t) :
  build_prompt (TripRequest.with_user_id u request) = build_prompt request.
Proof. reflexivity. Qed.

(** X9.  The placeholder in general.  When no credential is configured for the
    generative provider, or when the call to it raises, and the storage engine
    accepts the two commits, [plan_trip] returns the placeholder plan under the
    key of the new Trip row: the destination and the days of the request, the
    demo overview and tips, one day per requested day numbered from 1 (none
    when [days <= 0]) with three sample places each, no budget breakdown, no
    events, hotels or restaurants; and no search adapter is called. *)
Theorem plan_trip_placeholder :
  forall (env : Env) (request : TripRequest.t) (user : string) (w : World),
    configured (GEMINI_API_KEY env) = false
    \/ (exists e, generate_content env (model_name env) (build_prompt request) = Raise e) ->
    commit_fails env 0 = false ->
    commit_fails env 1 = false ->
    exists plan w' calls,
      plan_trip env request user w = (Ok plan, w')
      /\ TripPlan.id plan = Some (new_trip_id (db w))
      /\ TripPlan.destination plan = TripRequest.destination request
      /\ TripPlan.days plan = TripRequest.days request
      /\ TripPlan.overview plan = dummy_overview
      /\ TripPlan.tips plan = dummy_tips
      /\ map DayPlan.day (TripPlan.daily_plan plan)
         = map Z.of_nat (seq 1 (Z.to_nat (TripRequest.days request)))
      /\ Forall (fun d => DayPlan.places d
                          = ["Sample place 1"; "Sample place 2"; "Sample place 3"])
                (TripPlan.daily_plan plan)
      /\ TripPlan.budget_breakdown plan = None
      /\ TripPlan.events plan = None
      /\ TripPlan.hotels plan = None
      /\ TripPlan.restaurants plan = None
      /\ net_log w' = (net_log w ++ calls)%list
      /\ existsb is_search_call calls = false.
Proof.
  intros env request user w Hfail C0 C1.
  destruct (plan_trip_run env request user w) as (r0 & calls & E & ->).
  set (rq := TripRequest.with_user_id (Some user) request) in *.
  assert (Hd : exists plan0 calls0,
             assemble_plan env rq (fresh_session w)
             = (Ok plan0, logged (fresh_session w) calls0)
             /\ existsb is_search_call calls0 = false
             /\ TripPlan.destination plan0 = TripRequest.destination request
             /\ TripPlan.days plan0 = TripRequest.days request
             /\ TripPlan.overview plan0 = dummy_overview
             /\ TripPlan.tips plan0 = dummy_tips
             /\ TripPlan.daily_plan plan0 = dummy_daily_plan rq
             /\ TripPlan.budget_breakdown plan0 = None
             /\ TripPlan.events plan0 = None
             /\ TripPlan.hotels plan0 = None
             /\ TripPlan.restaurants plan0 = None).
  { unfold assemble_plan.
    destruct (configured (GEMINI_API_KEY env)) eqn:Hkey; cbn [negb].
    - destruct Hfail as [Hfail|(e & Hfail)]; [discriminate|].
      unfold bind. rewrite try_generate_run.
      unfold rq. rewrite build_prompt_ignores_user, Hfail.
      destruct (dummy_plan_run env (TripRequest.with_user_id (Some user) request)
                  (logged (fresh_session w)
                     [GeminiCall (model_name env) (build_prompt request)]))
        as (total & pp & lat & lng & weather & c & _ & Hc & ->).
      eexists. exists (GeminiCall (model_name env) (build_prompt request) :: c).
      rewrite logged_logged. split; [reflexivity|].
      split; [exact Hc|]. repeat split.
    - destruct (dummy_plan_run env rq (fresh_session w))
        as (total & pp & lat & lng & weather & c & _ & Hc & ->).
      eexists. exists c. split; [reflexivity|]. split; [exact Hc|]. repeat split. }
  destruct Hd as (plan0 & calls0 & E0 & Hc & Hdest & Hdays & Hov & Htips & Hplan
                  & Hbb & Hev & Hho & Hre).
  rewrite E0 in E. injection E as <- Ecalls.
  assert (calls0 = calls) as <-.
  { apply app_inv_head in Ecalls. exact Ecalls. }
  unfold save_outcome. simpl commits. rewrite C0, C1.
  eexists. eexists. exists calls0. split; [reflexivity|].
  cbn [TripPlan.with_id TripPlan.id TripPlan.destination TripPlan.days TripPlan.overview
       TripPlan.tips TripPlan.daily_plan TripPlan.budget_breakdown TripPlan.events
       TripPlan.hotels TripPlan.restaurants].
  rewrite Hplan. repeat split; try assumption.
  - exact (dummy_days_numbered rq).
  - exact (dummy_days_places rq).
Qed.

Lemma plan_trip_placeholder_witness :
  exists plan w' calls,
    plan_trip env_generation_fails kyoto_request "alice" empty_world = (Ok plan, w')
    /\ TripPlan.id plan = Some (new_trip_id (db empty_world))
    /\ TripPlan.destination plan = TripRequest.destination kyoto_request
    /\ TripPlan.days plan = TripRequest.days kyoto_request
    /\ TripPlan.overview plan = dummy_overview
    /\ TripPlan.tips plan = dummy_tips
    /\ map DayPlan.day (TripPlan.daily_plan plan)
       = map Z.of_nat (seq 1 (Z.to_nat (TripRequest.days kyoto_request)))
    /\ Forall (fun d => DayPlan.places d
                        = ["Sample place 1"; "Sample place 2"; "Sample place 3"])
              (TripPlan.daily_plan plan)
    /\ TripPlan.budget_breakdown plan = None
    /\ TripPlan.events plan = None
    /\ TripPlan.hotels plan = None
    /\ TripPlan.restaurants plan = None
    /\ net_log w' = (net_log empty_world ++ calls)%list
    /\ existsb is_search_call calls = false.
Proof.
  apply (plan_trip_placeholder env_generation_fails kyoto_request "alice" empty_world).
  - right. exists ProviderError. vm_compute. reflexivity.
  - reflexivity.
  - reflexivity.
Defined.

(** ** Generative answers that are JSON but no itinerary *)

Lemma assemble_plan_generated env request response w :
  configured (GEMINI_API_KEY env) = true ->
  generate_content env (model_name env) (build_prompt request) = Ok response ->
  assemble_plan env request w
  = generated_plan env request response
      (logged w [GeminiCall (model_name env) (build_prompt request)]).
Proof.
  intros Hkey Hgen. unfold assemble_plan, bind.
  rewrite Hkey. cbn [negb]. rewrite try_generate_run, Hgen. reflexivity.
Qed.

Lemma generated_plan_after_decode env request txt v w :
  decode_generated (text_or_empty_object txt) = Ok v ->
  exists total per_person lat lng weather events hotels restaurants calls,
    generated_plan env request (ResponseText txt) w
    = (match v with
       | VDict d =>
           validate_TripPlan
             (with_enrichment
                (with_computed_fields d
                   (VStr (str_or (TripRequest.budget_level request) "medium"))
                   total per_person lat lng weather)
                events hotels restaurants)
       | _ => Raise AttributeError
       end,
       logged w calls).
Proof.
  intros Hdec. unfold text_or_empty_object in Hdec.
  destruct (estimate_budget_returns (TripRequest.days request)
              (int_or (TripRequest.travelers request) 1)
              (Some (str_or (TripRequest.budget_level request) "medium")))
    as (total & per_person & E).
  destruct (geocode_destination_logged env (TripRequest.destination request) w)
    as ([lat lng] & c1 & E1).
  destruct (fetch_weather_logged env lat lng (logged w c1)) as (weather & c2 & E2).
  destruct (fetch_google_events_logged env (TripRequest.destination request) lat lng
              (logged (logged w c1) c2)) as (events & c3 & E3).
  destruct (fetch_hotels_logged env (TripRequest.destination request) None None
              (logged (logged (logged w c1) c2) c3)) as (hotels & c4 & E4).
  destruct (fetch_restaurants_logged env (TripRequest.destination request)
              (logged (logged (logged (logged w c1) c2) c3) c4))
    as (restaurants & c5 & E5).
  exists total, per_person, lat, lng, weather, events, hotels, restaurants.
  exists (c1 ++ c2 ++ c3 ++ c4 ++ c5)%list.
  unfold generated_plan, bind, lift. cbn [response_text].
  rewrite Hdec, E, E1, E2, E3, E4, E5, !logged_logged.
  destruct v; reflexivity.
Qed.

Lemma field_opt_int_raises (d : dict) (k : string) (default : option Z) (e : exn) :
  field_opt_int d k default = Raise e -> e = ValidationError.
Proof.
  unfold field_opt_int. destruct (dict_get d k) as [[]|]; congruence.
Qed.

Lemma validate_TripPlan_needs_destination (d : dict) :
  dict_get d "destination" = None -> validate_TripPlan d = Raise ValidationError.
Proof.
  intros H. unfold validate_TripPlan, pbind.
  destruct (field_opt_int d "id" None) as [i|e] eqn:Ei.
  - unfold field_str. rewrite H. reflexivity.
  - rewrite (field_opt_int_raises _ _ _ _ Ei). reflexivity.
Qed.

Lemma plan_trip_assembly_fails env request user w e calls :
  assemble_plan env (TripRequest.with_user_id (Some user) request) (fresh_session w)
  = (Raise e, logged (fresh_session w) calls) ->
  plan_trip env request user w
  = (Raise e, closed_session (logged (fresh_session w) calls)).
Proof.
  intros E. destruct (plan_trip_run env request user w) as (r0 & calls0 & E0 & ->).
  rewrite E in E0. injection E0 as <- Ecalls.
  apply app_inv_head in Ecalls. subst calls0. reflexivity.
Qed.

(** X10.  The destination of the request is no default for the plan: when the
    generative provider answers a JSON object without the key [destination]
    (an empty answer, read as the empty object, is one), [plan_trip] raises
    [ValidationError], commits nothing and leaves the database as it is. *)
Theorem plan_trip_answer_without_destination :
  forall (env : Env) (request : TripRequest.t) (user : string) (w : World)
         (txt : string) (d : dict),
    configured (GEMINI_API_KEY env) = true ->
    generate_content env (model_name env) (build_prompt request) = Ok (ResponseText txt) ->
    decode_generated (text_or_empty_object txt) = Ok (VDict d) ->
    dict_get d "destination" = None ->
    fst (plan_trip env request user w) = Raise ValidationError
    /\ db (snd (plan_trip env request user w)) = db w
    /\ snapshots (snd (plan_trip env request user w)) = [].
Proof.
  intros env request user w txt d Hkey Hgen Hdec Hdest.
  set (rq := TripRequest.with_user_id (Some user) request).
  destruct (generated_plan_after_decode env rq txt (VDict d)
              (logged (fresh_session w) [GeminiCall (model_name env) (build_prompt rq)])
              Hdec)
    as (total & pp & lat & lng & weather & events & hotels & restaurants & calls & E).
  rewrite validate_TripPlan_needs_destination in E.
  2:{ rewrite with_enrichment_get, with_computed_fields_get by reflexivity. exact Hdest. }
  rewrite logged_logged in E.
  rewrite (plan_trip_assembly_fails env request user w ValidationError
             ([GeminiCall (model_name env) (build_prompt rq)] ++ calls)).
  - repeat split.
  - fold rq. rewrite (assemble_plan_generated env rq (ResponseText txt)); assumption.
Qed.

Lemma plan_trip_answer_without_destination_witness :
  fst (plan_trip (env_answering (fun _ => Ok (ResponseText "")) (fun _ => false))
         kyoto_request "alice" empty_world) = Raise ValidationError
  /\ db (snd (plan_trip (env_answering (fun _ => Ok (ResponseText "")) (fun _ => false))
                kyoto_request "alice" empty_world)) = db empty_world
  /\ snapshots (snd (plan_trip (env_answering (fun _ => Ok (ResponseText ""))
                                  (fun _ => false))
                       kyoto_request "alice" empty_world)) = [].
Proof.
  apply (plan_trip_answer_without_destination
           (env_answering (fun _ => Ok (ResponseText "")) (fun _ => false))
           kyoto_request "alice" empty_world "" []);
    reflexivity.
Defined.

(** X11.  When the generative provider answers a JSON text that is no object
    (a list, a string, a number, [true], [false] or [null]), [plan_trip] raises
    [AttributeError] at [data.setdefault], after the adapters were called;
    nothing is committed and the database is left as it is. *)
Theorem plan_trip_answer_not_an_object :
  forall (env : Env) (request : TripRequest.t) (user : string) (w : World)
         (txt : string) (v : value),
    configured (GEMINI_API_KEY env) = true ->
    generate_content env (model_name env) (build_prompt request) = Ok (ResponseText txt) ->
    decode_generated (text_or_empty_object txt) = Ok v ->
    is_dict v = false ->
    fst (plan_trip env request user w) = Raise AttributeError
    /\ db (snd (plan_trip env request user w)) = db w
    /\ snapshots (snd (plan_trip env request user w)) = [].
Proof.
  intros env request user w txt v Hkey Hgen Hdec Hv.
  set (rq := TripRequest.with_user_id (Some user) request).
  destruct (generated_plan_after_decode env rq txt v
              (logged (fresh_session w) [GeminiCall (model_name env) (build_prompt rq)])
              Hdec)
    as (total & pp & lat & lng & weather & events & hotels & restaurants & calls & E).
  assert (Ev : match v with
               | VDict d0 =>
                   validate_TripPlan
                     (with_enrichment
                        (with_computed_fields d0
                           (VStr (str_or (TripRequest.budget_level rq) "medium"))
                           total pp lat lng weather) events hotels restaurants)
               | _ => Raise AttributeError
               end = Raise AttributeError)
    by (destruct v; try reflexivity; discriminate Hv).
  rewrite Ev, logged_logged in E.
  rewrite (plan_trip_assembly_fails env request user w AttributeError
             ([GeminiCall (model_name env) (build_prompt rq)] ++ calls)).
  - repeat split.
  - fold rq. rewrite (assemble_plan_generated env rq (ResponseText txt)); assumption.
Qed.

Lemma plan_trip_answer_not_an_object_witness :
  fst (plan_trip (env_answering (fun _ => Ok (ResponseText "[1, 2]")) (fun _ => false))
         kyoto_request "alice" empty_world) = Raise AttributeError
  /\ db (snd (plan_trip (env_answering (fun _ => Ok (ResponseText "[1, 2]"))
                           (fun _ => false))
                kyoto_request "alice" empty_world)) = db empty_world
  /\ snapshots (snd (plan_trip (env_answering (fun _ => Ok (ResponseText "[1, 2]"))
                                  (fun _ => false))
                       kyoto_request "alice" empty_world)) = [].
Proof.
  apply (plan_trip_answer_not_an_object
           (env_answering (fun _ => Ok (ResponseText "[1, 2]")) (fun _ => false))
           kyoto_request "alice" empty_world "[1, 2]" (VList [VInt 1; VInt 2]));
    vm_compute; reflexivity.
Defined.

(** * Further properties: the extraction of the itinerary *)

(** X12.  An object that stands in prose without a fence is extracted: when
    the whole answer does not decode, and the prose before and after a text [s]
    that decodes to a JSON object holds no brace, the extraction gives the
    object of [s]. *)
Theorem decode_generated_prose :
  forall (s : string) (d : dict) (before after : string),
    json_loads s = Ok (VDict d) ->
    brace_free before = true ->
    brace_free after = true ->
    is_ok (json_loads (before ++ s ++ after)) = false ->
    decode_generated (before ++ s ++ after) = Ok (VDict d).
Proof.
  intros s d before after Hs Hb Ha Hfail.
  destruct (json_loads_token s _ Hs)
    as (ws & a & pre & ws' & Es & Hws & Hws' & _ & Hobj & Hcore).
  destruct (Hobj eq_refl) as (-> & pre' & Epre).
  destruct pre' as [|a' mid]; [discriminate Epre|].
  cbn [app] in Epre. injection Epre as <- ->.
  destruct (slice_of_braces (chars before ++ ws) mid (ws' ++ chars after)
              (before ++ s ++ after)) as [Hc Hsl].
  - rewrite !chars_app, Es. flatten_app. reflexivity.
  - rewrite forallb_app. fold (brace_free before).
    rewrite Hb, (ws_brace_free ws Hws). reflexivity.
  - rewrite forallb_app. fold (brace_free after).
    rewrite Ha, (ws_brace_free ws' Hws'). reflexivity.
  - unfold decode_generated. rewrite (json_loads_raises_JSONDecodeError _ Hfail).
    cbn [is_JSONDecodeError]. cbv zeta in Hc, Hsl |- *. rewrite Hc, Hsl. exact Hcore.
Qed.

Lemma decode_generated_prose_witness :
  decode_generated ("Sure! Here is your itinerary: " ++ clean_object ++ " Have fun.")
  = Ok (VDict clean_object_dict).
Proof.
  apply (decode_generated_prose clean_object clean_object_dict
           "Sure! Here is your itinerary: " " Have fun.");
    vm_compute; reflexivity.
Defined.

(** *** What the brace-bounded text decodes to *)

Lemma parse_members_is_dict (f : nat) :
  forall acc l v r, parse f (Members acc) l = Parsed v r -> is_dict v = true.
Proof.
  induction f as [|f IH]; intros acc l v r; [discriminate|].
  cbn [parse]. destruct l as [|a l]; [discriminate|].
  destruct (Ascii.eqb a DQUOTE); [|discriminate].
  destruct (scanstring l) as [[key r1]|]; [|discriminate].
  destruct (skip_ws r1) as [|c r2]; [discriminate|].
  destruct (Ascii.eqb c ":"); [|discriminate].
  destruct (parse f Value (skip_ws r2)) as [v1 r3| |]; try discriminate.
  destruct (skip_ws r3) as [|b r4]; [discriminate|].
  destruct (Ascii.eqb b "}").
  - intros H. injection H as <- _. reflexivity.
  - destruct (Ascii.eqb b ","); [apply IH|discriminate].
Qed.

Lemma parse_object_is_dict (f : nat) (l : list ascii) (v : value) (r : list ascii) :
  parse f Value ("{"%char :: l) = Parsed v r -> is_dict v = true.
Proof.
  destruct f as [|f]; [discriminate|]. cbn [parse].
  change (Ascii.eqb "{" DQUOTE) with false. rewrite Ascii.eqb_refl. cbv iota.
  destruct (skip_ws l) as [|b r1]; [discriminate|].
  destruct (Ascii.eqb b "}").
  - intros H. injection H as <- _. reflexivity.
  - destruct (Ascii.eqb b DQUOTE); [apply parse_members_is_dict|discriminate].
Qed.

Lemma json_loads_object_is_dict (l : list ascii) (v : value) :
  json_loads (text ("{"%char :: l)) = Ok v -> is_dict v = true.
Proof.
  unfold json_loads. rewrite chars_text. cbn [skip_ws].
  change (is_ws "{") with false. cbv iota.
  destruct (parse _ Value ("{"%char :: l)) as [v0 r| |] eqn:Ep; try discriminate.
  destruct (skip_ws r); [|discriminate].
  intros H. injection H as <-. apply (parse_object_is_dict _ _ _ _ Ep).
Qed.

Lemma find_from_found (c : ascii) (l : list ascii) (i : Z) :
  0 <= i -> find_from c l i <> -1 ->
  exists x rest, l = (x ++ c :: rest)%list /\ find_from c l i = i + Z.of_nat (length x).
Proof.
  revert i. induction l as [|a l IH]; intros i Hi; cbn [find_from]; [congruence|].
  destruct (Ascii.eqb_spec a c) as [->|Hne].
  - intros _. exists [], l. split; [reflexivity|]. cbn [length]. lia.
  - intros H. destruct (IH (i + 1) ltac:(lia) H) as (x & rest & -> & E).
    exists (a :: x), rest. split; [reflexivity|]. rewrite E. cbn [length]. lia.
Qed.

(** X13.  The brace-bounded fallback only ever yields a JSON object: whatever
    the extraction returns is either the direct decoding of the text or a
    dict. *)
Theorem decode_generated_fallback_is_object :
  forall (txt : string) (v : value),
    decode_generated txt = Ok v ->
    json_loads txt = Ok v \/ is_dict v = true.
Proof.
  intros txt v. unfold decode_generated.
  destruct (json_loads txt) as [v0|e] eqn:E; [intros H; left; exact H|].
  destruct (is_JSONDecodeError e); [|discriminate]. cbv zeta.
  destruct (Z.eqb_spec (str_find txt "{") (-1)) as [|Hstart]; [discriminate|].
  destruct (Z.eqb_spec (str_rfind txt "}") (-1)) as [|Hend]; [discriminate|].
  cbn [negb andb].
  destruct (Z.gtb_spec (str_rfind txt "}") (str_find txt "{")) as [Hgt|]; [|discriminate].
  intros H. right. revert H. unfold str_slice.
  unfold str_find in *.
  destruct (find_from_found "{" (chars txt) 0 ltac:(lia) Hstart) as (x & rest & El & Ei).
  rewrite Ei in *. rewrite El.
  replace (Z.to_nat (0 + Z.of_nat (length x))) with (length x + 0)%nat by lia.
  rewrite skipn_app, skipn_all2 by lia.
  replace (length x + 0 - length x)%nat with 0%nat by lia. cbn [skipn app].
  destruct (Z.to_nat (str_rfind txt "}" + 1 - (0 + Z.of_nat (length x)))) as [|n] eqn:En;
    [lia|].
  cbn [firstn]. apply json_loads_object_is_dict.
Qed.

Lemma decode_generated_fallback_is_object_witness :
  json_loads (fenced "" "json" clean_object "") = Ok (VDict clean_object_dict)
  \/ is_dict (VDict clean_object_dict) = true.
Proof.
  apply (decode_generated_fallback_is_object (fenced "" "json" clean_object "")
           (VDict clean_object_dict)).
  vm_compute. reflexivity.
Defined.

(** * Further properties: the conversation *)

Lemma analyze_chat_intent_run env message history w :
  configured (GEMINI_API_KEY env) = true ->
  analyze_chat_intent env message history w
  = (Ok (match generate_content env (model_name env)
                 (chat_prompt (conversation_text env message history)) with
         | Ok (ResponseText txt) =>
             match json_loads (chat_clean txt) with
             | Ok v => v
             | Raise _ => chat_fallback
             end
         | _ => chat_fallback
         end),
     logged w [GeminiCall (model_name env)
                 (chat_prompt (conversation_text env message history))]).
Proof.
  intros Hkey. unfold analyze_chat_intent. rewrite Hkey. cbn [negb].
  unfold try_except, bind, lift, ret. rewrite log_call_logged.
  destruct (generate_content env (model_name env) _) as [[txt|]|e]; try reflexivity.
  cbn [response_text]. fold (chat_clean txt).
  destruct (json_loads (chat_clean txt)); reflexivity.
Qed.

(** X14.  Without a credential for the generative provider the conversational
    endpoint answers [continue] with the text [AI not configured.]: the
    [error] action of the resolver is handled as a turn of the conversation.
    No provider is called and the database is left as it is. *)
Theorem chat_without_credential :
  forall (env : Env) (request : ChatRequest.t) (user : string) (w : World),
    configured (GEMINI_API_KEY env) = false ->
    chat_interaction env request user w
    = (Ok (ChatContinue (VStr "AI not configured.")), closed_session (fresh_session w)).
Proof.
  intros env request user w Hkey.
  unfold chat_interaction, with_session, analyze_chat_intent, bind.
  rewrite Hkey. reflexivity.
Qed.

Lemma chat_without_credential_witness :
  chat_interaction bare_env chat_with_five_slots "alice" shuffled_world
  = (Ok (ChatContinue (VStr "AI not configured.")),
     closed_session (fresh_session shuffled_world)).
Proof.
  apply (chat_without_credential bare_env chat_with_five_slots "alice" shuffled_world).
  reflexivity.
Defined.

(** X15.  A failure of the analysis never fails the conversational endpoint:
    when the call to the generative provider raises, or its answer carries no
    text, or the text (without its fence markers, stripped) does not decode,
    the endpoint answers [continue] with the request to clarify, after that one
    call, and leaves the database as it is. *)
Theorem chat_analysis_failure_is_absorbed :
  forall (env : Env) (request : ChatRequest.t) (user : string) (w : World),
    configured (GEMINI_API_KEY env) = true ->
    (let answer :=
       generate_content env (model_name env)
         (chat_prompt (conversation_text env (ChatRequest.message request)
                         (ChatRequest.history request))) in
     (exists e, answer = Raise e)
     \/ answer = Ok ResponseWithoutText
     \/ (exists txt, answer = Ok (ResponseText txt)
                     /\ is_ok (json_loads (chat_clean txt)) = false)) ->
    chat_interaction env request user w
    = (Ok (ChatContinue
             (VStr "I'm having trouble understanding. Could you please clarify where you want to go?")),
       closed_session
         (logged (fresh_session w)
            [GeminiCall (model_name env)
               (chat_prompt (conversation_text env (ChatRequest.message request)
                               (ChatRequest.history request)))])).
Proof.
  intros env request user w Hkey Hfail. cbv zeta in Hfail.
  unfold chat_interaction, with_session. fold (fresh_session w).
  unfold bind at 1. rewrite (analyze_chat_intent_run _ _ _ _ Hkey).
  assert (E : match generate_content env (model_name env)
                      (chat_prompt (conversation_text env (ChatRequest.message request)
                                      (ChatRequest.history request))) with
              | Ok (ResponseText txt) =>
                  match json_loads (chat_clean txt) with
                  | Ok v => v
                  | Raise _ => chat_fallback
                  end
              | _ => chat_fallback
              end = chat_fallback).
  { destruct Hfail as [(e & ->)|[->|(txt & -> & Hdec)]]; try reflexivity.
    destruct (json_loads (chat_clean txt)); [discriminate Hdec|reflexivity]. }
  rewrite E. reflexivity.
Qed.

Lemma chat_analysis_failure_is_absorbed_witness :
  chat_interaction env_malformed chat_with_five_slots "alice" empty_world
  = (Ok (ChatContinue
           (VStr "I'm having trouble understanding. Could you please clarify where you want to go?")),
     closed_session
       (logged (fresh_session empty_world)
          [GeminiCall (model_name env_malformed)
             (chat_prompt (conversation_text env_malformed
                             (ChatRequest.message chat_with_five_slots)
                             (ChatRequest.history chat_with_five_slots)))])).
Proof.
  apply (chat_analysis_failure_is_absorbed env_malformed chat_with_five_slots "alice"
           empty_world).
  - reflexivity.
  - right. right. exists malformed_answer. split; [reflexivity|vm_compute; reflexivity].
Defined.




Lemma field_opt_str_raises (d : dict) (k : string) (default : option string) (e : exn) :
  field_opt_str d k default = Raise e -> e = ValidationError.
Proof.
  unfold field_opt_str. destruct (dict_get d k) as [[]|]; congruence.
Qed.

Lemma chat_trip_request_needs_destination (params : dict) (user : string) :
  dict_get params "destination" = None \/ dict_get params "destination" = Some VNone ->
  chat_trip_request params user = Raise ValidationError.
Proof.
  intros H. unfold chat_trip_request, pbind.
  destruct (field_opt_str params "origin" None) as [o|e] eqn:Eo.
  - unfold field_str. destruct H as [-> | ->]; reflexivity.
  - rewrite (field_opt_str_raises _ _ _ _ Eo). reflexivity.
Qed.

(** X17.  When the resolver declares readiness without a destination (no
    [params], no [destination] among them, or [null]), the conversational
    endpoint does not ask for it: building the [TripRequest] raises
    [ValidationError], before the check that would ask where to go.  Nothing is
    stored. *)
Theorem chat_ready_without_destination_raises :
  forall (env : Env) (request : ChatRequest.t) (user : string) (w : World)
         (txt : string) (analysis : dict),
    configured (GEMINI_API_KEY env) = true ->
    generate_content env (model_name env)
      (chat_prompt (conversation_text env (ChatRequest.message request)
                      (ChatRequest.history request)))
    = Ok (ResponseText txt) ->
    json_loads (chat_clean txt) = Ok (VDict analysis) ->
    dict_get analysis "action" = Some (VStr "plan_ready") ->
    (dict_get analysis "params" = None
     \/ exists params,
          dict_get analysis "params" = Some (VDict params)
          /\ (dict_get params "destination" = None
              \/ dict_get params "destination" = Some VNone)) ->
    fst (chat_interaction env request user w) = Raise ValidationError
    /\ db (snd (chat_interaction env request user w)) = db w.
Proof.
  intros env request user w txt analysis Hkey Hgen Hdec Hact Hparams.
  unfold chat_interaction, with_session. fold (fresh_session w).
  unfold bind, lift. rewrite (analyze_chat_intent_run _ _ _ _ Hkey), Hgen, Hdec.
  cbn [py_get]. rewrite Hact.
  change (eq_str (VStr "plan_ready") "plan_ready") with true. cbv iota.
  destruct Hparams as [Hp|(params & Hp & Hdest)]; rewrite Hp.
  - rewrite chat_trip_request_needs_destination by (left; reflexivity).
    split; reflexivity.
  - rewrite (chat_trip_request_needs_destination _ _ Hdest).
    split; reflexivity.
Qed.

Lemma chat_ready_without_destination_raises_witness :
  fst (chat_interaction env_ready_without_destination chat_with_five_slots "alice"
         empty_world) = Raise ValidationError
  /\ db (snd (chat_interaction env_ready_without_destination chat_with_five_slots "alice"
                empty_world)) = db empty_world.
Proof.
  apply (chat_ready_without_destination_raises env_ready_without_destination
           chat_with_five_slots "alice" empty_world ready_without_destination
           [("action", VStr "plan_ready");
            ("params", VDict [("origin", VStr "Tokyo"); ("days", VInt 3)])]).
  - reflexivity.
  - reflexivity.
  - vm_compute. reflexivity.
  - reflexivity.
  - right. eexists. split; [reflexivity|]. left. reflexivity.
Defined.

(** * Further properties: the adapters *)

Ltac step_pyres :=
  repeat match goal with
         | |- match ?x with Ok _ => _ | Raise _ => _ end = Ok _ -> _ =>
             destruct x; [|discriminate]
         end.

Lemma event_entry_keys (event y : value) :
  event_entry event = Ok y -> dict_keys y = Some event_keys.
Proof.
  unfold event_entry, pbind. step_pyres. intros H. injection H as <-. reflexivity.
Qed.

Lemma hotel_entry_keys (prop y : value) :
  hotel_entry prop = Ok y -> dict_keys y = Some hotel_keys.
Proof.
  unfold hotel_entry, pbind. step_pyres. intros H. injection H as <-. reflexivity.
Qed.

Lemma restaurant_entry_keys (place y : value) :
  restaurant_entry place = Ok y -> dict_keys y = Some restaurant_keys.
Proof.
  unfold restaurant_entry, pbind. step_pyres. intros H. injection H as <-. reflexivity.
Qed.

Lemma pmap_forall {A B} (f : A -> pyres B) (P : B -> Prop) (l : list A) (l' : list B) :
  (forall a b, f a = Ok b -> P b) -> pmap f l = Ok l' -> Forall P l'.
Proof.
  intros Hf H. apply Forall_forall. intros b Hb.
  apply (pmap_ok_in f l l' H) in Hb. destruct Hb as (a & _ & E). apply (Hf a b E).
Qed.

(** The entries made of the top [n] items of what stands under [key]. *)
Lemma top_entries_bounded (f : value -> pyres value) (keys : list string) (n : nat)
    (key : string) (results : value) (y : list value) :
  (forall a b, f a = Ok b -> dict_keys b = Some keys) ->
  (forall s, is_ok (f (VStr s)) = false) ->
  pbind (py_get results key (VList []))
    (fun found => pbind (py_slice_to found n)
       (fun top => pbind (py_iter top) (fun items => pmap f items))) = Ok y ->
  bounded_entries n keys y.
Proof.
  intros Hkeys Hstr. unfold pbind.
  destruct (py_get results key (VList [])) as [found|]; [|discriminate].
  destruct found as [| | | |s|l|d]; cbn [py_slice_to py_iter]; try discriminate.
  - destruct (utf8_chars _) as [|c cs]; cbn [map pmap pbind].
    + intros H. injection H as <-. split; [cbn [length]; lia|constructor].
    + specialize (Hstr (text c)). destruct (f (VStr (text c))); discriminate.
  - intros H. split.
    + rewrite (pmap_length _ _ _ H). rewrite length_firstn. lia.
    + apply (pmap_forall f _ _ _ Hkeys H).
Qed.

Lemma google_events_result_bounded (results : value) (y : list value) :
  google_events_result results = Ok y -> bounded_entries 5 event_keys y.
Proof.
  apply top_entries_bounded; [apply event_entry_keys|reflexivity].
Qed.

Lemma hotels_result_bounded (results : value) (y : list value) :
  hotels_result results = Ok y -> bounded_entries 6 hotel_keys y.
Proof.
  apply top_entries_bounded; [apply hotel_entry_keys|reflexivity].
Qed.

Lemma restaurants_result_bounded (results : value) (y : list value) :
  restaurants_result results = Ok y -> bounded_entries 8 restaurant_keys y.
Proof.
  apply top_entries_bounded; [apply restaurant_entry_keys|reflexivity].
Qed.

Lemma bounded_entries_nil (n : nat) (keys : list string) : bounded_entries n keys [].
Proof. split; [cbn [length]; lia|constructor]. Qed.

Lemma isolated_result_bounded {A} (run : M (list value)) ready call (answer : pyres A)
    handle (n : nat) (keys : list string) (w : World) :
  isolates_failures run ready call answer handle [] ->
  (forall x y, handle x = Ok y -> bounded_entries n keys y) ->
  bounded_entries n keys
    (match fst (run w) with Ok l => l | Raise _ => [] end).
Proof.
  intros H Hb. destruct (H w) as [H0 H1]. destruct ready.
  - destruct (H1 eq_refl) as (r & E & Hraise & Hbad & Hgood). rewrite E. cbn [fst].
    destruct answer as [x|e].
    + destruct (handle x) as [y|e] eqn:Ey.
      * rewrite (Hgood x y eq_refl Ey). apply (Hb x y Ey).
      * rewrite (Hbad x e eq_refl Ey). apply bounded_entries_nil.
    + rewrite (Hraise e eq_refl). apply bounded_entries_nil.
  - rewrite (H0 eq_refl). apply bounded_entries_nil.
Qed.

(** X18.  Whatever the search provider answers, [fetch_google_events] returns
    at most five entries, [fetch_hotels] at most six and [fetch_restaurants] at
    most eight, and every entry is a dict with exactly the keys the adapter
    names, in its order. *)
Theorem search_adapters_bound_their_results :
  forall (env : Env) (destination : string) (lat lng : option pyfloat)
         (check_in check_out : option string) (w : World),
    (exists events w1,
        fetch_google_events env destination lat lng w = (Ok events, w1)
        /\ bounded_entries 5 event_keys events)
    /\ (exists hotels w1,
           fetch_hotels env destination check_in check_out w = (Ok hotels, w1)
           /\ bounded_entries 6 hotel_keys hotels)
    /\ (exists restaurants w1,
           fetch_restaurants env destination w = (Ok restaurants, w1)
           /\ bounded_entries 8 restaurant_keys restaurants).
Proof.
  intros env destination lat lng check_in check_out w.
  refine (conj _ (conj _ _)).
  - pose proof (isolated_result_bounded _ _ _ _ _ 5 event_keys w
                  (fetch_google_events_isolates env destination lat lng)
                  google_events_result_bounded) as Hb.
    destruct (fetch_google_events_logged env destination lat lng w) as (r & c & E).
    rewrite E in Hb |- *. eauto.
  - pose proof (isolated_result_bounded _ _ _ _ _ 6 hotel_keys w
                  (fetch_hotels_isolates env destination check_in check_out)
                  hotels_result_bounded) as Hb.
    destruct (fetch_hotels_logged env destination check_in check_out w) as (r & c & E).
    rewrite E in Hb |- *. eauto.
  - pose proof (isolated_result_bounded _ _ _ _ _ 8 restaurant_keys w
                  (fetch_restaurants_isolates env destination)
                  restaurants_result_bounded) as Hb.
    destruct (fetch_restaurants_logged env destination w) as (r & c & E).
    rewrite E in Hb |- *. eauto.
Qed.

(** ** Coordinates and weather of a plan *)

Ltac step_result :=
  repeat match goal with
         | |- match ?x with Ok _ => _ | Raise _ => _ end = Ok _ -> _ =>
             destruct x; [|discriminate]
         | |- (if ?b then _ else _) = Ok _ -> _ => destruct b
         end.

Lemma geocode_result_paired env data lat lng :
  geocode_result env data = Ok (lat, lng) -> (lat = None <-> lng = None).
Proof.
  unfold geocode_result, pbind. cbv zeta. step_result;
    intros H; injection H as <- <-; split; congruence.
Qed.

Lemma geocode_destination_paired env destination w lat lng w' :
  geocode_destination env destination w = (Ok (lat, lng), w') ->
  (lat = None <-> lng = None).
Proof.
  destruct (geocode_destination_isolates env destination w) as [H0 H1].
  destruct (configured (MAPBOX_ACCESS_TOKEN env)).
  - destruct (H1 eq_refl) as (r & E & Hraise & Hbad & Hgood). rewrite E.
    intros H. injection H as -> _.
    destruct (mapbox_get_json env (mapbox_url destination)) as [x|e].
    + destruct (geocode_result env x) as [y|e] eqn:Ey.
      * specialize (Hgood x y eq_refl Ey). subst y.
        apply (geocode_result_paired _ _ _ _ Ey).
      * specialize (Hbad x e eq_refl Ey). injection Hbad as -> ->. split; reflexivity.
    + specialize (Hraise e eq_refl). injection Hraise as -> ->. split; reflexivity.
  - rewrite (H0 eq_refl). intros H. injection H as <- <- _. split; reflexivity.
Qed.

Lemma fetch_weather_needs_coordinates env lng w weather w' :
  fetch_weather env None lng w = (Ok weather, w') -> weather = None.
Proof.
  rewrite fetch_weather_without_coordinates by (left; reflexivity). congruence.
Qed.

Lemma dummy_plan_located env request w plan w' :
  dummy_plan env request w = (Ok plan, w') -> well_located plan.
Proof.
  unfold dummy_plan, bind, lift, ret.
  destruct (estimate_budget _ _ _) as [[total pp]|]; [|discriminate].
  destruct (geocode_destination env _ w) as [[[lat lng]|] w1] eqn:Eg; [|discriminate].
  destruct (fetch_weather env lat lng w1) as [[weather|] w2] eqn:Ew; [|discriminate].
  intros H. injection H as <- _. unfold well_located.
  cbn [TripPlan.lat TripPlan.lng TripPlan.weather_summary]. split.
  - apply (geocode_destination_paired _ _ _ _ _ _ Eg).
  - intros ->. apply (fetch_weather_needs_coordinates _ _ _ _ _ Ew).
Qed.

Lemma validate_TripPlan_located (data : dict) (p : TripPlan.t) :
  validate_TripPlan data = Ok p ->
  field_opt_float data "lat" = Ok (TripPlan.lat p)
  /\ field_opt_float data "lng" = Ok (TripPlan.lng p)
  /\ field_opt_str data "weather_summary" None = Ok (TripPlan.weather_summary p).
Proof.
  unfold validate_TripPlan, pbind.
  repeat match goal with
         | |- match ?x with Ok _ => _ | Raise _ => _ end = Ok _ -> _ =>
             destruct x; [|discriminate]
         end.
  intros H. injection H as <-. repeat split.
Qed.

Lemma field_opt_float_written (d : dict) (k : string) (x r : option pyfloat) :
  dict_get d k = Some (value_of_opt_float x) -> field_opt_float d k = Ok r -> r = x.
Proof.
  unfold field_opt_float. intros ->. destruct x; cbn [value_of_opt_float]; congruence.
Qed.

Lemma field_opt_str_written (d : dict) (k : string) (x r default : option string) :
  dict_get d k = Some (value_of_opt_str x) -> field_opt_str d k default = Ok r -> r = x.
Proof.
  unfold field_opt_str. intros ->. destruct x; cbn [value_of_opt_str]; congruence.
Qed.

Lemma generated_plan_located env request response w plan w' :
  generated_plan env request response w = (Ok plan, w') -> well_located plan.
Proof.
  unfold generated_plan, bind, lift.
  destruct (response_text response) as [txt|]; [|discriminate].
  destruct (decode_generated _) as [data|]; [|discriminate].
  destruct (estimate_budget _ _ _) as [[total pp]|]; [|discriminate].
  destruct (geocode_destination env _ w) as [[[lat lng]|] w1] eqn:Eg; [|discriminate].
  destruct (fetch_weather env lat lng w1) as [[weather|] w2] eqn:Ew; [|discriminate].
  destruct (fetch_google_events env _ lat lng w2) as [[events|] w3]; [|discriminate].
  destruct (fetch_hotels env _ None None w3) as [[hotels|] w4]; [|discriminate].
  destruct (fetch_restaurants env _ w4) as [[restaurants|] w5]; [|discriminate].
  destruct (as_mutable_dict data) as [d|]; [|discriminate].
  fold (with_computed_fields d (VStr (str_or (TripRequest.budget_level request) "medium"))
          total pp lat lng weather).
  fold (with_enrichment
          (with_computed_fields d
             (VStr (str_or (TripRequest.budget_level request) "medium"))
             total pp lat lng weather) events hotels restaurants).
  destruct (validate_TripPlan _) as [p|] eqn:Ev; [|discriminate].
  intros H. injection H as <- _.
  destruct (validate_TripPlan_located _ _ Ev) as (Hlat & Hlng & Hw).
  assert (Glat : dict_get
                   (with_enrichment
                      (with_computed_fields d
                         (VStr (str_or (TripRequest.budget_level request) "medium"))
                         total pp lat lng weather) events hotels restaurants) "lat"
                 = Some (value_of_opt_float lat)).
  { rewrite with_enrichment_get by reflexivity. unfold with_computed_fields.
    rewrite !dict_get_set_other by reflexivity. apply dict_get_set_same. }
  assert (Glng : dict_get
                   (with_enrichment
                      (with_computed_fields d
                         (VStr (str_or (TripRequest.budget_level request) "medium"))
                         total pp lat lng weather) events hotels restaurants) "lng"
                 = Some (value_of_opt_float lng)).
  { rewrite with_enrichment_get by reflexivity. unfold with_computed_fields.
    rewrite !dict_get_set_other by reflexivity. apply dict_get_set_same. }
  assert (Gw : dict_get
                 (with_enrichment
                    (with_computed_fields d
                       (VStr (str_or (TripRequest.budget_level request) "medium"))
                       total pp lat lng weather) events hotels restaurants)
                 "weather_summary"
               = Some (value_of_opt_str weather)).
  { rewrite with_enrichment_get by reflexivity. unfold with_computed_fields.
    apply dict_get_set_same. }
  pose proof (field_opt_float_written _ _ _ _ Glat Hlat) as Elat.
  pose proof (field_opt_float_written _ _ _ _ Glng Hlng) as Elng.
  pose proof (field_opt_str_written _ _ _ _ _ Gw Hw) as Ew'.
  unfold well_located. rewrite Elat, Elng, Ew'. split.
  - apply (geocode_destination_paired _ _ _ _ _ _ Eg).
  - intros ->. apply (fetch_weather_needs_coordinates _ _ _ _ _ Ew).
Qed.

Lemma assemble_plan_located env request w plan w' :
  assemble_plan env request w = (Ok plan, w') -> well_located plan.
Proof.
  unfold assemble_plan. destruct (negb (configured (GEMINI_API_KEY env))).
  - apply dummy_plan_located.
  - unfold bind. rewrite try_generate_run.
    destruct (generate_content env _ _) as [response|e].
    + apply generated_plan_located.
    + apply dummy_plan_located.
Qed.

(** X19.  Every plan [plan_trip] returns has both coordinates or neither, and
    carries no weather summary when it has no coordinates: the generated text
    cannot set them, since the handler writes the three fields over it. *)
Theorem planned_trip_is_well_located :
  forall (env : Env) (request : TripRequest.t) (user : string) (w : World)
         (plan : TripPlan.t) (w' : World),
    plan_trip env request user w = (Ok plan, w') ->
    (TripPlan.lat plan = None <-> TripPlan.lng plan = None)
    /\ (TripPlan.lat plan = None -> TripPlan.weather_summary plan = None).
Proof.
  intros env request user w plan w' Hrun.
  destruct (plan_trip_run env request user w) as (r0 & calls & E & Hrun').
  rewrite Hrun' in Hrun. clear Hrun'.
  destruct r0 as [plan0|e]; [|discriminate].
  apply assemble_plan_located in E.
  unfold save_outcome in Hrun.
  destruct (commit_fails env _); [discriminate|].
  destruct (commit_fails env _); [discriminate|].
  injection Hrun as <- _. exact E.
Qed.

Lemma planned_trip_is_well_located_witness :
  (TripPlan.lat kyoto_placeholder = None <-> TripPlan.lng kyoto_placeholder = None)
  /\ (TripPlan.lat kyoto_placeholder = None ->
      TripPlan.weather_summary kyoto_placeholder = None).
Proof.
  apply (planned_trip_is_well_located bare_env kyoto_request "alice" empty_world
           kyoto_placeholder (snd (plan_trip bare_env kyoto_request "alice" empty_world))).
  vm_compute. reflexivity.
Defined.

(** * Further properties: the PDF export *)




(** * Further properties: an analysis that is no object *)

(** X21.  When the text of the analysis decodes to a JSON value that is no
    object (a list, a string, a number, [true], [false] or [null]), the
    conversational endpoint raises [AttributeError] at [analysis.get]: what
    [analyze_chat_intent] decodes is not checked.  Nothing is stored. *)
Theorem chat_analysis_not_an_object :
  forall (env : Env) (request : ChatRequest.t) (user : string) (w : World)
         (txt : string) (v : value),
    configured (GEMINI_API_KEY env) = true ->
    generate_content env (model_name env)
      (chat_prompt (conversation_text env (ChatRequest.message request)
                      (ChatRequest.history request)))
    = Ok (ResponseText txt) ->
    json_loads (chat_clean txt) = Ok v ->
    is_dict v = false ->
    fst (chat_interaction env request user w) = Raise AttributeError
    /\ db (snd (chat_interaction env request user w)) = db w.
Proof.
  intros env request user w txt v Hkey Hgen Hdec Hv.
  unfold chat_interaction, with_session. fold (fresh_session w).
  unfold bind, lift. rewrite (analyze_chat_intent_run _ _ _ _ Hkey), Hgen, Hdec.
  destruct v; try discriminate Hv; split; reflexivity.
Qed.

Lemma chat_analysis_not_an_object_witness :
  fst (chat_interaction env_analysis_is_a_list chat_with_five_slots "alice" empty_world)
  = Raise AttributeError
  /\ db (snd (chat_interaction env_analysis_is_a_list chat_with_five_slots "alice"
                empty_world)) = db empty_world.
Proof.
  apply (chat_analysis_not_an_object env_analysis_is_a_list chat_with_five_slots "alice"
           empty_world "[1, 2]" (VList [VInt 1; VInt 2]));
    vm_compute; reflexivity.
Defined.

(** * Further properties: edges of the inputs *)

(** X22.  When the resolver declares readiness with an empty destination (and
    parameters that otherwise make a [TripRequest]), the conversational endpoint
    asks where to go: it answers [continue], calls no provider beyond the
    analysis, and stores nothing. *)
Theorem chat_ready_with_empty_destination_asks :
  forall (env : Env) (request : ChatRequest.t) (user : string) (w : World)
         (txt : string) (analysis params : dict) (trip_req : TripRequest.t),
    configured (GEMINI_API_KEY env) = true ->
    generate_content env (model_name env)
      (chat_prompt (conversation_text env (ChatRequest.message request)
                      (ChatRequest.history request)))
    = Ok (ResponseText txt) ->
    json_loads (chat_clean txt) = Ok (VDict analysis) ->
    dict_get analysis "action" = Some (VStr "plan_ready") ->
    dict_get analysis "params" = Some (VDict params) ->
    chat_trip_request params user = Ok trip_req ->
    TripRequest.destination trip_req = "" ->
    chat_interaction env request user w
    = (Ok (ChatContinue
             (VStr "I couldn't detect a destination. Where would you like to go?")),
       closed_session
         (logged (fresh_session w)
            [GeminiCall (model_name env)
               (chat_prompt (conversation_text env (ChatRequest.message request)
                               (ChatRequest.history request)))])).
Proof.
  intros env request user w txt analysis params trip_req Hkey Hgen Hdec Hact Hp Hreq Hdest.
  unfold chat_interaction, with_session. fold (fresh_session w).
  unfold bind, lift. rewrite (analyze_chat_intent_run _ _ _ _ Hkey), Hgen, Hdec.
  cbn [py_get]. rewrite Hact.
  change (eq_str (VStr "plan_ready") "plan_ready") with true. cbv iota.
  rewrite Hp, Hreq. unfold chat_generate_plan. rewrite Hdest. reflexivity.
Qed.

Lemma chat_ready_with_empty_destination_asks_witness :
  chat_interaction env_ready_with_empty_destination chat_with_five_slots "alice" empty_world
  = (Ok (ChatContinue
           (VStr "I couldn't detect a destination. Where would you like to go?")),
     closed_session
       (logged (fresh_session empty_world)
          [GeminiCall (model_name env_ready_with_empty_destination)
             (chat_prompt (conversation_text env_ready_with_empty_destination
                             (ChatRequest.message chat_with_five_slots)
                             (ChatRequest.history chat_with_five_slots)))])).
Proof.
  apply (chat_ready_with_empty_destination_asks env_ready_with_empty_destination
           chat_with_five_slots "alice" empty_world ready_with_empty_destination
           [("action", VStr "plan_ready");
            ("params", VDict [("destination", VStr ""); ("days", VInt 3)])]
           [("destination", VStr ""); ("days", VInt 3)]
           (TripRequest.mk None "" 3 (Some "medium") (Some 1) None None None
              (Some "alice")));
    vm_compute; reflexivity.
Defined.


